(** * Verus function finder and diagnostic analyser: model and properties

    Shallow embedding of [find_verus_functions.py] (the regex based scanner)
    and [find_verus_functions_syn.py] (diagnostic parsers, correlator and
    analyser).

    Python [str] values are modelled as lists of 8-bit characters (code points
    0..255); Python [int] values as [Z]; string indices as [nat]; [None]-able
    values as [option].  A [dict] iterated in insertion order is an
    association list. *)

From Stdlib Require Import List Ascii String ZArith Lia Bool Arith PeanoNat Sorted
  DecimalString.
Import ListNotations.

Local Open Scope list_scope.
Local Open Scope bool_scope.

(* ===================================================================== *)
(** ** Text primitives (Python [str] methods) *)
(* ===================================================================== *)

Module Text.

Definition str := list ascii.

(** String literals of the source. *)
Definition lit (s : string) : str := list_ascii_of_string s.

Definition code (c : ascii) : nat := nat_of_ascii c.

Definition between (lo hi : nat) (c : ascii) : bool :=
  (lo <=? code c) && (code c <=? hi).

(** [str.isspace] on one character, which is also the class [\s] of [re]
    on [str] patterns: TAB..CR, FS..US, SPACE, NEL, NBSP. *)
Definition is_space (c : ascii) : bool :=
  between 9 13 c || between 28 32 c || (code c =? 133) || (code c =? 160).

(** The class [\d] on code points below 256. *)
Definition is_digit (c : ascii) : bool := between 48 57 c.

Definition is_upper (c : ascii) : bool := between 65 90 c.
Definition is_lower (c : ascii) : bool := between 97 122 c.

(** [[a-zA-Z_]] and [[a-zA-Z0-9_]]. *)
Definition is_ident_start (c : ascii) : bool :=
  is_lower c || is_upper c || (code c =? 95).
Definition is_ident_char (c : ascii) : bool :=
  is_ident_start c || is_digit c.

(** The class [\w] on code points below 256: alphanumerics and underscore. *)
Definition is_word (c : ascii) : bool :=
  is_ident_char c
  || (code c =? 170) || (code c =? 178) || (code c =? 179) || (code c =? 181)
  || (code c =? 185) || (code c =? 186) || between 188 190 c
  || between 192 214 c || between 216 246 c || between 248 255 c.

Definition ch_eqb (a b : ascii) : bool := Ascii.eqb a b.

Fixpoint str_eqb (a b : str) : bool :=
  match a, b with
  | [], [] => true
  | x :: a', y :: b' => ch_eqb x y && str_eqb a' b'
  | _, _ => false
  end.

(** [s.startswith(p)], and the remainder after the prefix. *)
Fixpoint drop_prefix (p s : str) : option str :=
  match p with
  | [] => Some s
  | x :: p' =>
      match s with
      | [] => None
      | y :: s' => if ch_eqb x y then drop_prefix p' s' else None
      end
  end.

Definition startswith (s p : str) : bool :=
  match drop_prefix p s with Some _ => true | None => false end.

(** [p in s]. *)
Fixpoint contains (p s : str) : bool :=
  startswith s p ||
  match s with
  | [] => false
  | _ :: s' => contains p s'
  end.

(** [s.endswith(p)]. *)
Definition endswith (s p : str) : bool := startswith (rev s) (rev p).

Fixpoint drop_while (f : ascii -> bool) (s : str) : str :=
  match s with
  | [] => []
  | c :: s' => if f c then drop_while f s' else s
  end.

Fixpoint take_while (f : ascii -> bool) (s : str) : str :=
  match s with
  | [] => []
  | c :: s' => if f c then c :: take_while f s' else []
  end.

Definition lstrip (s : str) : str := drop_while is_space s.
Definition rstrip (s : str) : str := rev (drop_while is_space (rev s)).
Definition strip (s : str) : str := rstrip (lstrip s).

Definition newline : ascii := ascii_of_nat 10.

(** [s.split(sep)] for a one-character separator: never empty. *)
Fixpoint split_on (sep : ascii) (s : str) : list str :=
  match s with
  | [] => [[]]
  | c :: s' =>
      if ch_eqb c sep then [] :: split_on sep s'
      else match split_on sep s' with
           | h :: t => (c :: h) :: t
           | [] => [[c]]
           end
  end.

Definition lines (s : str) : list str := split_on newline s.

(** [sep.join(parts)]. *)
Fixpoint join (sep : str) (parts : list str) : str :=
  match parts with
  | [] => []
  | [p] => p
  | p :: rest => p ++ sep ++ join sep rest
  end.

(** [s.count('\n')]. *)
Fixpoint count_newlines (s : str) : nat :=
  match s with
  | [] => 0
  | c :: s' => (if ch_eqb c newline then 1 else 0) + count_newlines s'
  end.

(** [s.lower()] on code points below 256. *)
Definition lower_char (c : ascii) : ascii :=
  if is_upper c || (between 192 222 c && negb (code c =? 215))
  then ascii_of_nat (code c + 32) else c.
Definition lower (s : str) : str := map lower_char s.

(** Value of a run of decimal digits, as [int] reads it. *)
Definition digit_value (c : ascii) : Z := Z.of_nat (code c - 48).
Definition digits_value (ds : str) : Z :=
  fold_left (fun acc c => (10 * acc + digit_value c)%Z) ds 0%Z.

(** [str(n)] for an [int]: decimal digits, with a minus sign when negative. *)
Definition str_of_int (n : Z) : str :=
  list_ascii_of_string (NilZero.string_of_int (Z.to_int n)).

End Text.

Import Text.

(* ===================================================================== *)
(** ** Regular expressions of the source, as matchers

    A matcher takes the text at a candidate start position and returns the
    captured groups when the pattern matches there.  [search] is
    [pattern.search]: the leftmost start position at which it matches.
    Greedy repetitions are taken maximal; wherever Python could give back
    part of a repetition, the matcher says so explicitly. *)
(* ===================================================================== *)

Module Re.

(** A greedy [c+] over a character class: matched text and remainder. *)
Definition many1 (f : ascii -> bool) (s : str) : option (str * str) :=
  match take_while f s with
  | [] => None
  | g => Some (g, drop_while f s)
  end.

Definition not_char (c : ascii) (x : ascii) : bool := negb (ch_eqb x c).

(** [.] without DOTALL: anything but a newline. *)
Definition dot (x : ascii) : bool := not_char newline x.

Fixpoint search_from {A : Type} (m : str -> option A) (pos : nat) (s : str)
  : option (nat * A) :=
  match m s with
  | Some r => Some (pos, r)
  | None =>
      match s with
      | [] => None
      | _ :: s' => search_from m (S pos) s'
      end
  end.

Definition search {A : Type} (m : str -> option A) (s : str) : option A :=
  match search_from m 0 s with
  | Some (_, r) => Some r
  | None => None
  end.

(** [pattern.sub('', s)] for a pattern that matches no empty text: the
    matcher gives the length of the match, [skip] counts the characters of
    the current match still to be dropped. *)
Fixpoint sub_from (m : str -> option nat) (skip : nat) (s : str) : str :=
  match s with
  | [] => []
  | c :: s' =>
      match skip with
      | S k => sub_from m k s'
      | O =>
          match m s with
          | Some n => sub_from m (n - 1) s'
          | None => c :: sub_from m 0 s'
          end
      end
  end.

Definition sub (m : str -> option nat) (s : str) : str := sub_from m 0 s.

(** [pattern.finditer(s)] for a pattern that matches no empty text: start
    position and groups of the successive matches.  The matcher gives the
    length of the match with the groups. *)
Fixpoint finditer_from {A : Type} (m : str -> option (nat * A))
    (skip pos : nat) (s : str) : list (nat * A) :=
  match s with
  | [] => []
  | _ :: s' =>
      match skip with
      | S k => finditer_from m k (S pos) s'
      | O =>
          match m s with
          | Some (n, g) => (pos, g) :: finditer_from m (n - 1) (S pos) s'
          | None => finditer_from m 0 (S pos) s'
          end
      end
  end.

Definition finditer {A : Type} (m : str -> option (nat * A)) (s : str)
  : list (nat * A) := finditer_from m 0 0 s.

(** The end of the error pattern, [: (.+)]: group 1. *)
Definition error_tail (s : str) : option str :=
  match drop_prefix (lit ": ") s with
  | Some r => match many1 dot r with Some (g, _) => Some g | None => None end
  | None => None
  end.

(** The optional code, [\[E\d+\]]: the text after it. *)
Definition error_code (s : str) : option str :=
  match drop_prefix (lit "[E") s with
  | Some r =>
      match many1 is_digit r with
      | Some (_, r') => drop_prefix (lit "]") r'
      | None => None
      end
  | None => None
  end.

(** [error(?:\[E\d+\])?: (.+)]: group 1.  The code is tried first, and
    the pattern without it when that fails. *)
Definition error_pattern (s : str) : option str :=
  match drop_prefix (lit "error") s with
  | Some r =>
      match (match error_code r with
             | Some r' => error_tail r'
             | None => None
             end) with
      | Some g => Some g
      | None => error_tail r
      end
  | None => None
  end.

(** [error: could not compile `([^`]+)`]. *)
Definition cargo_error_pattern (s : str) : option str :=
  match drop_prefix (lit "error: could not compile `") s with
  | Some r =>
      match many1 (not_char "`"%char) r with
      | Some (g, r') =>
          match drop_prefix (lit "`") r' with
          | Some _ => Some g
          | None => None
          end
      | None => None
      end
  | None => None
  end.

(** [warning: (.+)]. *)
Definition warning_pattern (s : str) : option str :=
  match drop_prefix (lit "warning: ") s with
  | Some r => match many1 dot r with Some (g, _) => Some g | None => None end
  | None => None
  end.

(** [-->\s+([^:]+):(\d+):(\d+)]: groups 1, 2, 3.  When the text after the
    arrow is blank up to the first colon, [\s+] gives back its last
    character, which becomes group 1. *)
Definition location_groups (s : str) : option (str * str * str) :=
  match drop_prefix (lit "-->") s with
  | Some r =>
      let ws := take_while is_space r in
      let after_ws := drop_while is_space r in
      let u := take_while (not_char ":"%char) after_ws in
      let after_u := drop_while (not_char ":"%char) after_ws in
      let g1 :=
        match u with
        | _ :: _ => match ws with [] => None | _ :: _ => Some u end
        | [] =>
            match rev ws with
            | last :: _ :: _ => Some [last]
            | _ => None
            end
        end in
      match g1 with
      | Some file =>
          match drop_prefix (lit ":") after_u with
          | Some r1 =>
              match many1 is_digit r1 with
              | Some (g2, r2) =>
                  match drop_prefix (lit ":") r2 with
                  | Some r3 =>
                      match many1 is_digit r3 with
                      | Some (g3, _) => Some (file, g2, g3)
                      | None => None
                      end
                  | None => None
                  end
              | None => None
              end
          | None => None
          end
      | None => None
      end
  | None => None
  end.

Definition file_location_pattern := location_groups.

(** [process didn't exit successfully: (.+)]. *)
Definition process_error_pattern (s : str) : option str :=
  match drop_prefix (lit "process didn't exit successfully: ") s with
  | Some r => match many1 dot r with Some (g, _) => Some g | None => None end
  | None => None
  end.

(** [memory allocation of \d+ bytes failed]. *)
Definition memory_error_pattern (s : str) : option unit :=
  match drop_prefix (lit "memory allocation of ") s with
  | Some r =>
      match many1 is_digit r with
      | Some (_, r') =>
          match drop_prefix (lit " bytes failed") r' with
          | Some _ => Some tt
          | None => None
          end
      | None => None
      end
  | None => None
  end.

(** [\(exit status: (\d+)\)]. *)
Definition exit_status_pattern (s : str) : option str :=
  match drop_prefix (lit "(exit status: ") s with
  | Some r =>
      match many1 is_digit r with
      | Some (g, r') =>
          match drop_prefix (lit ")") r' with
          | Some _ => Some g
          | None => None
          end
      | None => None
      end
  | None => None
  end.

(** [Verus command completed with exit code: (\d+)]. *)
Definition verus_command_exit_pattern (s : str) : option str :=
  match drop_prefix (lit "Verus command completed with exit code: ") s with
  | Some r => match many1 is_digit r with Some (g, _) => Some g | None => None end
  | None => None
  end.

(** [verification results::\s*(\d+)\s+verified,\s*(\d+)\s+errors?]. *)
Definition verification_results_pattern (s : str) : option (str * str) :=
  match drop_prefix (lit "verification results::") s with
  | Some r =>
      match many1 is_digit (drop_while is_space r) with
      | Some (g1, r1) =>
          match many1 is_space r1 with
          | Some (_, r2) =>
              match drop_prefix (lit "verified,") r2 with
              | Some r3 =>
                  match many1 is_digit (drop_while is_space r3) with
                  | Some (g2, r4) =>
                      match many1 is_space r4 with
                      | Some (_, r5) =>
                          match drop_prefix (lit "error") r5 with
                          | Some _ => Some (g1, g2)
                          | None => None
                          end
                      | None => None
                      end
                  | None => None
                  end
              | None => None
              end
          | None => None
          end
      | None => None
      end
  | None => None
  end.

(** [\x1b\[[0-9;]*m], and [re.sub] of it by the empty string. *)
Definition ansi_param (c : ascii) : bool := is_digit c || ch_eqb c ";"%char.

(** The result is the length of the match. *)
Definition ansi_pattern (s : str) : option nat :=
  match s with
  | e :: b :: r =>
      if ch_eqb e (ascii_of_nat 27) && ch_eqb b "["%char
      then match drop_prefix (lit "m") (drop_while ansi_param r) with
           | Some _ => Some (3 + List.length (take_while ansi_param r))
           | None => None
           end
      else None
  | _ => None
  end.

Definition strip_ansi (s : str) : str := sub ansi_pattern s.

End Re.

(* ===================================================================== *)
(** ** [CompilationErrorParser] of [find_verus_functions_syn.py] *)
(* ===================================================================== *)

Module CompilationErrorParser.
Import Re.

(** The dictionaries built for errors and warnings. *)
Record record := mk_record {
  message : str;
  file : option str;
  line : option Z;
  column : option Z;
  full_message : list str
}.

Definition new_record (msg line_text : str) : record :=
  mk_record msg None None None [line_text].

(** [r["full_message"].append(l)] and [r["message"] += extra]. *)
Definition append_line (r : record) (l : str) : record :=
  mk_record (message r) (file r) (line r) (column r) (full_message r ++ [l]).

Definition add_message (r : record) (extra : str) : record :=
  mk_record (message r ++ extra) (file r) (line r) (column r) (full_message r).

Definition set_location (r : record) (f : str) (l c : Z) : record :=
  mk_record (message r) (Some f) (Some l) (Some c) (full_message r).

Definition verification_error_patterns : list str :=
  [ lit "error: assertion failed";
    lit "error: postcondition not satisfied";
    lit "error: precondition not satisfied";
    lit "error: loop invariant not preserved";
    lit "error: loop invariant not satisfied on entry";
    lit "error: assertion not satisfied" ].

Definition is_verification_error (l : str) : bool :=
  existsb (fun p => contains p l) verification_error_patterns.

Definition matches {A : Type} (m : str -> option A) (l : str) : bool :=
  match search m l with Some _ => true | None => false end.

(** The loop state of [parse_compilation_output]. *)
Record state := mk_state {
  errors : list record;
  warnings : list record;
  current_error : option record;
  current_warning : option record
}.

Definition init : state := mk_state [] [] None None.

(** [if current: lst.append(current)]. *)
Definition flush (lst : list record) (current : option record) : list record :=
  match current with
  | Some r => lst ++ [r]
  | None => lst
  end.

(** The test of the first continuation branch, without [current_error]. *)
Definition error_continuation (l : str) : bool :=
  startswith l (lit "|") || startswith l (lit "^") || startswith l (lit "=")
  || startswith l (lit "Caused by:") || startswith l (lit "(signal:")
  || startswith l (lit "  process didn't exit successfully:")
  || matches exit_status_pattern l.

Definition warning_continuation (l : str) : bool :=
  startswith l (lit "|") || startswith l (lit "^") || startswith l (lit "=").

Definition continue_error (e : record) (l : str) : record :=
  let e1 := append_line e l in
  if startswith l (lit "Caused by:") then add_message e1 (lit " - " ++ strip l)
  else if contains (lit "(signal:") l then add_message e1 (lit " - " ++ strip l)
  else match search exit_status_pattern l with
       | Some g => add_message e1 (lit " (exit status: " ++ g ++ lit ")")
       | None => e1
       end.

(** The last [if]/[elif] chain of the loop body. *)
Definition continuation (st : state) (l : str) : state :=
  match current_error st with
  | Some e =>
      if error_continuation l
      then mk_state (errors st) (warnings st) (Some (continue_error e l))
                    (current_warning st)
      else
        match current_warning st with
        | Some w =>
            if warning_continuation l
            then mk_state (errors st) (warnings st) (current_error st)
                          (Some (append_line w l))
            else if str_eqb l []
            then mk_state
                   (if 0 <? List.length (full_message e)
                    then errors st ++ [e] else errors st)
                   (if 0 <? List.length (full_message w)
                    then warnings st ++ [w] else warnings st)
                   (if 0 <? List.length (full_message e)
                    then None else Some e)
                   (if 0 <? List.length (full_message w)
                    then None else Some w)
            else st
        | None =>
            if str_eqb l []
            then mk_state
                   (if 0 <? List.length (full_message e)
                    then errors st ++ [e] else errors st)
                   (warnings st)
                   (if 0 <? List.length (full_message e)
                    then None else Some e)
                   None
            else st
        end
  | None =>
      match current_warning st with
      | Some w =>
          if warning_continuation l
          then mk_state (errors st) (warnings st) None (Some (append_line w l))
          else if str_eqb l []
          then mk_state (errors st)
                 (if 0 <? List.length (full_message w)
                  then warnings st ++ [w] else warnings st)
                 None
                 (if 0 <? List.length (full_message w)
                  then None else Some w)
          else st
      | None => st
      end
  end.

(** One iteration of the main loop on the raw line [raw];
    [has_verification_results] is the flag set by the first pass. *)
Definition step (has_verification_results : bool) (st : state) (raw : str)
  : state :=
  let l := strip raw in
  if matches verification_results_pattern l then st
  else
  match search cargo_error_pattern l with
  | Some crate =>
      if has_verification_results then st
      else mk_state (flush (errors st) (current_error st)) (warnings st)
             (Some (new_record (lit "Compilation failed for crate: " ++ crate) l))
             (current_warning st)
  | None =>
  if matches memory_error_pattern l then
    match current_error st with
    | Some e =>
        mk_state (errors st) (warnings st)
          (Some (add_message (append_line e l) (lit " - " ++ l)))
          (current_warning st)
    | None =>
        mk_state (errors st ++ [new_record l l]) (warnings st) None
          (current_warning st)
    end
  else
  match search verus_command_exit_pattern l with
  | Some g =>
      let exit_code := digits_value g in
      match current_error st with
      | Some e =>
          mk_state (errors st) (warnings st)
            (Some (add_message (append_line e l)
                     (lit " (exit code: " ++ str_of_int exit_code ++ lit ")")))
            (current_warning st)
      | None =>
          mk_state (errors st) (warnings st)
            (Some (new_record
                     (lit "Verus command failed with exit code "
                      ++ str_of_int exit_code) l))
            (current_warning st)
      end
  | None =>
  match search process_error_pattern l with
  | Some g =>
      match current_error st with
      | Some e =>
          mk_state (errors st) (warnings st)
            (Some (add_message (append_line e l) (lit " - " ++ g)))
            (current_warning st)
      | None =>
          mk_state (errors st) (warnings st)
            (Some (new_record (lit "Process execution failed: " ++ g) l))
            (current_warning st)
      end
  | None =>
  match search error_pattern l with
  | Some g =>
      if is_verification_error l then st
      else mk_state (flush (errors st) (current_error st)) (warnings st)
             (Some (new_record (strip g) l)) (current_warning st)
  | None =>
  match search warning_pattern l with
  | Some g =>
      mk_state (errors st) (flush (warnings st) (current_warning st))
        (current_error st) (Some (new_record (strip g) l))
  | None =>
  match search file_location_pattern l with
  | Some (file_path, g2, g3) =>
      let line_num := digits_value g2 in
      let col := digits_value g3 in
      match current_error st with
      | Some e =>
          mk_state (errors st) (warnings st)
            (Some (append_line (set_location e file_path line_num col) l))
            (current_warning st)
      | None =>
          match current_warning st with
          | Some w =>
              mk_state (errors st) (warnings st) None
                (Some (append_line (set_location w file_path line_num col) l))
          | None => st
          end
      end
  | None => continuation st l
  end end end end end end.

(** The first pass: does some stripped line carry the results summary? *)
Definition first_pass (ls : list str) : bool :=
  existsb (fun raw => matches verification_results_pattern (strip raw)) ls.

Definition run (flag : bool) (st : state) (ls : list str) : state :=
  fold_left (step flag) ls st.

(** After the loop: the records still open are appended. *)
Definition finish (st : state) : list record * list record :=
  (flush (errors st) (current_error st),
   flush (warnings st) (current_warning st)).

Definition parse_lines (ls : list str) : list record * list record :=
  finish (run (first_pass ls) init ls).

Definition parse_compilation_output (output_content : str)
  : list record * list record :=
  parse_lines (lines output_content).

(** [has_verification_results]: the pattern searched in the whole text. *)
Definition has_verification_results (output_content : str) : bool :=
  matches verification_results_pattern output_content.

End CompilationErrorParser.

(* ===================================================================== *)
(** ** [pathlib]: [str(Path(p))] and [Path(p).name] on a POSIX system *)
(* ===================================================================== *)

Module Pathlib.

Definition slash : ascii := "/"%char.

(** The components kept by the parser: empty ones and [.] are dropped. *)
Definition parts (p : str) : list str :=
  filter (fun c => negb (str_eqb c [] || str_eqb c (lit ".")))
         (split_on slash p).

(** One leading slash, or exactly two, is the root. *)
Definition root (p : str) : str :=
  match p with
  | a :: b :: c :: _ =>
      if ch_eqb a slash
      then if ch_eqb b slash && negb (ch_eqb c slash) then lit "//" else lit "/"
      else []
  | [a; b] =>
      if ch_eqb a slash then (if ch_eqb b slash then lit "//" else lit "/")
      else []
  | [a] => if ch_eqb a slash then lit "/" else []
  | [] => []
  end.

Definition path_str (p : str) : str :=
  match root p, parts p with
  | [], [] => lit "."
  | r, ps => r ++ join (lit "/") ps
  end.

Definition name (p : str) : str := last (parts p) [].

End Pathlib.

(* ===================================================================== *)
(** ** [VerificationParser] *)
(* ===================================================================== *)

Module VerificationParser.
Import Re.

(** [-->\s+([^:]+):(\d+):\d+]: groups 1 and 2. *)
Definition error_pattern (s : str) : option (str * str) :=
  match location_groups s with
  | Some (g1, g2, _) => Some (g1, g2)
  | None => None
  end.

Definition verification_error_types : list str :=
  [ lit "assertion failed";
    lit "postcondition not satisfied";
    lit "precondition not satisfied";
    lit "loop invariant not preserved";
    lit "loop invariant not satisfied on entry";
    lit "assertion not satisfied" ].

(** The whitespace that [int] drops around the literal: the separators
    FS..US are not part of it. *)
Definition is_int_space (c : ascii) : bool :=
  between 9 13 c || (code c =? 32) || (code c =? 133) || (code c =? 160).

(** [int(s)] for a decimal literal: [None] stands for [ValueError]. *)
Fixpoint digit_groups (prev_digit : bool) (s : str) : bool :=
  match s with
  | [] => prev_digit
  | c :: s' =>
      if is_digit c then digit_groups true s'
      else if ch_eqb c "_"%char then prev_digit && digit_groups false s'
      else false
  end.

Definition py_int (s : str) : option Z :=
  let t := rev (drop_while is_int_space (rev (drop_while is_int_space s))) in
  let parse (neg : bool) (body : str) :=
    if digit_groups false body
    then let v := digits_value (filter is_digit body) in
         Some (if neg then (- v)%Z else v)
    else None in
  match t with
  | c :: r =>
      if ch_eqb c "-"%char then parse true r
      else if ch_eqb c "+"%char then parse false r
      else parse false t
  | [] => None
  end.

(** The dictionary built for one verification failure. *)
Record failure := mk_failure {
  error_type : str;
  file : option str;
  line : option Z;
  column : option Z;
  message : str;
  assertion_details : list str;
  full_error_text : str
}.

(** The variables of the capture loop over [j]. *)
Record capture := mk_capture {
  full_error_lines : list str;
  file_path : option str;
  line_number : option Z;
  col : option Z;
  location_found_at : option nat
}.

Definition starts_new_section (l : str) : bool :=
  startswith l (lit "error:") || startswith l (lit "verification results")
  || startswith l (lit "note:").

(** The body of the capture loop at index [j] on [lines[j:]]. *)
Definition capture_line (j : nat) (current_line : str) (c : capture) : capture :=
  let fl := full_error_lines c ++ [current_line] in
  match search error_pattern current_line, location_found_at c with
  | Some (g1, g2), None =>
      let ps := split_on ":"%char current_line in
      let column := if 3 <=? List.length ps then py_int (last ps []) else None in
      mk_capture fl (Some g1) (Some (digits_value g2)) column (Some j)
  | _, _ =>
      mk_capture fl (file_path c) (line_number c) (col c) (location_found_at c)
  end.

Definition capture_break (j : nat) (current_line : str) (following : list str)
    (c : capture) : bool :=
  match location_found_at c with
  | Some at_ =>
      (at_ + 1 <? j) && str_eqb (strip current_line) []
      && match following with
         | next :: _ => starts_new_section (strip next)
         | [] => false
         end
  | None => false
  end.

(** [for j in range(i, min(i + 15, len(lines)))]: [n] iterations are left
    and [rest] is [lines[j:]]. *)
Fixpoint capture_loop (n j : nat) (rest : list str) (c : capture) : capture :=
  match n, rest with
  | S n', current_line :: following =>
      let c1 := capture_line j current_line c in
      if capture_break j current_line following c1 then c1
      else capture_loop n' (S j) following c1
  | _, _ => c
  end.

Definition is_detail (clean_line : str) : bool :=
  negb (str_eqb clean_line [])
  && (contains (lit "assert") clean_line || contains (lit "|") clean_line
      || startswith clean_line (lit "-->")).

(** The body of the outer loop at index [i] on [rest = lines[i:]]. *)
Definition failure_at (i : nat) (rest : list str) : option failure :=
  match rest with
  | [] => None
  | raw :: _ =>
      let l := strip raw in
      match find (fun p => contains p l) verification_error_types with
      | Some etype =>
          if contains (lit "error") (lower l) then
            let c := capture_loop 15 i rest
                       (mk_capture [] None None None None) in
            let clean_full_text :=
              map (fun t => strip_ansi (rstrip t)) (full_error_lines c) in
            let complete_error_text :=
              strip (join [newline] clean_full_text) in
            let details := filter is_detail (map strip clean_full_text) in
            Some (mk_failure etype (option_map strip_ansi (file_path c))
                    (line_number c) (col c) (strip_ansi (strip l))
                    (firstn 10 details) complete_error_text)
          else None
      | None => None
      end
  end.

Fixpoint failures_from (i : nat) (rest : list str) : list failure :=
  match rest with
  | [] => []
  | _ :: rest' =>
      match failure_at i rest with
      | Some f => f :: failures_from (S i) rest'
      | None => failures_from (S i) rest'
      end
  end.

Definition parse_verification_failures (output_content : str) : list failure :=
  failures_from 0 (lines output_content).

(** *** The correlator *)

(** [all_functions_with_lines]: file path to (name, line) pairs, in the
    iteration order of the dictionary. *)
Definition index := list (str * list (str * Z)).

Definition rule_exact (fp key : str) : bool :=
  str_eqb (Pathlib.path_str fp) (Pathlib.path_str key).

Definition rule_suffix (fp key : str) : bool :=
  endswith (Pathlib.path_str fp) (Pathlib.path_str key)
  || endswith (Pathlib.path_str key) (Pathlib.path_str fp).

Definition rule_substring (fp key : str) : bool :=
  contains (Pathlib.path_str fp) (Pathlib.path_str key)
  || contains (Pathlib.path_str key) (Pathlib.path_str fp).

Definition rule_basename (fp key : str) : bool :=
  str_eqb (Pathlib.name fp) (Pathlib.name key).

(** The four tests made on one key, in the order of the loop body. *)
Definition key_matches (fp key : str) : bool :=
  if rule_exact fp key then true
  else if rule_suffix fp key then true
  else if rule_substring fp key then true
  else rule_basename fp key.

(** The loop over the keys, left by [break] at the first key that passes. *)
Fixpoint matching_file (fp : str) (idx : index) : option str :=
  match idx with
  | [] => None
  | (key, _) :: idx' =>
      if key_matches fp key then Some key else matching_file fp idx'
  end.

(** [d[key]]. *)
Fixpoint lookup (key : str) (idx : index) : option (list (str * Z)) :=
  match idx with
  | [] => None
  | (k, v) :: idx' => if str_eqb k key then Some v else lookup key idx'
  end.

(** The loop over the functions of the file: [(closest_function,
    closest_line)] is the loop state. *)
Definition closest_step (line_number : Z) (acc : option str * Z)
    (f : str * Z) : option str * Z :=
  let '(func_name, func_line) := f in
  if (func_line <=? line_number)%Z && (snd acc <? func_line)%Z
  then (Some func_name, func_line)
  else acc.

Definition closest (functions_in_file : list (str * Z)) (line_number : Z)
  : option str :=
  fst (fold_left (closest_step line_number) functions_in_file (None, 0%Z)).

Definition find_function_at_line (fp : str) (line_number : Z) (idx : index)
  : option str :=
  match matching_file fp idx with
  | None => None
  | Some key =>
      match lookup key idx with
      | Some functions_in_file => closest functions_in_file line_number
      | None => None
      end
  end.

(** *** The same method in [find_verus_functions.py] *)

Definition key_matches_regex (fp key : str) : bool :=
  if contains fp key || contains key fp then true
  else str_eqb (Pathlib.name fp) (Pathlib.name key).

Fixpoint matching_file_regex (fp : str) (idx : index) : option str :=
  match idx with
  | [] => None
  | (key, _) :: idx' =>
      if key_matches_regex fp key then Some key
      else matching_file_regex fp idx'
  end.

Definition find_function_at_line_regex (fp : str) (line_number : Z)
    (idx : index) : option str :=
  match matching_file_regex fp idx with
  | None => None
  | Some key =>
      match lookup key idx with
      | Some functions_in_file => closest functions_in_file line_number
      | None => None
      end
  end.

End VerificationParser.

(* ===================================================================== *)
(** ** [RustFunctionFinder] of [find_verus_functions.py] *)
(* ===================================================================== *)

Module RustFunctionFinder.
Import Re.

(** *** Patterns *)

(** [\b] between the character before a position and the one at it. *)
Definition word_boundary (prev next : option ascii) : bool :=
  xorb (match prev with Some c => is_word c | None => false end)
       (match next with Some c => is_word c | None => false end).

(** [\bverus!\s*\{] at a position: the length of the match. *)
Definition verus_start_pattern (prev : option ascii) (s : str) : option nat :=
  if word_boundary prev (hd_error s) then
    match drop_prefix (lit "verus!") s with
    | Some r =>
        match drop_prefix (lit "{") (drop_while is_space r) with
        | Some _ => Some (6 + List.length (take_while is_space r) + 1)
        | None => None
        end
    | None => None
    end
  else None.

(** The search loop from position [pos], where [s] is the text from [pos]
    on and [prev] the character before it: [(match.start(), match.end())]. *)
Fixpoint verus_search_from (prev : option ascii) (pos : nat) (s : str)
  : option (nat * nat) :=
  match verus_start_pattern prev s with
  | Some n => Some (pos, pos + n)
  | None =>
      match s with
      | [] => None
      | c :: s' => verus_search_from (Some c) (S pos) s'
      end
  end.

(** [verus_start_pattern.search(content, start)]. *)
Definition verus_search (content : str) (start : nat) : option (nat * nat) :=
  verus_search_from
    (match start with O => None | S p => nth_error content p end)
    start (skipn start content).

(** [fn\s+(IDENT)\s*\(], where IDENT is a character of [[a-zA-Z_]]
    followed by any number of [[a-zA-Z0-9_]]: the name and the text
    after. *)
Definition fn_tail (s : str) : option (str * str) :=
  match drop_prefix (lit "fn") s with
  | Some r =>
      match many1 is_space r with
      | Some (_, c :: r2) =>
          if is_ident_start c then
            match drop_prefix (lit "(")
                    (drop_while is_space (drop_while is_ident_char r2)) with
            | Some rest => Some (c :: take_while is_ident_char r2, rest)
            | None => None
            end
          else None
      | _ => None
      end
  | None => None
  end.

(** [kw\s+] for the first keyword of the alternation that fits: the text
    matched and the text after. *)
Fixpoint keyword_space (kws : list str) (s : str) : option (str * str) :=
  match kws with
  | [] => None
  | kw :: kws' =>
      match drop_prefix kw s with
      | Some r =>
          match many1 is_space r with
          | Some (ws, r') => Some (kw ++ ws, r')
          | None => keyword_space kws' s
          end
      | None => keyword_space kws' s
      end
  end.

(** [(?:pub\s+)?] in front of [rest]: with [pub] first, without it when
    that fails. *)
Definition optional_pub {A : Type} (rest : str -> option A) (s : str)
  : option A :=
  match (match drop_prefix (lit "pub") s with
         | Some r =>
             match many1 is_space r with
             | Some (_, r') => rest r'
             | None => None
             end
         | None => None
         end) with
  | Some res => Some res
  | None => rest s
  end.

Definition all_fn_keywords : list str :=
  [lit "spec"; lit "proof"; lit "exec"; lit "open"; lit "uninterp"; lit "const"].

(** [((?:spec|proof|exec|open|uninterp|const)\s+)*fn...]: one more
    repetition is tried first; [group1] is what the group captured last. *)
Fixpoint modifiers_fn (fuel : nat) (group1 : option str) (s : str)
  : option (option str * str * str) :=
  let stop :=
    match fn_tail s with
    | Some (name, rest) => Some (group1, name, rest)
    | None => None
    end in
  match fuel with
  | O => stop
  | S fuel' =>
      match keyword_space all_fn_keywords s with
      | Some (g, r) =>
          match modifiers_fn fuel' (Some g) r with
          | Some res => Some res
          | None => stop
          end
      | None => stop
      end
  end.

(** [(?:pub\s+)?((?:spec|proof|exec|open|uninterp|const)\s+)*fn\s+
    (IDENT)\s*\(]: length of the match and groups 1, 2. *)
Definition all_fn_pattern (s : str) : option (nat * (option str * str)) :=
  match optional_pub (modifiers_fn (List.length s) None) s with
  | Some (g1, name, rest) => Some (List.length s - List.length rest, (g1, name))
  | None => None
  end.

(** [(?!(?:spec|open|uninterp)\s+)const\s+fn\s+...]. *)
Definition const_tail (s : str) : option (str * str) :=
  match keyword_space [lit "spec"; lit "open"; lit "uninterp"] s with
  | Some _ => None
  | None =>
      match drop_prefix (lit "const") s with
      | Some r =>
          match many1 is_space r with
          | Some (_, r') => fn_tail r'
          | None => None
          end
      | None => None
      end
  end.

(** [(?:pub\s+)?(?!(?:spec|open|uninterp)\s+)const\s+fn\s+
    (IDENT)\s*\(]: length of the match and group 1. *)
Definition const_fn_pattern (s : str) : option (nat * str) :=
  match optional_pub const_tail s with
  | Some (name, rest) => Some (List.length s - List.length rest, name)
  | None => None
  end.

(** [//.*$] with MULTILINE: the length of the match. *)
Definition line_comment_pattern (s : str) : option nat :=
  match drop_prefix (lit "//") s with
  | Some r => Some (2 + List.length (take_while dot r))
  | None => None
  end.

(** Length of the shortest text before the first [*/]. *)
Fixpoint until_close (s : str) : option nat :=
  match s with
  | [] => None
  | _ :: s' =>
      if startswith s (lit "*/") then Some 0
      else match until_close s' with
           | Some k => Some (S k)
           | None => None
           end
  end.

(** [/\*.*?\*/] with DOTALL: the length of the match. *)
Definition block_comment_pattern (s : str) : option nat :=
  match drop_prefix (lit "/*") s with
  | Some r =>
      match until_close r with
      | Some k => Some (2 + k + 2)
      | None => None
      end
  | None => None
  end.

(** *** Methods *)

Definition remove_comments (content : str) : str :=
  sub block_comment_pattern (sub line_comment_pattern content).

Definition quote : ascii := ascii_of_nat 34.
Definition backslash : ascii := ascii_of_nat 92.

(** The loop that skips a string literal, up to its closing quote or to
    the end of the text, on [content[i:]]; a backslash skips one more
    character. *)
Fixpoint skip_string (rest : str) (i : nat) : nat :=
  match rest with
  | [] => i
  | c :: rest' =>
      if ch_eqb c quote then i
      else if ch_eqb c backslash then
        match rest' with
        | [] => i + 2
        | _ :: rest'' => skip_string rest'' (i + 2)
        end
      else skip_string rest' (i + 1)
  end.

(** [while i < len(content) - 1 and content[i:i+2] != '*/': i += 1]. *)
Fixpoint skip_block_comment (rest : str) (i : nat) : nat :=
  match rest with
  | c :: rest' =>
      match rest' with
      | d :: _ =>
          if ch_eqb c "*"%char && ch_eqb d "/"%char then i
          else skip_block_comment rest' (i + 1)
      | [] => i
      end
  | [] => i
  end.

(** [while i < len(content) and content[i] != '\n': i += 1]. *)
Fixpoint skip_line_comment (rest : str) (i : nat) : nat :=
  match rest with
  | [] => i
  | c :: rest' =>
      if ch_eqb c newline then i else skip_line_comment rest' (i + 1)
  end.

(** The result of [find_matching_brace], [-1] being [NoBrace]. *)
Inductive brace_result := Brace (i : nat) | NoBrace.

(** The [while] loop of [find_matching_brace]; [None] when the fuel runs
    out before the loop ends. *)
Fixpoint find_matching_brace_loop (fuel : nat) (content : str) (i : nat)
    (brace_count : Z) : option brace_result :=
  match fuel with
  | O => None
  | S fuel' =>
      match skipn i content with
      | [] => Some NoBrace
      | c :: rest =>
          if ch_eqb c "{"%char then
            find_matching_brace_loop fuel' content (i + 1) (brace_count + 1)
          else if ch_eqb c "}"%char then
            if (brace_count - 1 =? 0)%Z then Some (Brace i)
            else find_matching_brace_loop fuel' content (i + 1) (brace_count - 1)
          else if ch_eqb c quote then
            find_matching_brace_loop fuel' content
              (skip_string rest (i + 1) + 1) brace_count
          else if startswith (c :: rest) (lit "/*") then
            find_matching_brace_loop fuel' content
              (skip_block_comment (skipn 1 rest) (i + 2) + 1 + 1) brace_count
          else if startswith (c :: rest) (lit "//") then
            find_matching_brace_loop fuel' content
              (skip_line_comment (c :: rest) i + 1) brace_count
          else find_matching_brace_loop fuel' content (i + 1) brace_count
      end
  end.

Definition find_matching_brace (content : str) (start_pos : nat)
  : option brace_result :=
  find_matching_brace_loop (S (List.length content)) content start_pos 0.

(** [content[a:b]]. *)
Definition slice (content : str) (a b : nat) : str :=
  firstn (b - a) (skipn a content).

(** The [while True] loop of [extract_verus_blocks]; [None] when the fuel
    runs out before the loop ends. *)
Fixpoint extract_verus_blocks_loop (fuel : nat) (content : str) (start : nat)
    (blocks : list (str * Z)) : option (list (str * Z)) :=
  match fuel with
  | O => None
  | S fuel' =>
      match verus_search content start with
      | None => Some blocks
      | Some (m_start, m_end) =>
          let brace_start := m_end - 1 in
          match find_matching_brace content brace_start with
          | None => None
          | Some NoBrace => Some blocks
          | Some (Brace brace_end) =>
              let block_content := slice content m_start (brace_end + 1) in
              let block_start_line :=
                (Z.of_nat (count_newlines (firstn m_start content)) + 1)%Z in
              extract_verus_blocks_loop fuel' content (brace_end + 1)
                (blocks ++ [(block_content, block_start_line)])
          end
      end
  end.

Definition extract_verus_blocks (content : str) : option (list (str * Z)) :=
  extract_verus_blocks_loop (S (List.length content)) content 0 [].

Definition verus_keywords : list str :=
  [lit "spec"; lit "proof"; lit "exec"; lit "open"; lit "uninterp"].

(** [block_start_line + content_no_comments[:start].count('\n') + 1]. *)
Definition line_of (block_start_line : Z) (content_no_comments : str)
    (start : nat) : Z :=
  (block_start_line
   + Z.of_nat (count_newlines (firstn start content_no_comments)) + 1)%Z.

(** The first loop of [extract_functions_from_block], over the matches of
    [all_fn_pattern]. *)
Fixpoint general_functions (block_start_line : Z) (content_no_comments : str)
    (ms : list (nat * (option str * str))) : list (str * Z) :=
  match ms with
  | [] => []
  | (start, (g1, func_name)) :: ms' =>
      let keywords := match g1 with Some k => k | None => [] end in
      if negb (existsb (fun kw => contains kw keywords) verus_keywords)
      then (func_name, line_of block_start_line content_no_comments start)
           :: general_functions block_start_line content_no_comments ms'
      else general_functions block_start_line content_no_comments ms'
  end.

(** The second loop, over the matches of [const_fn_pattern]. *)
Definition const_functions (block_start_line : Z) (content_no_comments : str)
    (ms : list (nat * str)) : list (str * Z) :=
  map (fun m => (snd m, line_of block_start_line content_no_comments (fst m)))
      ms.

Definition extract_functions_from_block (block_content : str)
    (block_start_line : Z) : list (str * Z) :=
  let content_no_comments := remove_comments block_content in
  general_functions block_start_line content_no_comments
    (finditer all_fn_pattern content_no_comments)
  ++ const_functions block_start_line content_no_comments
       (finditer const_fn_pattern content_no_comments).

(** [analyze_file] on the text read from the file. *)
Definition analyze_file (content : str) : option (list (str * Z)) :=
  match extract_verus_blocks content with
  | Some blocks =>
      Some (flat_map (fun b => extract_functions_from_block (fst b) (snd b))
                     blocks)
  | None => None
  end.

End RustFunctionFinder.

(* ===================================================================== *)
(** ** [VerusAnalyzer.analyze_output] of [find_verus_functions_syn.py]

    The report is modelled with its status and its diagnostic lists; the
    function sets, which need the index built by the external parser, are
    left out. *)
(* ===================================================================== *)

Module VerusAnalyzer.

Inductive status :=
| success
| verification_failed
| compilation_failed.

Record report := mk_report {
  report_status : status;
  compilation_errors : list CompilationErrorParser.record;
  compilation_warnings : list CompilationErrorParser.record;
  verification_errors : list VerificationParser.failure
}.

(** The record appended when only the exit code tells of a failure. *)
Definition exit_code_error (exit_code : Z) : CompilationErrorParser.record :=
  CompilationErrorParser.mk_record
    (lit "Command failed with exit code " ++ str_of_int exit_code)
    None None None
    [lit "Process exited with code " ++ str_of_int exit_code].

(** The decision made from the parsed lists, the summary flag and the
    exit code. *)
Definition decide_status
    (parsed_errors parsed_warnings : list CompilationErrorParser.record)
    (verification_failures : list VerificationParser.failure)
    (has_verification_results : bool) (exit_code : option Z) : report :=
  let has_compilation_errors := 0 <? List.length parsed_errors in
  let has_verification_failures := 0 <? List.length verification_failures in
  let synthesize :=
    match exit_code with
    | Some n =>
        negb (n =? 0)%Z
        && (negb has_compilation_errors && negb has_verification_failures
            && negb has_verification_results)
    | None => false
    end in
  let compilation_errors :=
    if synthesize
    then parsed_errors ++ [exit_code_error (match exit_code with
                                            | Some n => n
                                            | None => 0%Z
                                            end)]
    else parsed_errors in
  let has_compilation_errors := has_compilation_errors || synthesize in
  let st :=
    if has_verification_results then
      if has_verification_failures then verification_failed else success
    else if has_compilation_errors then compilation_failed
    else success in
  mk_report st compilation_errors parsed_warnings verification_failures.

Definition analyze_output (output_content : str) (exit_code : option Z)
  : report :=
  let '(errs, warns) :=
    CompilationErrorParser.parse_compilation_output output_content in
  decide_status errs warns
    (VerificationParser.parse_verification_failures output_content)
    (CompilationErrorParser.has_verification_results output_content)
    exit_code.

End VerusAnalyzer.

(* ===================================================================== *)
(** ** [CompilationErrorParser] of [find_verus_functions.py]

    The earlier parser: no first pass, no summary rule, no command exit
    rule, and no exception for verification failures. *)
(* ===================================================================== *)

Module CompilationErrorParserRegex.
Import Re.
Import CompilationErrorParser.

Definition error_continuation (l : str) : bool :=
  startswith l (lit "|") || startswith l (lit "^") || startswith l (lit "=")
  || startswith l (lit "Caused by:") || startswith l (lit "(signal:").

Definition continue_error (e : record) (l : str) : record :=
  let e1 := append_line e l in
  if startswith l (lit "Caused by:") then add_message e1 (lit " - " ++ l)
  else if contains (lit "(signal:") l then add_message e1 (lit " - " ++ l)
  else e1.

(** The last [if]/[elif] chain of the loop body. *)
Definition continuation (st : state) (l : str) : state :=
  match current_error st with
  | Some e =>
      if error_continuation l
      then mk_state (errors st) (warnings st) (Some (continue_error e l))
                    (current_warning st)
      else
        match current_warning st with
        | Some w =>
            if warning_continuation l
            then mk_state (errors st) (warnings st) (current_error st)
                          (Some (append_line w l))
            else if str_eqb l []
            then mk_state
                   (if 0 <? List.length (full_message e)
                    then errors st ++ [e] else errors st)
                   (if 0 <? List.length (full_message w)
                    then warnings st ++ [w] else warnings st)
                   (if 0 <? List.length (full_message e)
                    then None else Some e)
                   (if 0 <? List.length (full_message w)
                    then None else Some w)
            else st
        | None =>
            if str_eqb l []
            then mk_state
                   (if 0 <? List.length (full_message e)
                    then errors st ++ [e] else errors st)
                   (warnings st)
                   (if 0 <? List.length (full_message e)
                    then None else Some e)
                   None
            else st
        end
  | None =>
      match current_warning st with
      | Some w =>
          if warning_continuation l
          then mk_state (errors st) (warnings st) None (Some (append_line w l))
          else if str_eqb l []
          then mk_state (errors st)
                 (if 0 <? List.length (full_message w)
                  then warnings st ++ [w] else warnings st)
                 None
                 (if 0 <? List.length (full_message w)
                  then None else Some w)
          else st
      | None => st
      end
  end.

(** One iteration of the loop on the raw line [raw]. *)
Definition step (st : state) (raw : str) : state :=
  let l := strip raw in
  match search cargo_error_pattern l with
  | Some crate =>
      mk_state (flush (errors st) (current_error st)) (warnings st)
        (Some (new_record (lit "Compilation failed for crate: " ++ crate) l))
        (current_warning st)
  | None =>
  if matches memory_error_pattern l then
    match current_error st with
    | Some e =>
        mk_state (errors st) (warnings st)
          (Some (add_message (append_line e l) (lit " - " ++ l)))
          (current_warning st)
    | None =>
        mk_state (errors st ++ [new_record l l]) (warnings st) None
          (current_warning st)
    end
  else
  match search process_error_pattern l with
  | Some _ =>
      match current_error st with
      | Some e =>
          mk_state (errors st) (warnings st) (Some (append_line e l))
            (current_warning st)
      | None =>
          mk_state (errors st) (warnings st)
            (Some (new_record (lit "Process execution failed") l))
            (current_warning st)
      end
  | None =>
  match search error_pattern l with
  | Some g =>
      mk_state (flush (errors st) (current_error st)) (warnings st)
        (Some (new_record (strip g) l)) (current_warning st)
  | None =>
  match search warning_pattern l with
  | Some g =>
      mk_state (errors st) (flush (warnings st) (current_warning st))
        (current_error st) (Some (new_record (strip g) l))
  | None =>
  match search file_location_pattern l with
  | Some (file_path, g2, g3) =>
      let line_num := digits_value g2 in
      let col := digits_value g3 in
      match current_error st with
      | Some e =>
          mk_state (errors st) (warnings st)
            (Some (append_line (set_location e file_path line_num col) l))
            (current_warning st)
      | None =>
          match current_warning st with
          | Some w =>
              mk_state (errors st) (warnings st) None
                (Some (append_line (set_location w file_path line_num col) l))
          | None => st
          end
      end
  | None => continuation st l
  end end end end end.

Definition run (st : state) (ls : list str) : state := fold_left step ls st.

Definition parse_lines (ls : list str) : list record * list record :=
  finish (run init ls).

Definition parse_compilation_output (output_content : str)
  : list record * list record :=
  parse_lines (lines output_content).

End CompilationErrorParserRegex.

(* ===================================================================== *)
(** ** [VerificationParser.parse_verification_output]: errors by file

    The dictionary [errors_by_file] is modelled with its keys in insertion
    order.  Reading the file is outside the model: the text read is an
    argument, [None] standing for the three exceptions the method catches. *)
(* ===================================================================== *)

Module VerificationOutput.
Import Re.

Definition errors_by_file := list (str * list Z).

(** [if file_path not in d: d[file_path] = []], then
    [d[file_path].append(line_number)]. *)
Fixpoint record_error (file_path : str) (line_number : Z) (d : errors_by_file)
  : errors_by_file :=
  match d with
  | [] => [(file_path, [line_number])]
  | (k, v) :: d' =>
      if str_eqb k file_path then (k, v ++ [line_number]) :: d'
      else (k, v) :: record_error file_path line_number d'
  end.

(** *** [find_verus_functions.py] *)

(** The loop body on one line of the text. *)
Definition regex_step (d : errors_by_file) (line : str) : errors_by_file :=
  match search VerificationParser.error_pattern line with
  | Some (g1, g2) => record_error g1 (digits_value g2) d
  | None => d
  end.

Definition parse_verification_output_regex (file_text : option str)
  : errors_by_file :=
  match file_text with
  | Some content => fold_left regex_step (lines content) []
  | None => []
  end.

(** *** [find_verus_functions_syn.py] *)

Definition mentions_timing (l : str) : bool :=
  contains (lit "has been running for") l || contains (lit "finished in") l
  || contains (lit "check has been running") l
  || contains (lit "check finished in") l.

(** The loop over [j], on the lines [lines[max(0, i - 10):i]]: the value of
    [is_actual_error] when the loop ends. *)
Fixpoint is_actual_error (window : list str) : bool :=
  match window with
  | [] => false
  | raw :: window' =>
      let prev_line := strip raw in
      if (startswith prev_line (lit "error:")
          || startswith prev_line (lit "error["))
         && negb (startswith prev_line (lit "note:")
                  || mentions_timing prev_line)
      then true
      else if startswith prev_line (lit "note:") && mentions_timing prev_line
      then false
      else is_actual_error window'
  end.

(** [lines[max(0, i - 10):i]]. *)
Definition lookback (all_lines : list str) (i : nat) : list str :=
  firstn (i - (i - 10)) (skipn (i - 10) all_lines).

(** The loop over [i], [rest] being [lines[i:]]. *)
Fixpoint from_content_loop (all_lines : list str) (i : nat) (rest : list str)
    (d : errors_by_file) : errors_by_file :=
  match rest with
  | [] => d
  | line :: rest' =>
      from_content_loop all_lines (S i) rest'
        (match search VerificationParser.error_pattern line with
         | Some (g1, g2) =>
             if is_actual_error (lookback all_lines i)
             then record_error g1 (digits_value g2) d
             else d
         | None => d
         end)
  end.

Definition parse_verification_output_from_content (output_content : str)
  : errors_by_file :=
  from_content_loop (lines output_content) 0 (lines output_content) [].

Definition parse_verification_output (file_text : option str)
  : errors_by_file :=
  match file_text with
  | Some content => parse_verification_output_from_content content
  | None => []
  end.

End VerificationOutput.

(* ===================================================================== *)
(** ** Sets of names

    A Python [set] of strings, kept as the list of its elements in the order
    of their first insertion; [sorted] is what the code returns of it. *)
(* ===================================================================== *)

Module NameSet.

Definition name_set := list str.

(** [x in s]. *)
Definition mem (x : str) (s : name_set) : bool := existsb (str_eqb x) s.

(** [s.add(x)]. *)
Definition add (x : str) (s : name_set) : name_set :=
  if mem x s then s else s ++ [x].

(** [s.discard(x)]. *)
Definition discard (x : str) (s : name_set) : name_set :=
  filter (fun y => negb (str_eqb y x)) s.

(** [a <= b] on strings: by code points, a prefix first. *)
Fixpoint str_leb (a b : str) : bool :=
  match a, b with
  | [], _ => true
  | _ :: _, [] => false
  | x :: a', y :: b' =>
      if code x <? code y then true
      else if code y <? code x then false
      else str_leb a' b'
  end.

Fixpoint insert_sorted (x : str) (l : list str) : list str :=
  match l with
  | [] => [x]
  | y :: l' => if str_leb x y then x :: l else y :: insert_sorted x l'
  end.

(** [sorted(list(s))]. *)
Definition sorted (s : name_set) : list str := fold_right insert_sorted [] s.

End NameSet.

(* ===================================================================== *)
(** ** Verified and failed functions

    The catalog [all_functions_with_lines] is an argument: it comes from the
    files of the project, or from the external parser. *)
(* ===================================================================== *)

Module FunctionCategories.
Import NameSet.

(** [for file_path, functions in catalog.items():
       for func_name, line_number in functions: names.add(func_name)]. *)
Definition all_function_names (idx : VerificationParser.index) : name_set :=
  fold_left
    (fun names entry =>
       fold_left (fun names f => add (fst f) names) (snd entry) names)
    idx [].

(** The body of the loops that mark failures; [find] is the
    [find_function_at_line] of the script, and [if failed_func:] holds of a
    name that is not empty. *)
Definition mark (find : str -> Z -> VerificationParser.index -> option str)
    (idx : VerificationParser.index) (sets : name_set * name_set)
    (file_path : str) (error_line : Z) : name_set * name_set :=
  match find file_path error_line idx with
  | Some (c :: failed_func) =>
      (discard (c :: failed_func) (fst sets), add (c :: failed_func) (snd sets))
  | _ => sets
  end.

(** [for file_path, error_lines in errors_by_file.items():
       for error_line in error_lines: ...]; the sets are
    [(verified_functions, failed_functions)]. *)
Definition mark_errors (find : str -> Z -> VerificationParser.index -> option str)
    (idx : VerificationParser.index)
    (errors : VerificationOutput.errors_by_file)
    (sets : name_set * name_set) : name_set * name_set :=
  fold_left
    (fun sets entry =>
       fold_left (fun sets error_line => mark find idx sets (fst entry) error_line)
                 (snd entry) sets)
    errors sets.

(** [categorize_functions_by_verification] of [find_verus_functions.py], on
    the catalog of the path and the text read from the output file. *)
Definition categorize_functions_by_verification_regex
    (idx : VerificationParser.index) (file_text : option str)
  : list str * list str :=
  let sets :=
    mark_errors VerificationParser.find_function_at_line_regex idx
      (VerificationOutput.parse_verification_output_regex file_text)
      (all_function_names idx, []) in
  (sorted (fst sets), sorted (snd sets)).

(** The same method in [find_verus_functions_syn.py]. *)
Definition categorize_functions_by_verification
    (idx : VerificationParser.index) (file_text : option str)
  : list str * list str :=
  let sets :=
    mark_errors VerificationParser.find_function_at_line idx
      (VerificationOutput.parse_verification_output file_text)
      (all_function_names idx, []) in
  (sorted (fst sets), sorted (snd sets)).

End FunctionCategories.

(* ===================================================================== *)
(** ** [VerusAnalyzer.analyze_output] of [find_verus_functions.py]

    The catalog of the path and the text read from the output file (the
    given one, or the temporary copy of the output) are arguments. *)
(* ===================================================================== *)

Module VerusAnalyzerRegex.
Import NameSet.
Import FunctionCategories.

Record analysis := mk_analysis {
  status : VerusAnalyzer.status;
  total_functions : nat;
  verified_count : nat;
  failed_count : nat;
  compilation_errors : list CompilationErrorParser.record;
  compilation_warnings : list CompilationErrorParser.record;
  verified_functions : list str;
  failed_functions : list str;
  functions_by_file : VerificationParser.index
}.

Definition analyze_output (idx : VerificationParser.index)
    (output_content : str) (file_text : option str) (exit_code : option Z)
  : analysis :=
  let '(parsed_errors, parsed_warnings) :=
    CompilationErrorParserRegex.parse_compilation_output output_content in
  let all_names := all_function_names idx in
  let sets :=
    mark_errors VerificationParser.find_function_at_line_regex idx
      (VerificationOutput.parse_verification_output_regex file_text)
      (all_names, []) in
  let has_compilation_errors := 0 <? List.length parsed_errors in
  let has_verification_failures := 0 <? List.length (snd sets) in
  let synthesize :=
    match exit_code with
    | Some n => negb (n =? 0)%Z && negb has_compilation_errors
    | None => false
    end in
  let errors :=
    if synthesize
    then parsed_errors
         ++ [VerusAnalyzer.exit_code_error
               (match exit_code with Some n => n | None => 0%Z end)]
    else parsed_errors in
  let has_compilation_errors := has_compilation_errors || synthesize in
  let st :=
    if has_compilation_errors then VerusAnalyzer.compilation_failed
    else if has_verification_failures then VerusAnalyzer.verification_failed
    else VerusAnalyzer.success in
  let sets := if has_compilation_errors then ([], []) else sets in
  mk_analysis st (List.length all_names)
    (List.length (fst sets)) (List.length (snd sets))
    errors parsed_warnings (sorted (fst sets)) (sorted (snd sets)) idx.

End VerusAnalyzerRegex.

(* ===================================================================== *)
(** ** The function sets of [find_verus_functions_syn.py] *)
(* ===================================================================== *)

Module VerusAnalyzerSets.
Import NameSet.
Import FunctionCategories.

(** A filter that is given and not empty. *)
Definition given (f : option str) : bool :=
  match f with
  | Some (_ :: _) => true
  | _ => false
  end.

(** [module_filter.replace('::', '/')]. *)
Fixpoint replace_colons (s : str) : str :=
  match s with
  | [] => []
  | c :: s' =>
      match s' with
      | d :: s'' =>
          if ch_eqb c ":"%char && ch_eqb d ":"%char
          then "/"%char :: replace_colons s''
          else c :: replace_colons s'
      | [] => [c]
      end
  end.

(** The test on the path of a file for the module [module_filter]. *)
Definition in_module (module_filter file_path : str) : bool :=
  let module_path := replace_colons module_filter in
  contains (lit "/" ++ module_path ++ lit ".rs") file_path
  || contains (lit "/" ++ module_path ++ lit "/") file_path.

Definition file_passes (module_filter : option str) (file_path : str) : bool :=
  if given module_filter
  then in_module (match module_filter with Some m => m | None => [] end)
                 file_path
  else true.

Definition name_passes (function_filter : option str) (func_name : str)
  : bool :=
  if given function_filter
  then str_eqb func_name
         (match function_filter with Some f => f | None => [] end)
  else true.

Definition filter_functions_by_module_and_function
    (idx : VerificationParser.index) (functions_set : name_set)
    (module_filter function_filter : option str) : name_set :=
  if negb (given module_filter) && negb (given function_filter)
  then functions_set
  else
    fold_left
      (fun filtered entry =>
         if file_passes module_filter (fst entry)
         then fold_left
                (fun filtered f =>
                   if mem (fst f) functions_set
                      && name_passes function_filter (fst f)
                   then add (fst f) filtered
                   else filtered)
                (snd entry) filtered
         else filtered)
      idx [].

(** [for failure in verification_failures:
       if failure.get('file') and failure.get('line'): ...]. *)
Definition mark_failures (idx : VerificationParser.index)
    (failures : list VerificationParser.failure)
    (sets : name_set * name_set) : name_set * name_set :=
  fold_left
    (fun sets failure =>
       match VerificationParser.file failure, VerificationParser.line failure
       with
       | Some (c :: file_path), Some line_number =>
           if (line_number =? 0)%Z then sets
           else mark VerificationParser.find_function_at_line idx sets
                  (c :: file_path) line_number
       | _, _ => sets
       end)
    failures sets.

Record analysis := mk_analysis {
  report : VerusAnalyzer.report;
  total_functions : nat;
  verified_count : nat;
  failed_count : nat;
  verified_functions : list str;
  failed_functions : list str;
  functions_by_file : VerificationParser.index
}.

Definition analyze_output (idx : VerificationParser.index)
    (output_content : str) (file_text : option str) (exit_code : option Z)
    (module_filter function_filter : option str) : analysis :=
  let r := VerusAnalyzer.analyze_output output_content exit_code in
  let all_names := all_function_names idx in
  let sets :=
    mark_failures idx (VerusAnalyzer.verification_errors r)
      (mark_errors VerificationParser.find_function_at_line idx
         (VerificationOutput.parse_verification_output file_text)
         (all_names, [])) in
  let sets :=
    match VerusAnalyzer.report_status r with
    | VerusAnalyzer.compilation_failed => ([], [])
    | _ => sets
    end in
  let filtering := given module_filter || given function_filter in
  let pick (s : name_set) :=
    if filtering
    then filter_functions_by_module_and_function idx s module_filter
           function_filter
    else s in
  mk_analysis r (List.length (pick all_names))
    (List.length (pick (fst sets))) (List.length (pick (snd sets)))
    (sorted (pick (fst sets))) (sorted (pick (snd sets))) idx.

End VerusAnalyzerSets.

(* ===================================================================== *)
(** * Vocabulary of the statements *)
(* ===================================================================== *)

(** ** Correlator *)

(** What the loop state knows after the functions [seen]. *)
Definition closest_inv (line_number : Z) (seen : list (str * Z))
    (acc : option str * Z) : Prop :=
  (0 <= snd acc)%Z
  /\ (forall n l, In (n, l) seen -> (l <= line_number)%Z -> (l <= snd acc)%Z)
  /\ match fst acc with
     | Some name =>
         In (name, snd acc) seen /\ (snd acc <= line_number)%Z
     | None => snd acc = 0%Z
     end.

(** The result [r] names a function of [funcs] whose line is the greatest
    one at or before [line_number], or is [None] when there is none. *)
Definition greatest_at_or_before (funcs : list (str * Z)) (line_number : Z)
    (r : option str) : Prop :=
  match r with
  | Some name =>
      exists l, In (name, l) funcs /\ (l <= line_number)%Z
                /\ forall n' l', In (n', l') funcs -> (l' <= line_number)%Z ->
                                 (l' <= l)%Z
  | None => forall n' l', In (n', l') funcs -> (line_number < l')%Z
  end.

(** Lines of the index are 1-based. *)
Definition one_based (idx : VerificationParser.index) : Prop :=
  forall key funcs n l, In (key, funcs) idx -> In (n, l) funcs -> (1 <= l)%Z.

Definition example_index : VerificationParser.index :=
  [ (lit "src/lib.rs", [ (lit "first", 10%Z); (lit "second", 50%Z);
                         (lit "third", 120%Z) ]) ].

(** No rule relates the diagnostic path to the key. *)
Definition unrelated (fp : str) (entry : str * list (str * Z)) : Prop :=
  VerificationParser.key_matches fp (fst entry) = false.

Definition shadowing_index : VerificationParser.index :=
  [ (lit "other/lib.rs", [ (lit "g", 1%Z) ]);
    (lit "src/lib.rs", [ (lit "f", 1%Z) ]) ].

(** ** Diagnostic parser *)

(** The stripped line [l] passes the rules tried before the generic error
    rule: summary, crate failure, memory allocation, command exit code and
    process exit. *)
Definition reaches_error_rule (l : str) : Prop :=
  CompilationErrorParser.matches Re.verification_results_pattern l = false
  /\ Re.search Re.cargo_error_pattern l = None
  /\ CompilationErrorParser.matches Re.memory_error_pattern l = false
  /\ Re.search Re.verus_command_exit_pattern l = None
  /\ Re.search Re.process_error_pattern l = None.

Definition opt_holds {A : Type} (P : A -> Prop) (o : option A) : Prop :=
  match o with Some a => P a | None => True end.

(** Every record of the state, closed or open, has raw lines in [Q]. *)
Definition all_records (Q : list str -> Prop) (st : CompilationErrorParser.state)
  : Prop :=
  Forall (fun r => Q (CompilationErrorParser.full_message r))
         (CompilationErrorParser.errors st)
  /\ Forall (fun r => Q (CompilationErrorParser.full_message r))
            (CompilationErrorParser.warnings st)
  /\ opt_holds (fun r => Q (CompilationErrorParser.full_message r))
               (CompilationErrorParser.current_error st)
  /\ opt_holds (fun r => Q (CompilationErrorParser.full_message r))
               (CompilationErrorParser.current_warning st).

(** The state [st] with [es] and [ws] in front of its closed records. *)
Definition shift (es ws : list CompilationErrorParser.record)
    (st : CompilationErrorParser.state) : CompilationErrorParser.state :=
  CompilationErrorParser.mk_state
    (es ++ CompilationErrorParser.errors st)
    (ws ++ CompilationErrorParser.warnings st)
    (CompilationErrorParser.current_error st)
    (CompilationErrorParser.current_warning st).

Definition has_lines (fm : list str) : Prop := fm <> [].


(** The text of two streams with a blank line between them. *)
Definition blank_joined (s1 s2 : str) : str := s1 ++ newline :: newline :: s2.


(** [l1] is [l2] with some elements left out, the order kept. *)
Inductive Subseq {A : Type} : list A -> list A -> Prop :=
| Subseq_nil : Subseq [] []
| Subseq_skip : forall l1 l2 x, Subseq l1 l2 -> Subseq l1 (x :: l2)
| Subseq_cons : forall l1 l2 x, Subseq l1 l2 -> Subseq (x :: l1) (x :: l2).

(** A line of the capture window as it is stored. *)
Definition clean_line (t : str) : str := Re.strip_ansi (rstrip t).

(** ** Block extractor and function scanner *)

Definition unclosed_then_closed : str :=
  lit "verus! { fn a() {  verus! { fn b() {} }".

(** Lists of functions in non-decreasing line order. *)
Definition by_line (fs : list (str * Z)) : Prop :=
  StronglySorted (fun a b => (snd a <= snd b)%Z) fs.

Definition const_before_plain : str :=
  lit "verus! {" ++ newline :: lit "const fn a() {}"
  ++ newline :: lit "fn b() {}" ++ newline :: lit "}".

Definition spec_const_block : str :=
  lit "verus! { pub spec const fn secret(x: int) -> int { x } }".

(** The repetition of [f] cannot go on into [y]. *)
Definition stops (f : ascii -> bool) (y : str) : Prop :=
  match y with
  | [] => True
  | c :: _ => f c = false
  end.

(** A non-empty run of whitespace. *)
Definition spaces (w : str) : Prop := w <> [] /\ forallb is_space w = true.

(** A name as the patterns read it. *)
Definition identifier (name : str) : Prop :=
  match name with
  | c :: cs => is_ident_start c = true /\ forallb is_ident_char cs = true
  | [] => False
  end.

(** Nothing, or [pub] and whitespace. *)
Definition visibility (vis : str) : Prop :=
  vis = [] \/ exists w, spaces w /\ vis = lit "pub" ++ w.

(** The text of a constant function definition up to its parameter list. *)
Definition const_fn_text (vis w1 w2 name w3 : str) : str :=
  vis ++ lit "const" ++ w1 ++ lit "fn" ++ w2 ++ name ++ w3 ++ lit "(".

(** No match of [m] that starts inside [pre] goes on into [rest]. *)
Definition no_crossing {A : Type} (m : str -> option (nat * A))
    (pre rest : str) : Prop :=
  forall a b n g,
    pre = a ++ b -> b <> [] -> m (b ++ rest) = Some (n, g) ->
    n <= List.length b.

(** The words the two patterns read before the name. *)
Definition modifier_words : list str :=
  [lit "pub"; lit "spec"; lit "proof"; lit "exec"; lit "open"; lit "uninterp";
   lit "const"].

Definition pattern_words : list str := lit "fn" :: modifier_words.

(** The text starts like a constant function definition: [pub] or [const],
    whitespace, and a letter. *)
Definition def_start (R : str) : Prop :=
  exists W sp ws h X,
    R = W ++ sp :: ws ++ h :: X
    /\ (W = lit "pub" \/ W = lit "const")
    /\ is_space sp = true
    /\ forallb is_space ws = true
    /\ is_ident_start h = true.

(** [b] ends with a modifier word and whitespace. *)
Definition ends_with_modifier (b : str) : Prop :=
  exists b' kw w, In kw modifier_words /\ spaces w /\ b = b' ++ kw ++ w.

Definition no_space (x : str) : Prop :=
  forallb (fun c => negb (is_space c)) x = true.

(** The text before the definition does not end, whitespace apart, with a
    modifier word. *)
Definition no_modifier_before (pre : str) : Prop :=
  forall kw, In kw modifier_words -> endswith (rstrip pre) kw = false.

Definition const_fn_block : str :=
  lit "verus! {" ++ newline :: lit "    pub const fn limit() -> u8 { 1 }"
  ++ newline :: lit "}".

(** ** Vocabulary of the further properties *)

(** Braces opened minus braces closed in [s]. *)
Fixpoint brace_balance (s : str) : Z :=
  match s with
  | [] => 0%Z
  | c :: s' =>
      ((if ch_eqb c "{"%char then 1
        else if ch_eqb c "}"%char then -1 else 0)
       + brace_balance s')%Z
  end.

(** Text without string literals and comments: no double quote and no
    slash. *)
Definition plain_code (s : str) : Prop :=
  forallb (fun c => negb (ch_eqb c RustFunctionFinder.quote)
                    && negb (ch_eqb c "/"%char)) s = true.

(** The blocks [bs] are pieces of [s] that follow one another without
    overlap, [before] being the text in front of [s]; the line of a block
    is one more than the number of newlines in front of it. *)
Fixpoint laid_out (before s : str) (bs : list (str * Z)) : Prop :=
  match bs with
  | [] => True
  | (b, l) :: bs' =>
      exists gap rest,
        s = gap ++ b ++ rest
        /\ l = (Z.of_nat (count_newlines (before ++ gap)) + 1)%Z
        /\ laid_out (before ++ gap ++ b) rest bs'
  end.

(** Every record of the state, closed or open, satisfies [P]. *)
Definition every_record (P : CompilationErrorParser.record -> Prop)
    (st : CompilationErrorParser.state) : Prop :=
  Forall P (CompilationErrorParser.errors st)
  /\ Forall P (CompilationErrorParser.warnings st)
  /\ opt_holds P (CompilationErrorParser.current_error st)
  /\ opt_holds P (CompilationErrorParser.current_warning st).

(** A record has raw lines, and either no location at all or a non-empty
    file with a line and a column that are not negative. *)
Definition well_located (r : CompilationErrorParser.record) : Prop :=
  CompilationErrorParser.full_message r <> []
  /\ ((CompilationErrorParser.file r = None
       /\ CompilationErrorParser.line r = None
       /\ CompilationErrorParser.column r = None)
      \/ exists f l c,
           CompilationErrorParser.file r = Some f
           /\ CompilationErrorParser.line r = Some l
           /\ CompilationErrorParser.column r = Some c
           /\ f <> [] /\ (0 <= l)%Z /\ (0 <= c)%Z).

(** The texts one of which a line must hold to open a record. *)
Definition record_openers : list str :=
  [ lit "error"; lit "warning: "; lit "memory allocation of ";
    lit "process didn't exit successfully: ";
    lit "Verus command completed with exit code: " ].

(** Records in the state, closed or open. *)
Definition record_count (st : CompilationErrorParser.state) : nat :=
  List.length (CompilationErrorParser.errors st)
  + List.length (CompilationErrorParser.warnings st)
  + (match CompilationErrorParser.current_error st with
     | Some _ => 1 | None => 0 end)
  + (match CompilationErrorParser.current_warning st with
     | Some _ => 1 | None => 0 end).

(** The test that makes a line of the output a verification failure: the
    trimmed line holds one of the phrases, and the word [error] in any
    case. *)
Definition failure_detected (raw : str) : bool :=
  existsb (fun p => contains p (strip raw))
          VerificationParser.verification_error_types
  && contains (lit "error") (lower (strip raw)).

(** What the capture loop knows of the location: nothing before a location
    line is met, a file and a line that is not negative afterwards. *)
Definition capture_located (c : VerificationParser.capture) : Prop :=
  match VerificationParser.location_found_at c with
  | None =>
      VerificationParser.file_path c = None
      /\ VerificationParser.line_number c = None
      /\ VerificationParser.col c = None
  | Some _ =>
      VerificationParser.file_path c <> None
      /\ exists l, VerificationParser.line_number c = Some l /\ (0 <= l)%Z
  end.

(** In [find_verus_functions.py], the lines that open an error record or
    add to the open one: a crate failure, an error, a memory allocation
    failure or a process failure. *)
Definition opens_error_regex (raw : str) : bool :=
  CompilationErrorParser.matches Re.cargo_error_pattern (strip raw)
  || CompilationErrorParser.matches Re.error_pattern (strip raw)
  || CompilationErrorParser.matches Re.memory_error_pattern (strip raw)
  || CompilationErrorParser.matches Re.process_error_pattern (strip raw).

(** An error record is closed or open. *)
Definition some_error (st : CompilationErrorParser.state) : Prop :=
  CompilationErrorParser.errors st <> []
  \/ CompilationErrorParser.current_error st <> None.

(** ** Errors by file *)

(** [d.get(file, [])]. *)
Fixpoint lines_of (file : str) (d : VerificationOutput.errors_by_file)
  : list Z :=
  match d with
  | [] => []
  | (k, v) :: d' => if str_eqb k file then v else lines_of file d'
  end.

(** The file and line that a line of the output points to. *)
Definition location_of (line : str) : list (str * Z) :=
  match Re.search VerificationParser.error_pattern line with
  | Some (g1, g2) => [(g1, digits_value g2)]
  | None => []
  end.

(** The locations on the lines [ls], in the order of the lines. *)
Definition locations (ls : list str) : list (str * Z) :=
  flat_map location_of ls.

(** The locations on the lines [rest = all_lines[i:]] that follow an error
    header closely enough. *)
Fixpoint accepted_locations (all_lines : list str) (i : nat) (rest : list str)
  : list (str * Z) :=
  match rest with
  | [] => []
  | line :: rest' =>
      (if VerificationOutput.is_actual_error
            (VerificationOutput.lookback all_lines i)
       then location_of line else [])
      ++ accepted_locations all_lines (S i) rest'
  end.

(** The lines of the locations that name [file]. *)
Definition lines_naming (file : str) (locs : list (str * Z)) : list Z :=
  map snd (filter (fun p => str_eqb (fst p) file) locs).

(** A dictionary: no key twice, and no key without a line. *)
Definition well_keyed (d : VerificationOutput.errors_by_file) : Prop :=
  NoDup (map fst d) /\ Forall (fun e => snd e <> []) d.

(** A trimmed line that starts like an error header. *)
Definition error_header (raw : str) : bool :=
  startswith (strip raw) (lit "error:") || startswith (strip raw) (lit "error[").

(** ** Sets of names *)

(** [x] is a function name of the catalog. *)
Definition catalog_name (idx : VerificationParser.index) (x : str) : Prop :=
  exists key funcs l, In (key, funcs) idx /\ In (x, l) funcs.

(** A list of names in strictly increasing order. *)
Definition increasing (l : list str) : Prop :=
  StronglySorted (fun a b => NameSet.str_leb a b = true /\ a <> b) l.

(** The two sets split the names of the catalog: no name is in both, and
    the names of the catalog are those of the one or the other. *)
Definition splits (idx : VerificationParser.index) (verified failed : list str)
  : Prop :=
  (forall x, In x verified -> ~ In x failed)
  /\ (forall x, catalog_name idx x <-> In x verified \/ In x failed).

(** The invariant of the marking loops. *)
Definition split_sets (idx : VerificationParser.index)
    (sets : NameSet.name_set * NameSet.name_set) : Prop :=
  NoDup (fst sets) /\ NoDup (snd sets) /\ splits idx (fst sets) (snd sets).

(** The finder only returns names of the catalog. *)
Definition finds_catalog_names
    (find : str -> Z -> VerificationParser.index -> option str)
    (idx : VerificationParser.index) : Prop :=
  forall fp l name, find fp l idx = Some name -> catalog_name idx name.

(** An exit code is given and is not zero. *)
Definition nonzero (exit_code : option Z) : Prop :=
  exists n, exit_code = Some n /\ n <> 0%Z.

(** The name [x] belongs to a file of the catalog that passes the module
    filter, and passes the function filter. *)
Definition admitted (idx : VerificationParser.index)
    (module_filter function_filter : option str) (x : str) : Prop :=
  VerusAnalyzerSets.name_passes function_filter x = true
  /\ exists key funcs l,
       In (key, funcs) idx
       /\ VerusAnalyzerSets.file_passes module_filter key = true
       /\ In (x, l) funcs.

(** The line, counted from 1, of the position [pos] of a text. *)
Definition line_at (content : str) (pos : nat) : Z :=
  (Z.of_nat (count_newlines (firstn pos content)) + 1)%Z.

(** One of the two patterns of [extract_functions_from_block] matches at the
    head of [t] with the name [name]. *)
Definition definition_of (name t : str) : Prop :=
  (exists n g, RustFunctionFinder.all_fn_pattern t = Some (n, (g, name)))
  \/ (exists n, RustFunctionFinder.const_fn_pattern t = Some (n, name)).

(** Text without slash, and text without newline. *)
Definition slash_free (s : str) : Prop :=
  forallb (Re.not_char "/"%char) s = true.

Definition one_line (s : str) : Prop := forallb Re.dot s = true.

(** ** Blocks found before the scan ends *)

(** From the position [start] on, the scan finds the closed blocks [bs] one
    after the other and then stands at the position [stop]. *)
Fixpoint closed_run (content : str) (start : nat) (bs : list (str * Z))
    (stop : nat) : Prop :=
  match bs with
  | [] => start = stop
  | (b, l) :: bs' =>
      exists m_start m_end brace_end,
        RustFunctionFinder.verus_search content start = Some (m_start, m_end)
        /\ RustFunctionFinder.find_matching_brace content (m_end - 1)
           = Some (RustFunctionFinder.Brace brace_end)
        /\ b = RustFunctionFinder.slice content m_start (brace_end + 1)
        /\ l = (Z.of_nat (count_newlines (firstn m_start content)) + 1)%Z
        /\ closed_run content (brace_end + 1) bs' stop
  end.

Definition closed_then_unclosed : str :=
  lit "verus! { fn a() {} }" ++ newline
  :: lit "verus! { fn b() {  verus! { fn c() {} }".

(** ** Order of the records of a file *)

(** The records that the scanner lists for a block. *)
Definition block_entries (b : str * Z) : list (str * Z) :=
  RustFunctionFinder.extract_functions_from_block (fst b) (snd b).

(** Every record of [g1] has a line at or before that of every record of
    [g2]. *)
Definition at_or_before (g1 g2 : list (str * Z)) : Prop :=
  forall f1 f2, In f1 g1 -> In f2 g2 -> (snd f1 <= snd f2)%Z.

(** The records of a block are the run of the general pattern followed by
    the run of the constant pattern, each in line order. *)
Definition two_runs (b : str * Z) : Prop :=
  let s := RustFunctionFinder.remove_comments (fst b) in
  let general :=
    RustFunctionFinder.general_functions (snd b) s
      (Re.finditer RustFunctionFinder.all_fn_pattern s) in
  let const :=
    RustFunctionFinder.const_functions (snd b) s
      (Re.finditer RustFunctionFinder.const_fn_pattern s) in
  block_entries b = general ++ const /\ by_line general /\ by_line const.

(** ** Lines kept by the records *)

(** The raw lines held by the records of the parser: those of the closed
    errors and warnings, and those of the record of each kind that is still
    open. *)
Record stored := mk_stored {
  closed_errors : list (list str);
  closed_warnings : list (list str);
  open_error : option (list str);
  open_warning : option (list str)
}.

Definition stored_lines (st : CompilationErrorParser.state) : stored :=
  mk_stored
    (map CompilationErrorParser.full_message (CompilationErrorParser.errors st))
    (map CompilationErrorParser.full_message
         (CompilationErrorParser.warnings st))
    (option_map CompilationErrorParser.full_message
                (CompilationErrorParser.current_error st))
    (option_map CompilationErrorParser.full_message
                (CompilationErrorParser.current_warning st)).

(** The kind of a trimmed line: the first of the parser's rules that fits
    it. *)
Inductive line_kind :=
| k_summary | k_crate | k_memory | k_command_exit | k_process
| k_verification | k_error | k_warning | k_location | k_other.

Definition kind_of (l : str) : line_kind :=
  if CompilationErrorParser.matches Re.verification_results_pattern l
  then k_summary
  else if CompilationErrorParser.matches Re.cargo_error_pattern l then k_crate
  else if CompilationErrorParser.matches Re.memory_error_pattern l
  then k_memory
  else if CompilationErrorParser.matches Re.verus_command_exit_pattern l
  then k_command_exit
  else if CompilationErrorParser.matches Re.process_error_pattern l
  then k_process
  else if CompilationErrorParser.matches Re.error_pattern l
  then (if CompilationErrorParser.is_verification_error l
        then k_verification else k_error)
  else if CompilationErrorParser.matches Re.warning_pattern l then k_warning
  else if CompilationErrorParser.matches Re.file_location_pattern l
  then k_location
  else k_other.

Definition close_lines (closed : list (list str)) (o : option (list str))
  : list (list str) :=
  match o with
  | Some fm => closed ++ [fm]
  | None => closed
  end.

Definition is_open (o : option (list str)) : bool :=
  match o with Some _ => true | None => false end.

(** What a line of the input does to the lines held: it opens a record
    with itself as first line, is added to the open record, closes the open
    records, or is left out. *)
Definition keep_line (flag : bool) (s : stored) (raw : str) : stored :=
  let l := strip raw in
  let to_error :=
    mk_stored (closed_errors s) (closed_warnings s)
      (option_map (fun fm => fm ++ [l]) (open_error s)) (open_warning s) in
  let to_warning :=
    mk_stored (closed_errors s) (closed_warnings s) (open_error s)
      (option_map (fun fm => fm ++ [l]) (open_warning s)) in
  let new_error :=
    mk_stored (close_lines (closed_errors s) (open_error s))
      (closed_warnings s) (Some [l]) (open_warning s) in
  let error_or_new :=
    if is_open (open_error s) then to_error
    else mk_stored (closed_errors s) (closed_warnings s) (Some [l])
           (open_warning s) in
  match kind_of l with
  | k_summary => s
  | k_verification => s
  | k_crate => if flag then s else new_error
  | k_error => new_error
  | k_memory =>
      if is_open (open_error s) then to_error
      else mk_stored (closed_errors s ++ [[l]]) (closed_warnings s) None
             (open_warning s)
  | k_command_exit => error_or_new
  | k_process => error_or_new
  | k_warning =>
      mk_stored (closed_errors s)
        (close_lines (closed_warnings s) (open_warning s))
        (open_error s) (Some [l])
  | k_location =>
      if is_open (open_error s) then to_error
      else if is_open (open_warning s) then to_warning
      else s
  | k_other =>
      if is_open (open_error s) && CompilationErrorParser.error_continuation l
      then to_error
      else if is_open (open_warning s)
              && CompilationErrorParser.warning_continuation l
      then to_warning
      else if str_eqb l []
      then mk_stored (close_lines (closed_errors s) (open_error s))
             (close_lines (closed_warnings s) (open_warning s)) None None
      else s
  end.

(** The lines of the error records and of the warning records for the
    lines [ls] of an input. *)
Definition kept_lines (flag : bool) (ls : list str)
  : list (list str) * list (list str) :=
  let s := fold_left (keep_line flag) ls (mk_stored [] [] None None) in
  (close_lines (closed_errors s) (open_error s),
   close_lines (closed_warnings s) (open_warning s)).

(** The window of [n] lines from the line [i] ends on a blank line that is
    followed by the start of a new section, a location line standing in the
    window at least two lines before the blank one. *)
Definition window_closed (ls : list str) (i n : nat) : Prop :=
  exists a located blank next,
    i <= a /\ a + 1 < i + n - 1
    /\ nth_error ls a = Some located
    /\ Re.search VerificationParser.error_pattern located <> None
    /\ nth_error ls (i + n - 1) = Some blank
    /\ strip blank = []
    /\ nth_error ls (i + n) = Some next
    /\ VerificationParser.starts_new_section (strip next) = true.

Definition diagnostic_text : str :=
  lit "error: unknown start" ++ newline
  :: lit "  --> src/lib.rs:4:9" ++ newline
  :: lit "   |" ++ newline
  :: lit "" ++ newline
  :: lit "error: assertion failed" ++ newline
  :: lit "  --> src/lib.rs:7:5".

(* ===================================================================== *)
(** * Properties *)
(* ===================================================================== *)

(** ** Basic facts on text *)

Lemma ch_eqb_eq (a b : ascii) : ch_eqb a b = true <-> a = b.
Proof. unfold ch_eqb. apply Ascii.eqb_eq. Qed.

Lemma ch_eqb_refl (a : ascii) : ch_eqb a a = true.
Proof. apply ch_eqb_eq. reflexivity. Qed.

Lemma str_eqb_eq (a b : str) : str_eqb a b = true <-> a = b.
Proof.
  revert b. induction a as [|x a IH]; intros [|y b]; simpl; split;
    try congruence; try reflexivity.
  - intros H. apply andb_true_iff in H as [Hx Ha].
    apply ch_eqb_eq in Hx. apply IH in Ha. congruence.
  - intros H. injection H as -> ->. rewrite ch_eqb_refl. simpl.
    apply IH. reflexivity.
Qed.

Lemma str_eqb_refl (a : str) : str_eqb a a = true.
Proof. apply str_eqb_eq. reflexivity. Qed.

Lemma drop_prefix_app (p s : str) : drop_prefix p (p ++ s) = Some s.
Proof.
  induction p as [|x p IH]; simpl; [reflexivity|].
  rewrite ch_eqb_refl. exact IH.
Qed.

Lemma drop_prefix_Some (p s r : str) : drop_prefix p s = Some r -> s = p ++ r.
Proof.
  revert s. induction p as [|x p IH]; intros s H; simpl in *.
  - congruence.
  - destruct s as [|y s]; [discriminate|].
    destruct (ch_eqb x y) eqn:E; [|discriminate].
    apply ch_eqb_eq in E. subst y. f_equal. apply IH. exact H.
Qed.

Lemma contains_eq (p s : str) :
  contains p s
  = startswith s p || match s with [] => false | _ :: s' => contains p s' end.
Proof. destruct s; reflexivity. Qed.

Lemma contains_app (p a b : str) : contains p (a ++ p ++ b) = true.
Proof.
  induction a as [|x a IH].
  - rewrite contains_eq. unfold startswith. simpl app.
    rewrite drop_prefix_app. reflexivity.
  - change ((x :: a) ++ p ++ b) with (x :: (a ++ p ++ b)).
    rewrite contains_eq, IH. apply orb_true_r.
Qed.

Lemma split_on_not_nil (sep : ascii) (s : str) : split_on sep s <> [].
Proof.
  destruct s as [|c s]; simpl; [discriminate|].
  destruct (ch_eqb c sep); [discriminate|].
  destruct (split_on sep s); discriminate.
Qed.

Lemma split_on_app_sep (sep : ascii) (a b : str) :
  split_on sep (a ++ sep :: b) = split_on sep a ++ split_on sep b.
Proof.
  induction a as [|c a IH]; simpl.
  - rewrite ch_eqb_refl. reflexivity.
  - destruct (ch_eqb c sep); [rewrite IH; reflexivity|].
    rewrite IH. pose proof (split_on_not_nil sep a) as Hne.
    destruct (split_on sep a) as [|h t]; [contradiction|]. reflexivity.
Qed.

(** ** The correlator *)

Lemma closest_step_inv line_number seen acc f :
  closest_inv line_number seen acc ->
  closest_inv line_number (seen ++ [f])
    (VerificationParser.closest_step line_number acc f).
Proof.
  intros (Hpos & Hmax & Hsel). destruct f as [fname fl].
  unfold VerificationParser.closest_step.
  destruct ((fl <=? line_number)%Z && (snd acc <? fl)%Z) eqn:E.
  - apply andb_true_iff in E as [E1 E2].
    apply Z.leb_le in E1. apply Z.ltb_lt in E2.
    repeat split; simpl.
    + lia.
    + intros n l Hin Hl. apply in_app_or in Hin as [Hin|[Heq|[]]].
      * specialize (Hmax n l Hin Hl). lia.
      * injection Heq as <- <-. lia.
    + apply in_or_app. right. left. reflexivity.
    + exact E1.
  - repeat split.
    + exact Hpos.
    + intros n l Hin Hl. apply in_app_or in Hin as [Hin|[Heq|[]]].
      * exact (Hmax n l Hin Hl).
      * injection Heq as <- <-.
        apply andb_false_iff in E as [E|E].
        -- apply Z.leb_gt in E. lia.
        -- apply Z.ltb_ge in E. exact E.
    + destruct (fst acc) as [name|].
      * destruct Hsel as [Hin Hle]. split; [|exact Hle].
        apply in_or_app. left. exact Hin.
      * exact Hsel.
Qed.

Lemma closest_fold_inv line_number funcs seen acc :
  closest_inv line_number seen acc ->
  closest_inv line_number (seen ++ funcs)
    (fold_left (VerificationParser.closest_step line_number) funcs acc).
Proof.
  revert seen acc. induction funcs as [|f funcs IH]; intros seen acc H; simpl.
  - rewrite app_nil_r. exact H.
  - replace (seen ++ f :: funcs) with ((seen ++ [f]) ++ funcs)
      by (rewrite <- app_assoc; reflexivity).
    apply IH. apply closest_step_inv. exact H.
Qed.

Lemma closest_greatest funcs line_number :
  (forall n l, In (n, l) funcs -> (1 <= l)%Z) ->
  greatest_at_or_before funcs line_number
    (VerificationParser.closest funcs line_number).
Proof.
  intros Hone. unfold VerificationParser.closest.
  assert (Hinit : closest_inv line_number [] (None, 0%Z)).
  { split; [simpl; lia|]. split; [intros n l []|reflexivity]. }
  pose proof (closest_fold_inv line_number funcs [] _ Hinit) as H.
  simpl in H. destruct H as (Hpos & Hmax & Hsel).
  destruct (fold_left _ funcs (None, 0%Z)) as [[name|] cl]; simpl in *.
  - destruct Hsel as [Hin Hle]. exists cl. repeat split; assumption.
  - subst cl. intros n' l' Hin.
    destruct (Z.le_gt_cases l' line_number) as [Hle|Hgt]; [|exact Hgt].
    specialize (Hmax n' l' Hin Hle). specialize (Hone n' l' Hin). lia.
Qed.

Lemma lookup_In key idx funcs :
  VerificationParser.lookup key idx = Some funcs -> In (key, funcs) idx.
Proof.
  induction idx as [|[k v] idx IH]; simpl; [discriminate|].
  destruct (str_eqb k key) eqn:E.
  - intros H. injection H as ->. apply str_eqb_eq in E. subst. left. reflexivity.
  - intros H. right. apply IH. exact H.
Qed.

Lemma matching_file_lookup fp idx key :
  VerificationParser.matching_file fp idx = Some key ->
  exists funcs, VerificationParser.lookup key idx = Some funcs.
Proof.
  induction idx as [|[k v] idx IH]; simpl; [discriminate|].
  destruct (VerificationParser.key_matches fp k) eqn:E.
  - intros H. injection H as ->. rewrite str_eqb_refl. eauto.
  - intros H. destruct (str_eqb k key); eauto.
Qed.

Lemma matching_file_regex_lookup fp idx key :
  VerificationParser.matching_file_regex fp idx = Some key ->
  exists funcs, VerificationParser.lookup key idx = Some funcs.
Proof.
  induction idx as [|[k v] idx IH]; simpl; [discriminate|].
  destruct (VerificationParser.key_matches_regex fp k) eqn:E.
  - intros H. injection H as ->. rewrite str_eqb_refl. eauto.
  - intros H. destruct (str_eqb k key); eauto.
Qed.

(** C3. When the diagnostic's file matches a file of the index, the
    correlator (in both scripts) returns a function of that file whose
    definition line is the greatest one at or before the diagnostic line,
    equality included, and returns [None] exactly when the file has no
    function at or before that line.  Lines of the index are 1-based. *)
Theorem C3_closest_definition_at_or_before :
  forall (fp : str) (line_number : Z) (idx : VerificationParser.index),
    one_based idx ->
    (forall key, VerificationParser.matching_file fp idx = Some key ->
       exists funcs,
         VerificationParser.lookup key idx = Some funcs
         /\ greatest_at_or_before funcs line_number
              (VerificationParser.find_function_at_line fp line_number idx))
    /\ (forall key, VerificationParser.matching_file_regex fp idx = Some key ->
       exists funcs,
         VerificationParser.lookup key idx = Some funcs
         /\ greatest_at_or_before funcs line_number
              (VerificationParser.find_function_at_line_regex fp line_number idx)).
Proof.
  intros fp line_number idx Hone. split; intros key Hm.
  - destruct (matching_file_lookup _ _ _ Hm) as [funcs Hl].
    exists funcs. split; [exact Hl|].
    unfold VerificationParser.find_function_at_line. rewrite Hm, Hl.
    apply closest_greatest. intros n l Hin.
    exact (Hone key funcs n l (lookup_In _ _ _ Hl) Hin).
  - destruct (matching_file_regex_lookup _ _ _ Hm) as [funcs Hl].
    exists funcs. split; [exact Hl|].
    unfold VerificationParser.find_function_at_line_regex. rewrite Hm, Hl.
    apply closest_greatest. intros n l Hin.
    exact (Hone key funcs n l (lookup_In _ _ _ Hl) Hin).
Qed.

Lemma example_index_one_based : one_based example_index.
Proof.
  intros key funcs n l [H|[]] Hin. injection H as <- <-.
  simpl in Hin. destruct Hin as [H|[H|[H|[]]]]; injection H as <- <-; lia.
Qed.

(** The spec's example: definitions at lines 10, 50 and 120. *)
Lemma C3_witness :
  one_based example_index
  /\ VerificationParser.find_function_at_line (lit "src/lib.rs") 75 example_index
     = Some (lit "second")
  /\ VerificationParser.find_function_at_line (lit "src/lib.rs") 50 example_index
     = Some (lit "second")
  /\ VerificationParser.find_function_at_line (lit "src/lib.rs") 5 example_index
     = None
  /\ exists funcs,
       VerificationParser.lookup (lit "src/lib.rs") example_index = Some funcs
       /\ greatest_at_or_before funcs 75
            (VerificationParser.find_function_at_line (lit "src/lib.rs") 75
               example_index).
Proof.
  split; [exact example_index_one_based|].
  split; [reflexivity|]. split; [reflexivity|]. split; [reflexivity|].
  exact (proj1 (C3_closest_definition_at_or_before (lit "src/lib.rs") 75
                  example_index example_index_one_based)
           (lit "src/lib.rs") eq_refl).
Defined.

(** ** File matching *)

Lemma key_matches_rules fp key :
  VerificationParser.key_matches fp key
  = VerificationParser.rule_exact fp key
    || VerificationParser.rule_suffix fp key
    || VerificationParser.rule_substring fp key
    || VerificationParser.rule_basename fp key.
Proof.
  unfold VerificationParser.key_matches.
  destruct (VerificationParser.rule_exact fp key),
           (VerificationParser.rule_suffix fp key),
           (VerificationParser.rule_substring fp key); reflexivity.
Qed.

(** C7, as the code has it.  The files of the index are visited in index
    order and the four rules (exact, suffix, substring, basename) are tried
    on each file in turn: the file chosen is the first one related to the
    diagnostic path by any of the rules.  A file equal to the diagnostic
    path is therefore chosen when no file before it passes any rule. *)
Theorem C7_first_related_file_is_chosen :
  forall (fp : str) (idx : VerificationParser.index) (key : str),
    VerificationParser.matching_file fp idx = Some key
    <-> exists before funcs after,
          idx = before ++ (key, funcs) :: after
          /\ Forall (unrelated fp) before
          /\ (VerificationParser.rule_exact fp key
              || VerificationParser.rule_suffix fp key
              || VerificationParser.rule_substring fp key
              || VerificationParser.rule_basename fp key) = true.
Proof.
  intros fp idx key. split.
  - induction idx as [|[k v] idx IH]; simpl; [discriminate|].
    destruct (VerificationParser.key_matches fp k) eqn:E.
    + intros H. injection H as ->. exists [], v, idx.
      split; [reflexivity|]. split; [constructor|].
      rewrite <- key_matches_rules. exact E.
    + intros H. destruct (IH H) as (before & funcs & after & -> & Hb & Hk).
      exists ((k, v) :: before), funcs, after.
      split; [reflexivity|]. split; [|exact Hk].
      constructor; [exact E|exact Hb].
  - intros (before & funcs & after & -> & Hb & Hk).
    rewrite <- key_matches_rules in Hk.
    induction Hb as [|[k v] before Hkv Hb IH]; simpl.
    + rewrite Hk. reflexivity.
    + unfold unrelated in Hkv. simpl in Hkv. rewrite Hkv. exact IH.
Qed.

(** An index holds [src/lib.rs], equal to the diagnostic path, after
    [other/lib.rs], which only shares the basename: the latter is chosen. *)
Lemma C7_counterexample :
  VerificationParser.rule_exact (lit "src/lib.rs") (lit "src/lib.rs") = true
  /\ VerificationParser.rule_exact (lit "src/lib.rs") (lit "other/lib.rs") = false
  /\ VerificationParser.rule_suffix (lit "src/lib.rs") (lit "other/lib.rs") = false
  /\ VerificationParser.rule_substring (lit "src/lib.rs") (lit "other/lib.rs") = false
  /\ VerificationParser.rule_basename (lit "src/lib.rs") (lit "other/lib.rs") = true
  /\ VerificationParser.matching_file (lit "src/lib.rs") shadowing_index
     = Some (lit "other/lib.rs")
  /\ VerificationParser.find_function_at_line (lit "src/lib.rs") 1 shadowing_index
     = Some (lit "g").
Proof. repeat split; vm_compute; reflexivity. Qed.

(** ** The status decision *)

(** C2, as the code has it.  With no results summary in the text, no
    compilation error parsed and no verification failure extracted, a
    nonzero exit code gives the status [compilation_failed] and exactly one
    error record, whose message ends with the exit code in decimal. *)
Theorem C2_exit_code_alone_fails_compilation :
  forall (output_content : str) (exit_code : Z),
    CompilationErrorParser.has_verification_results output_content = false ->
    fst (CompilationErrorParser.parse_compilation_output output_content) = [] ->
    VerificationParser.parse_verification_failures output_content = [] ->
    exit_code <> 0%Z ->
    let r := VerusAnalyzer.analyze_output output_content (Some exit_code) in
    VerusAnalyzer.report_status r = VerusAnalyzer.compilation_failed
    /\ VerusAnalyzer.compilation_errors r
       = [VerusAnalyzer.exit_code_error exit_code]
    /\ CompilationErrorParser.message (VerusAnalyzer.exit_code_error exit_code)
       = lit "Command failed with exit code " ++ str_of_int exit_code
    /\ contains (str_of_int exit_code)
         (CompilationErrorParser.message
            (VerusAnalyzer.exit_code_error exit_code)) = true.
Proof.
  intros output_content exit_code Hres Herr Hfail Hcode r. subst r.
  unfold VerusAnalyzer.analyze_output.
  destruct (CompilationErrorParser.parse_compilation_output output_content)
    as [errs warns].
  simpl in Herr. subst errs. rewrite Hfail, Hres.
  unfold VerusAnalyzer.decide_status. simpl.
  apply Z.eqb_neq in Hcode. rewrite Hcode. simpl.
  repeat split.
  pose proof (contains_app (str_of_int exit_code)
                (lit "Command failed with exit code ") []) as H.
  rewrite app_nil_r in H. exact H.
Qed.

(** Exit code 101 and a text without any recognised line. *)
Lemma C2_witness :
  VerusAnalyzer.report_status
    (VerusAnalyzer.analyze_output (lit "Segmentation fault") (Some 101%Z))
  = VerusAnalyzer.compilation_failed
  /\ VerusAnalyzer.compilation_errors
       (VerusAnalyzer.analyze_output (lit "Segmentation fault") (Some 101%Z))
     = [CompilationErrorParser.mk_record
          (lit "Command failed with exit code 101") None None None
          [lit "Process exited with code 101"]].
Proof.
  pose proof (C2_exit_code_alone_fails_compilation (lit "Segmentation fault")
                101%Z eq_refl eq_refl eq_refl) as H.
  assert (Hne : 101%Z <> 0%Z) by discriminate.
  destruct (H Hne) as (Hs & He & _).
  split; [exact Hs|exact He].
Defined.

(** A verification failure in the text, no summary line, no compilation
    error parsed, exit code 1: no error is synthesised and the status is
    [success]. *)
Lemma C2_counterexample :
  CompilationErrorParser.has_verification_results (lit "error: assertion failed")
  = false
  /\ fst (CompilationErrorParser.parse_compilation_output
            (lit "error: assertion failed")) = []
  /\ VerusAnalyzer.report_status
       (VerusAnalyzer.analyze_output (lit "error: assertion failed") (Some 1%Z))
     = VerusAnalyzer.success
  /\ VerusAnalyzer.compilation_errors
       (VerusAnalyzer.analyze_output (lit "error: assertion failed") (Some 1%Z))
     = [].
Proof. repeat split; vm_compute; reflexivity. Qed.

(** ** The line-oriented diagnostic parser *)

Lemma startswith_split (s p : str) :
  startswith s p = true -> exists b, s = p ++ b.
Proof.
  unfold startswith. destruct (drop_prefix p s) as [r|] eqn:E; [|discriminate].
  intros _. exists r. apply drop_prefix_Some. exact E.
Qed.

Lemma contains_split (p s : str) :
  contains p s = true -> exists a b, s = a ++ p ++ b.
Proof.
  induction s as [|c s IH]; rewrite contains_eq; intros H;
    apply orb_true_iff in H as [H|H].
  - apply startswith_split in H as [b Hb]. exists [], b. exact Hb.
  - discriminate.
  - apply startswith_split in H as [b Hb]. exists [], b. exact Hb.
  - destruct (IH H) as (a & b & ->). exists (c :: a), b. reflexivity.
Qed.

Lemma search_from_found {A : Type} (m : str -> option A) (a y : str) (pos : nat) :
  m y <> None -> Re.search_from m pos (a ++ y) <> None.
Proof.
  revert pos. induction a as [|c a IH]; intros pos Hy.
  - simpl. destruct y; simpl; destruct (m _); congruence.
  - simpl. destruct (m (c :: a ++ y)); [discriminate|]. apply IH. exact Hy.
Qed.

Lemma search_found {A : Type} (m : str -> option A) (a y : str) :
  m y <> None -> Re.search m (a ++ y) <> None.
Proof.
  intros Hy. unfold Re.search.
  pose proof (search_from_found m a y 0 Hy) as H.
  destruct (Re.search_from m 0 (a ++ y)) as [[? ?]|]; congruence.
Qed.

(** A line with one of the verification-failure patterns is matched by the
    generic error pattern. *)
Lemma verification_error_is_error (l : str) :
  CompilationErrorParser.is_verification_error l = true ->
  Re.search Re.error_pattern l <> None.
Proof.
  unfold CompilationErrorParser.is_verification_error. intros H.
  apply existsb_exists in H as (p & Hin & Hc).
  apply contains_split in Hc as (a & b & ->).
  apply search_found.
  simpl in Hin.
  repeat (destruct Hin as [<-|Hin]; [vm_compute; discriminate|]).
  destruct Hin.
Qed.

(** C5, as the code has it.  Take a line that no earlier rule takes.  If
    it holds the text [error: ] directly followed by one of the six
    verification-failure phrases, the parser state stays as it is: no record
    is opened, closed or extended.  If it does not and the generic error
    pattern matches it, the open error is closed and a new error record is
    opened on the line. *)
Theorem C5_verification_failure_lines_are_skipped :
  forall (flag : bool) (st : CompilationErrorParser.state) (raw : str),
    reaches_error_rule (strip raw) ->
    (CompilationErrorParser.is_verification_error (strip raw) = true ->
     CompilationErrorParser.step flag st raw = st)
    /\ (forall g,
          CompilationErrorParser.is_verification_error (strip raw) = false ->
          Re.search Re.error_pattern (strip raw) = Some g ->
          CompilationErrorParser.step flag st raw
          = CompilationErrorParser.mk_state
              (CompilationErrorParser.flush (CompilationErrorParser.errors st)
                 (CompilationErrorParser.current_error st))
              (CompilationErrorParser.warnings st)
              (Some (CompilationErrorParser.new_record (strip g) (strip raw)))
              (CompilationErrorParser.current_warning st)).
Proof.
  intros flag st raw (H1 & H2 & H3 & H4 & H5).
  unfold CompilationErrorParser.step.
  rewrite H1, H2, H3, H4, H5. split.
  - intros Hv. pose proof (verification_error_is_error _ Hv) as He.
    destruct (Re.search Re.error_pattern (strip raw)); [|congruence].
    rewrite Hv. reflexivity.
  - intros g Hv Hg. rewrite Hg, Hv. reflexivity.
Qed.

Lemma C5_witness :
  CompilationErrorParser.step false CompilationErrorParser.init
    (lit "error: postcondition not satisfied")
  = CompilationErrorParser.init.
Proof.
  apply (C5_verification_failure_lines_are_skipped false
           CompilationErrorParser.init
           (lit "error: postcondition not satisfied")).
  - repeat split; reflexivity.
  - reflexivity.
Defined.

(** A coded error whose message is one of the phrases opens a compilation
    error record. *)
Lemma C5_counterexample :
  Re.search Re.error_pattern (lit "error[E0080]: assertion failed")
  = Some (lit "assertion failed")
  /\ contains (lit "assertion failed") (lit "assertion failed") = true
  /\ CompilationErrorParser.current_error
       (CompilationErrorParser.step false CompilationErrorParser.init
          (lit "error[E0080]: assertion failed"))
     = Some (CompilationErrorParser.new_record (lit "assertion failed")
               (lit "error[E0080]: assertion failed"))
  /\ fst (CompilationErrorParser.parse_compilation_output
            (lit "error[E0080]: assertion failed"))
     = [CompilationErrorParser.new_record (lit "assertion failed")
          (lit "error[E0080]: assertion failed")].
Proof. repeat split; vm_compute; reflexivity. Qed.

(** *** Records of a state and their raw lines *)

Lemma Forall_snoc {A : Type} (P : A -> Prop) (l : list A) (x : A) :
  Forall P l -> P x -> Forall P (l ++ [x]).
Proof.
  intros Hl Hx. apply Forall_app. split; [exact Hl|]. constructor; [exact Hx|constructor].
Qed.

Lemma flush_all (P : CompilationErrorParser.record -> Prop) lst cur :
  Forall P lst -> opt_holds P cur ->
  Forall P (CompilationErrorParser.flush lst cur).
Proof.
  intros Hl Hc. destruct cur as [r|]; simpl; [|exact Hl].
  apply Forall_snoc; assumption.
Qed.

Ltac break_match :=
  match goal with
  | |- context [match ?x with _ => _ end] => destruct x eqn:?
  | |- context [if ?x then _ else _] => destruct x eqn:?
  end.

(** One step keeps a property of the raw lines, provided the property
    carries over to the next line, holds of a record opened on it and of a
    record extended by it. *)
Lemma step_all_records (Q Q' : list str -> Prop) flag st raw :
  (forall fm, Q fm -> Q' fm) ->
  Q' [strip raw] ->
  (forall fm, Q fm -> Q' (fm ++ [strip raw])) ->
  all_records Q st ->
  all_records Q' (CompilationErrorParser.step flag st raw).
Proof.
  intros Hkeep Hnew Hext (He & Hw & Hce & Hcw).
  assert (He' : Forall (fun r => Q' (CompilationErrorParser.full_message r))
                  (CompilationErrorParser.errors st))
    by (eapply Forall_impl; [|exact He]; intros r; apply Hkeep).
  assert (Hw' : Forall (fun r => Q' (CompilationErrorParser.full_message r))
                  (CompilationErrorParser.warnings st))
    by (eapply Forall_impl; [|exact Hw]; intros r; apply Hkeep).
  assert (Hce' : opt_holds (fun r => Q' (CompilationErrorParser.full_message r))
                   (CompilationErrorParser.current_error st))
    by (destruct (CompilationErrorParser.current_error st); simpl in *; auto).
  assert (Hcw' : opt_holds (fun r => Q' (CompilationErrorParser.full_message r))
                   (CompilationErrorParser.current_warning st))
    by (destruct (CompilationErrorParser.current_warning st); simpl in *; auto).
  unfold CompilationErrorParser.step, CompilationErrorParser.continuation,
    CompilationErrorParser.continue_error.
  destruct st as [es ws ce cw]. simpl in *.
  repeat break_match; subst; simpl in *;
    unfold all_records; simpl;
    repeat split;
    auto using flush_all, Forall_snoc.
Qed.

(** *** Concatenation of two streams *)

Lemma flush_app es lst cur :
  CompilationErrorParser.flush (es ++ lst) cur
  = es ++ CompilationErrorParser.flush lst cur.
Proof. destruct cur; simpl; [rewrite app_assoc|]; reflexivity. Qed.




Lemma run_has_lines flag st ls :
  all_records has_lines st ->
  all_records has_lines (CompilationErrorParser.run flag st ls).
Proof.
  unfold CompilationErrorParser.run. revert st.
  induction ls as [|raw ls IH]; intros st H; simpl; [exact H|].
  apply IH. apply step_all_records with (Q := has_lines); auto.
  - discriminate.
  - intros fm _. unfold has_lines. destruct fm; discriminate.
Qed.

Lemma init_has_lines : all_records has_lines CompilationErrorParser.init.
Proof. repeat split; constructor. Qed.


Lemma finish_shift es ws st :
  CompilationErrorParser.finish (shift es ws st)
  = (es ++ fst (CompilationErrorParser.finish st),
     ws ++ snd (CompilationErrorParser.finish st)).
Proof.
  unfold CompilationErrorParser.finish, shift. simpl.
  rewrite !flush_app. reflexivity.
Qed.




Lemma lines_blank_joined s1 s2 :
  lines (blank_joined s1 s2) = lines s1 ++ [] :: lines s2.
Proof.
  unfold lines, blank_joined. rewrite split_on_app_sep.
  change (split_on newline (newline :: s2)) with ([] :: split_on newline s2).
  reflexivity.
Qed.




(** *** Raw lines kept by the records *)

Lemma Subseq_nil_l {A : Type} (l : list A) : Subseq [] l.
Proof. induction l; constructor; assumption. Qed.

Lemma Subseq_app_r {A : Type} (l p q : list A) :
  Subseq l p -> Subseq l (p ++ q).
Proof.
  induction 1; simpl.
  - apply Subseq_nil_l.
  - apply Subseq_skip. assumption.
  - apply Subseq_cons. assumption.
Qed.

Lemma Subseq_snoc {A : Type} (l p : list A) (x : A) :
  Subseq l p -> Subseq (l ++ [x]) (p ++ [x]).
Proof.
  induction 1; simpl.
  - apply Subseq_cons, Subseq_nil.
  - apply Subseq_skip. assumption.
  - apply Subseq_cons. assumption.
Qed.

Lemma Subseq_In {A : Type} (l p : list A) (x : A) :
  Subseq l p -> In x l -> In x p.
Proof.
  induction 1; simpl; intros Hin.
  - exact Hin.
  - right. auto.
  - destruct Hin; [left|right]; auto.
Qed.

Lemma run_subseq flag st seen ls :
  all_records (fun fm => Subseq fm (map strip seen)) st ->
  all_records (fun fm => Subseq fm (map strip (seen ++ ls)))
              (CompilationErrorParser.run flag st ls).
Proof.
  unfold CompilationErrorParser.run. revert st seen.
  induction ls as [|raw ls IH]; intros st seen H; simpl.
  - rewrite app_nil_r. exact H.
  - replace (seen ++ raw :: ls) with ((seen ++ [raw]) ++ ls)
      by (rewrite <- app_assoc; reflexivity).
    apply IH.
    apply step_all_records
      with (Q := fun fm => Subseq fm (map strip seen)); [| | |exact H].
    + intros fm Hfm. rewrite map_app. apply Subseq_app_r. exact Hfm.
    + rewrite map_app. simpl.
      replace [strip raw] with ([] ++ [strip raw]) by reflexivity.
      apply Subseq_snoc. apply Subseq_nil_l.
    + intros fm Hfm. rewrite map_app. simpl. apply Subseq_snoc. exact Hfm.
Qed.

Lemma parse_lines_subseq ls r :
  In r (fst (CompilationErrorParser.parse_lines ls)
        ++ snd (CompilationErrorParser.parse_lines ls)) ->
  Subseq (CompilationErrorParser.full_message r) (map strip ls).
Proof.
  unfold CompilationErrorParser.parse_lines, CompilationErrorParser.finish.
  simpl.
  assert (Hinit : all_records (fun fm => Subseq fm (map strip []))
                    CompilationErrorParser.init)
    by (repeat split; constructor).
  pose proof (run_subseq (CompilationErrorParser.first_pass ls) _ [] ls Hinit)
    as (He & Hw & Hce & Hcw).
  simpl in *.
  pose proof (flush_all _ _ _ He Hce) as HE.
  pose proof (flush_all _ _ _ Hw Hcw) as HW.
  intros Hin. apply in_app_or in Hin as [Hin|Hin].
  - rewrite Forall_forall in HE. apply HE. exact Hin.
  - rewrite Forall_forall in HW. apply HW. exact Hin.
Qed.

(** *** Text kept by the verification failures *)

Lemma capture_line_lines j l c :
  VerificationParser.full_error_lines (VerificationParser.capture_line j l c)
  = VerificationParser.full_error_lines c ++ [l].
Proof.
  unfold VerificationParser.capture_line.
  destruct (Re.search VerificationParser.error_pattern l) as [[g1 g2]|];
    destruct (VerificationParser.location_found_at c); reflexivity.
Qed.

Lemma capture_loop_lines n j rest c :
  exists k, k <= n /\ (0 < n -> rest <> [] -> 1 <= k)
    /\ VerificationParser.full_error_lines
         (VerificationParser.capture_loop n j rest c)
       = VerificationParser.full_error_lines c ++ firstn k rest.
Proof.
  revert j rest c. induction n as [|n IH]; intros j rest c.
  - exists 0. simpl. rewrite app_nil_r. repeat split; lia.
  - destruct rest as [|l rest].
    + exists 0. simpl. rewrite app_nil_r. repeat split; try lia. congruence.
    + simpl.
      destruct (VerificationParser.capture_break j l rest
                  (VerificationParser.capture_line j l c)).
      * exists 1. rewrite capture_line_lines. simpl. repeat split; lia.
      * destruct (IH (S j) rest (VerificationParser.capture_line j l c))
          as (k & Hk1 & _ & Hk).
        exists (S k). rewrite Hk, capture_line_lines, <- app_assoc. simpl.
        repeat split; lia.
Qed.

Lemma failure_at_text i rest f :
  VerificationParser.failure_at i rest = Some f ->
  exists n, 1 <= n <= 15
    /\ VerificationParser.full_error_text f
       = strip (join [newline] (map clean_line (firstn n rest))).
Proof.
  unfold VerificationParser.failure_at.
  destruct rest as [|raw rest]; [discriminate|].
  destruct (find _ VerificationParser.verification_error_types); [|discriminate].
  destruct (contains (lit "error") (lower (strip raw))); [|discriminate].
  remember (VerificationParser.capture_loop 15 i (raw :: rest) _) as c eqn:Hc.
  intros H. injection H as <-. simpl VerificationParser.full_error_text.
  destruct (capture_loop_lines 15 i (raw :: rest)
              (VerificationParser.mk_capture [] None None None None))
    as (k & Hk1 & Hk2 & Hk).
  exists k. rewrite Hc, Hk. simpl app.
  split; [|reflexivity].
  split; [apply Hk2; [lia|discriminate]|exact Hk1].
Qed.

Lemma failures_from_text i rest f :
  In f (VerificationParser.failures_from i rest) ->
  exists d n, 1 <= n <= 15
    /\ VerificationParser.full_error_text f
       = strip (join [newline] (map clean_line (firstn n (skipn d rest)))).
Proof.
  revert i. induction rest as [|l rest IH]; intros i Hin; [destruct Hin|].
  change (VerificationParser.failures_from i (l :: rest))
    with (match VerificationParser.failure_at i (l :: rest) with
          | Some f0 => f0 :: VerificationParser.failures_from (S i) rest
          | None => VerificationParser.failures_from (S i) rest
          end) in Hin.
  destruct (VerificationParser.failure_at i (l :: rest)) as [f0|] eqn:E.
  - destruct Hin as [<-|Hin].
    + destruct (failure_at_text _ _ _ E) as (n & Hn & Ht).
      exists 0, n. split; [exact Hn|exact Ht].
    + destruct (IH _ Hin) as (d & n & Hn & Ht).
      exists (S d), n. split; [exact Hn|exact Ht].
  - destruct (IH _ Hin) as (d & n & Hn & Ht).
    exists (S d), n. split; [exact Hn|exact Ht].
Qed.

(** A location line indented as the compiler prints it: the record keeps it
    without the indentation, so its raw lines are not lines of the input. *)
Lemma C9_counterexample :
  let text := lit "error: unknown start" ++ newline :: lit "  --> src/lib.rs:4:9" in
  exists r,
    In r (fst (CompilationErrorParser.parse_compilation_output text))
    /\ CompilationErrorParser.full_message r
       = [lit "error: unknown start"; lit "--> src/lib.rs:4:9"]
    /\ lines text = [lit "error: unknown start"; lit "  --> src/lib.rs:4:9"]
    /\ ~ Subseq (CompilationErrorParser.full_message r) (lines text).
Proof.
  eexists. split; [left; reflexivity|].
  split; [reflexivity|]. split; [reflexivity|].
  intros H.
  assert (Hin : In (lit "--> src/lib.rs:4:9")
                   (lines (lit "error: unknown start"
                           ++ newline :: lit "  --> src/lib.rs:4:9"))).
  { eapply Subseq_In; [exact H|]. right. left. reflexivity. }
  vm_compute in Hin. destruct Hin as [Hin|[Hin|[]]]; discriminate.
Qed.

(** ** The block extractor *)

Lemma skip_string_ge rest i : i <= RustFunctionFinder.skip_string rest i.
Proof.
  remember (List.length rest) as n eqn:Hn.
  revert rest i Hn. induction n as [n IH] using lt_wf_ind. intros rest i Hn.
  destruct rest as [|c rest]; simpl; [lia|].
  destruct (ch_eqb c RustFunctionFinder.quote); [lia|].
  destruct (ch_eqb c RustFunctionFinder.backslash).
  - destruct rest as [|d rest]; [lia|].
    simpl in Hn.
    pose proof (IH (List.length rest) ltac:(lia) rest (i + 2) eq_refl). lia.
  - simpl in Hn.
    pose proof (IH (List.length rest) ltac:(lia) rest (i + 1) eq_refl). lia.
Qed.

Lemma skip_block_comment_ge rest i :
  i <= RustFunctionFinder.skip_block_comment rest i.
Proof.
  revert i. induction rest as [|c rest IH]; intros i; simpl; [lia|].
  destruct rest as [|d rest]; [lia|].
  destruct (ch_eqb c "*"%char && ch_eqb d "/"%char); [lia|].
  specialize (IH (i + 1)). lia.
Qed.

Lemma skip_line_comment_ge rest i :
  i <= RustFunctionFinder.skip_line_comment rest i.
Proof.
  revert i. induction rest as [|c rest IH]; intros i; simpl; [lia|].
  destruct (ch_eqb c newline); [lia|]. specialize (IH (i + 1)). lia.
Qed.

Lemma skipn_cons_lt {A : Type} (l : list A) i x rest :
  skipn i l = x :: rest -> i < List.length l.
Proof.
  intros H. destruct (Nat.lt_ge_cases i (List.length l)) as [Hlt|Hge]; [exact Hlt|].
  rewrite skipn_all2 in H by exact Hge. discriminate.
Qed.

(** The brace search ends whatever the text: the index grows at every
    iteration. *)
Lemma find_matching_brace_loop_total fuel content i brace_count :
  List.length content - i < fuel ->
  exists r,
    RustFunctionFinder.find_matching_brace_loop fuel content i brace_count
    = Some r.
Proof.
  revert i brace_count. induction fuel as [|fuel IH]; intros i bc Hfuel; [lia|].
  cbn [RustFunctionFinder.find_matching_brace_loop].
  destruct (skipn i content) as [|c rest] eqn:Hs; [eauto|].
  apply skipn_cons_lt in Hs.
  pose proof (skip_string_ge rest (i + 1)).
  pose proof (skip_block_comment_ge (skipn 1 rest) (i + 2)).
  pose proof (skip_line_comment_ge (c :: rest) i).
  destruct (ch_eqb c "{"%char); [apply IH; lia|].
  destruct (ch_eqb c "}"%char).
  { destruct (bc - 1 =? 0)%Z; [eauto|apply IH; lia]. }
  destruct (ch_eqb c RustFunctionFinder.quote); [apply IH; lia|].
  destruct (startswith (c :: rest) (lit "/*")); [apply IH; lia|].
  destruct (startswith (c :: rest) (lit "//")); apply IH; lia.
Qed.

Lemma find_matching_brace_loop_bounds fuel content i brace_count e :
  RustFunctionFinder.find_matching_brace_loop fuel content i brace_count
  = Some (RustFunctionFinder.Brace e) ->
  i <= e < List.length content.
Proof.
  revert i brace_count. induction fuel as [|fuel IH]; intros i bc; [discriminate|].
  cbn [RustFunctionFinder.find_matching_brace_loop].
  destruct (skipn i content) as [|c rest] eqn:Hs; [discriminate|].
  apply skipn_cons_lt in Hs.
  pose proof (skip_string_ge rest (i + 1)).
  pose proof (skip_block_comment_ge (skipn 1 rest) (i + 2)).
  pose proof (skip_line_comment_ge (c :: rest) i).
  destruct (ch_eqb c "{"%char); [intros Heq; apply IH in Heq; lia|].
  destruct (ch_eqb c "}"%char).
  { destruct (bc - 1 =? 0)%Z; intros Heq;
      [injection Heq as <-; lia|apply IH in Heq; lia]. }
  destruct (ch_eqb c RustFunctionFinder.quote);
    [intros Heq; apply IH in Heq; lia|].
  destruct (startswith (c :: rest) (lit "/*"));
    [intros Heq; apply IH in Heq; lia|].
  destruct (startswith (c :: rest) (lit "//"));
    intros Heq; apply IH in Heq; lia.
Qed.

Lemma take_while_length f s : List.length (take_while f s) <= List.length s.
Proof.
  induction s as [|c s IH]; simpl; [lia|]. destruct (f c); simpl; lia.
Qed.

Lemma verus_start_pattern_bounds prev s n :
  RustFunctionFinder.verus_start_pattern prev s = Some n ->
  7 <= n <= List.length s.
Proof.
  unfold RustFunctionFinder.verus_start_pattern.
  destruct (RustFunctionFinder.word_boundary prev (hd_error s)); [|discriminate].
  destruct (drop_prefix (lit "verus!") s) as [r|] eqn:E; [|discriminate].
  apply drop_prefix_Some in E. subst s.
  destruct (drop_prefix (lit "{") (drop_while is_space r)) as [r'|] eqn:E';
    [|discriminate].
  intros H. injection H as <-.
  apply drop_prefix_Some in E'.
  assert (Hlen : List.length r
                 = List.length (take_while is_space r)
                   + List.length (drop_while is_space r)).
  { clear. induction r as [|c r IH]; simpl; [reflexivity|].
    destruct (is_space c); simpl; lia. }
  rewrite E' in Hlen. rewrite length_app. simpl in *. lia.
Qed.

Lemma verus_search_from_bounds prev pos s m_start m_end :
  RustFunctionFinder.verus_search_from prev pos s = Some (m_start, m_end) ->
  pos <= m_start /\ m_start + 7 <= m_end /\ m_end <= pos + List.length s.
Proof.
  revert prev pos. induction s as [|c s IH]; intros prev pos; simpl.
  - destruct (RustFunctionFinder.verus_start_pattern prev []) as [n|] eqn:E;
      [|discriminate].
    apply verus_start_pattern_bounds in E. simpl in E. lia.
  - destruct (RustFunctionFinder.verus_start_pattern prev (c :: s)) as [n|] eqn:E.
    + apply verus_start_pattern_bounds in E. simpl in E.
      intros H. injection H as <- <-. lia.
    + intros H. apply IH in H. lia.
Qed.

Lemma verus_search_bounds content start m_start m_end :
  RustFunctionFinder.verus_search content start = Some (m_start, m_end) ->
  start <= m_start /\ m_start + 7 <= m_end /\ m_end <= List.length content.
Proof.
  unfold RustFunctionFinder.verus_search. intros H.
  apply verus_search_from_bounds in H. rewrite length_skipn in H. lia.
Qed.

(** The block loop ends whatever the text: [start] grows at every
    iteration. *)
Lemma extract_verus_blocks_loop_total fuel content start blocks :
  List.length content - start < fuel ->
  exists result,
    RustFunctionFinder.extract_verus_blocks_loop fuel content start blocks
    = Some result.
Proof.
  revert start blocks. induction fuel as [|fuel IH]; intros start blocks Hfuel;
    [lia|].
  simpl.
  destruct (RustFunctionFinder.verus_search content start)
    as [[m_start m_end]|] eqn:Hs; [|eauto].
  apply verus_search_bounds in Hs.
  destruct (find_matching_brace_loop_total (S (List.length content)) content
              (m_end - 1) 0 ltac:(lia)) as [r Hr].
  unfold RustFunctionFinder.find_matching_brace. rewrite Hr.
  destruct r as [e|]; [|eauto].
  apply find_matching_brace_loop_bounds in Hr.
  apply IH. lia.
Qed.

(** The loop from a position where a run of closed blocks begins: when it
    ends at the position reached after the run, it returns the blocks it
    had, followed by those of the run. *)
Lemma extract_verus_blocks_loop_run content bs stop :
  (forall fuel acc,
      RustFunctionFinder.extract_verus_blocks_loop (S fuel) content stop acc
      = Some acc) ->
  forall fuel start acc,
    closed_run content start bs stop ->
    List.length content - start < fuel ->
    RustFunctionFinder.extract_verus_blocks_loop fuel content start acc
    = Some (acc ++ bs).
Proof.
  intros Hend. induction bs as [|[b l] bs IH]; intros fuel start acc Hrun Hfuel.
  - cbn [closed_run] in Hrun. subst stop.
    destruct fuel as [|fuel]; [lia|]. rewrite Hend, app_nil_r. reflexivity.
  - cbn [closed_run] in Hrun.
    destruct Hrun as (m_start & m_end & e & Hs & Hb & -> & -> & Hrun).
    destruct fuel as [|fuel]; [lia|].
    cbn [RustFunctionFinder.extract_verus_blocks_loop]. rewrite Hs, Hb.
    pose proof (verus_search_bounds _ _ _ _ Hs) as (H1 & H2 & H3).
    pose proof (find_matching_brace_loop_bounds _ _ _ _ _ Hb) as [H4 H5].
    rewrite (IH fuel (e + 1) _ Hrun) by lia.
    rewrite <- app_assoc. reflexivity.
Qed.

(** C6, as the code has it.  Extraction returns a list of blocks for every
    text: no error is raised and the loop ends.  When the scan, after a run
    of closed blocks, meets a block whose closing brace is missing, that
    block is dropped and the scan stops: the result is exactly the blocks of
    the run, and nothing after the unmatched brace is reported.  After a
    block that is closed, the scan resumes strictly further in the text. *)
Theorem C6_unclosed_block_ends_the_scan :
  forall content : str,
    (exists blocks, RustFunctionFinder.extract_verus_blocks content = Some blocks)
    /\ (forall bs stop m_start m_end,
          closed_run content 0 bs stop ->
          RustFunctionFinder.verus_search content stop = Some (m_start, m_end) ->
          RustFunctionFinder.find_matching_brace content (m_end - 1)
          = Some RustFunctionFinder.NoBrace ->
          RustFunctionFinder.extract_verus_blocks content = Some bs)
    /\ (forall start m_start m_end brace_end,
          RustFunctionFinder.verus_search content start = Some (m_start, m_end) ->
          RustFunctionFinder.find_matching_brace content (m_end - 1)
          = Some (RustFunctionFinder.Brace brace_end) ->
          start < brace_end + 1 <= List.length content).
Proof.
  intros content. split; [|split].
  - apply extract_verus_blocks_loop_total. lia.
  - intros bs stop m_start m_end Hrun Hs Hb.
    unfold RustFunctionFinder.extract_verus_blocks.
    rewrite (extract_verus_blocks_loop_run content bs stop) with (acc := []);
      [reflexivity| |exact Hrun|lia].
    intros fuel acc. cbn [RustFunctionFinder.extract_verus_blocks_loop].
    rewrite Hs, Hb. reflexivity.
  - intros start m_start m_end brace_end Hs Hb.
    apply verus_search_bounds in Hs.
    apply find_matching_brace_loop_bounds in Hb. lia.
Qed.

(** A closed block, then a block that is never closed and holds a closed
    one: only the first block is returned. *)
Lemma C6_witness :
  RustFunctionFinder.extract_verus_blocks closed_then_unclosed
  = Some [(lit "verus! { fn a() {} }", 1%Z)].
Proof.
  apply (proj1 (proj2 (C6_unclosed_block_ends_the_scan closed_then_unclosed))
           [(lit "verus! { fn a() {} }", 1%Z)] 20 21 29).
  - exists 0, 8, 19. repeat split; vm_compute; reflexivity.
  - vm_compute. reflexivity.
  - vm_compute. reflexivity.
Defined.

(** The first block is never closed; the block opened at offset 19 is
    closed at offset 38, but it is not reported: the scan has stopped. *)
Lemma C6_counterexample :
  RustFunctionFinder.verus_search unclosed_then_closed 0 = Some (0, 8)
  /\ RustFunctionFinder.find_matching_brace unclosed_then_closed 7
     = Some RustFunctionFinder.NoBrace
  /\ RustFunctionFinder.verus_search unclosed_then_closed 8 = Some (19, 27)
  /\ RustFunctionFinder.find_matching_brace unclosed_then_closed 26
     = Some (RustFunctionFinder.Brace 38)
  /\ RustFunctionFinder.extract_verus_blocks unclosed_then_closed = Some [].
Proof. repeat split; vm_compute; reflexivity. Qed.

(** ** The function scanner *)

Lemma finditer_from_lower {A : Type} (m : str -> option (nat * A)) skip pos s :
  Forall (fun x => pos <= fst x) (Re.finditer_from m skip pos s).
Proof.
  revert skip pos. induction s as [|c s IH]; intros skip pos; simpl.
  - constructor.
  - assert (Hnext : forall k,
               Forall (fun x => pos <= fst x) (Re.finditer_from m k (S pos) s)).
    { intros k. eapply Forall_impl; [|apply IH]. simpl. intros x Hx. lia. }
    destruct skip as [|k]; [|apply Hnext].
    destruct (m (c :: s)) as [[n g]|]; [|apply Hnext].
    constructor; [simpl; lia|apply Hnext].
Qed.

(** The matches of [finditer] come at increasing positions. *)
Lemma finditer_from_increasing {A : Type} (m : str -> option (nat * A))
    skip pos s :
  StronglySorted (fun a b => fst a < fst b) (Re.finditer_from m skip pos s).
Proof.
  revert skip pos. induction s as [|c s IH]; intros skip pos; simpl.
  - constructor.
  - destruct skip as [|k]; [|apply IH].
    destruct (m (c :: s)) as [[n g]|]; [|apply IH].
    constructor; [apply IH|].
    eapply Forall_impl; [|apply (finditer_from_lower m (n - 1) (S pos) s)].
    simpl. intros x Hx. lia.
Qed.

Lemma count_newlines_firstn_mono (s : str) (a b : nat) :
  a <= b -> count_newlines (firstn a s) <= count_newlines (firstn b s).
Proof.
  revert a b. induction s as [|c s IH]; intros a b Hab.
  - rewrite !firstn_nil. lia.
  - destruct a as [|a]; [simpl; lia|].
    destruct b as [|b]; [lia|].
    simpl. specialize (IH a b ltac:(lia)). lia.
Qed.

Lemma line_of_mono (start_line : Z) (s : str) (a b : nat) :
  a <= b ->
  (RustFunctionFinder.line_of start_line s a
   <= RustFunctionFinder.line_of start_line s b)%Z.
Proof.
  intros Hab. unfold RustFunctionFinder.line_of.
  pose proof (count_newlines_firstn_mono s a b Hab). lia.
Qed.

Lemma general_functions_bound start_line s ms pos :
  Forall (fun x => pos <= fst x) ms ->
  Forall (fun f => (RustFunctionFinder.line_of start_line s pos <= snd f)%Z)
         (RustFunctionFinder.general_functions start_line s ms).
Proof.
  induction 1 as [|[start [g1 name]] ms Hx _ IH]; simpl; [constructor|].
  destruct (negb _); [|exact IH].
  constructor; [|exact IH]. simpl. apply line_of_mono. exact Hx.
Qed.

Lemma general_functions_by_line start_line s ms :
  StronglySorted (fun a b => fst a < fst b) ms ->
  by_line (RustFunctionFinder.general_functions start_line s ms).
Proof.
  induction 1 as [|[start [g1 name]] ms _ IH Hx]; simpl; [constructor|].
  destruct (negb _); [|exact IH].
  constructor; [exact IH|].
  apply general_functions_bound.
  eapply Forall_impl; [|exact Hx]. simpl. intros x Hlt. lia.
Qed.

Lemma const_functions_by_line start_line s ms :
  StronglySorted (fun a b => fst a < fst b) ms ->
  by_line (RustFunctionFinder.const_functions start_line s ms).
Proof.
  induction 1 as [|[start name] ms _ IH Hx]; simpl; [constructor|].
  constructor; [exact IH|].
  unfold RustFunctionFinder.const_functions. rewrite Forall_map.
  eapply Forall_impl; [|exact Hx]. simpl. intros x Hlt.
  apply line_of_mono. lia.
Qed.

(** A constant function on the line before a plain one: the constant
    function comes again at the end of the list, after the later line. *)
Lemma C8_counterexample :
  RustFunctionFinder.analyze_file const_before_plain
  = Some [ (lit "a", 3%Z); (lit "b", 4%Z); (lit "a", 3%Z) ]
  /\ ~ by_line [ (lit "a", 3%Z); (lit "b", 4%Z); (lit "a", 3%Z) ].
Proof.
  split; [vm_compute; reflexivity|].
  intros H. apply StronglySorted_inv in H as [H _].
  apply StronglySorted_inv in H as [_ H].
  apply Forall_inv in H. simpl in H. lia.
Qed.

(** *** Lines of the catalog *)

Lemma extract_functions_lines block_content block_start_line f :
  In f (RustFunctionFinder.extract_functions_from_block block_content
          block_start_line) ->
  (block_start_line + 1 <= snd f)%Z.
Proof.
  unfold RustFunctionFinder.extract_functions_from_block.
  intros Hin. apply in_app_or in Hin as [Hin|Hin].
  - pose proof (general_functions_bound block_start_line
                  (RustFunctionFinder.remove_comments block_content)
                  (Re.finditer RustFunctionFinder.all_fn_pattern
                     (RustFunctionFinder.remove_comments block_content)) 0
                  (finditer_from_lower _ 0 0 _)) as Hall.
    rewrite Forall_forall in Hall. specialize (Hall f Hin).
    unfold RustFunctionFinder.line_of in Hall. simpl in Hall. lia.
  - unfold RustFunctionFinder.const_functions in Hin.
    apply in_map_iff in Hin as ([start name] & <- & _).
    unfold RustFunctionFinder.line_of. simpl. lia.
Qed.

Lemma extract_verus_blocks_loop_lines fuel content start blocks result :
  RustFunctionFinder.extract_verus_blocks_loop fuel content start blocks
  = Some result ->
  Forall (fun b => (1 <= snd b)%Z) blocks ->
  Forall (fun b => (1 <= snd b)%Z) result.
Proof.
  revert start blocks. induction fuel as [|fuel IH]; intros start blocks;
    [discriminate|].
  simpl.
  destruct (RustFunctionFinder.verus_search content start)
    as [[m_start m_end]|]; [|intros H; injection H as <-; auto].
  destruct (RustFunctionFinder.find_matching_brace content (m_end - 1))
    as [[e|]|]; [|intros H; injection H as <-; auto|discriminate].
  intros H Hall. apply (IH _ _ H).
  apply Forall_snoc; [exact Hall|]. simpl. lia.
Qed.

(** The catalog built by the scanner for a file has 1-based lines. *)
Lemma analyze_file_one_based path content fs :
  RustFunctionFinder.analyze_file content = Some fs ->
  one_based [(path, fs)].
Proof.
  unfold RustFunctionFinder.analyze_file, RustFunctionFinder.extract_verus_blocks.
  destruct (RustFunctionFinder.extract_verus_blocks_loop _ content 0 [])
    as [blocks|] eqn:E; [|discriminate].
  intros H. injection H as <-.
  pose proof (extract_verus_blocks_loop_lines _ _ _ _ _ E (Forall_nil _)) as Hb.
  intros key funcs n l [Heq|[]] Hin. injection Heq as <- <-.
  apply in_flat_map in Hin as (b & Hbin & Hin).
  rewrite Forall_forall in Hb. specialize (Hb b Hbin).
  apply extract_functions_lines in Hin. simpl in Hin. lia.
Qed.

(** ** A verification modifier in front of [const] *)

(** C1, on the code.  The general pattern matches
    [pub spec const fn secret(] from offset 9,
    group 1 holds only the last modifier, and the constant-function pattern
    matches from [const]: the function is listed twice as ordinary. *)
Lemma C1_spec_const_fn_is_listed :
  Re.finditer RustFunctionFinder.all_fn_pattern spec_const_block
  = [ (9, (Some (lit "const "), lit "secret")) ]
  /\ Re.finditer RustFunctionFinder.const_fn_pattern spec_const_block
     = [ (18, lit "secret") ]
  /\ RustFunctionFinder.extract_functions_from_block spec_const_block 1
     = [ (lit "secret", 2%Z); (lit "secret", 2%Z) ]
  /\ RustFunctionFinder.analyze_file spec_const_block
     = Some [ (lit "secret", 2%Z); (lit "secret", 2%Z) ].
Proof. repeat split; vm_compute; reflexivity. Qed.

(** ** Constant functions are listed twice *)

(** *** Character classes and greedy repetitions *)

Ltac each_char c :=
  destruct c as [[] [] [] [] [] [] [] []]; try reflexivity; try discriminate.

Lemma space_not_ident (c : ascii) : is_space c = true -> is_ident_char c = false.
Proof. each_char c. Qed.

Lemma ident_start_is_ident (c : ascii) :
  is_ident_start c = true -> is_ident_char c = true.
Proof. unfold is_ident_char. intros ->. reflexivity. Qed.

Lemma ident_not_space (c : ascii) : is_ident_char c = true -> is_space c = false.
Proof.
  intros H. destruct (is_space c) eqn:E; [|reflexivity].
  apply space_not_ident in E. congruence.
Qed.

Lemma take_while_app f x y :
  forallb f x = true -> stops f y -> take_while f (x ++ y) = x.
Proof.
  intros Hx Hy. induction x as [|c x IH]; simpl in *.
  - destruct y as [|d y]; simpl in *; [reflexivity|]. rewrite Hy. reflexivity.
  - apply andb_true_iff in Hx as [Hc Hx]. rewrite Hc, IH by exact Hx. reflexivity.
Qed.

Lemma drop_while_app f x y :
  forallb f x = true -> stops f y -> drop_while f (x ++ y) = y.
Proof.
  intros Hx Hy. induction x as [|c x IH]; simpl in *.
  - destruct y as [|d y]; simpl in *; [reflexivity|]. rewrite Hy. reflexivity.
  - apply andb_true_iff in Hx as [Hc Hx]. rewrite Hc. apply IH. exact Hx.
Qed.

Lemma many1_app f x y :
  x <> [] -> forallb f x = true -> stops f y ->
  Re.many1 f (x ++ y) = Some (x, y).
Proof.
  intros Hne Hx Hy. unfold Re.many1.
  rewrite take_while_app, drop_while_app by assumption.
  destruct x; [contradiction|reflexivity].
Qed.

Lemma fn_tail_here w2 name w3 post :
  spaces w2 -> identifier name -> forallb is_space w3 = true ->
  RustFunctionFinder.fn_tail (lit "fn" ++ w2 ++ name ++ w3 ++ lit "(" ++ post)
  = Some (name, post).
Proof.
  intros [Hne2 Hw2] Hname Hw3.
  destruct name as [|c cs]; [contradiction|]. destruct Hname as [Hc Hcs].
  unfold RustFunctionFinder.fn_tail.
  rewrite drop_prefix_app.
  rewrite many1_app; [|exact Hne2|exact Hw2|].
  2:{ simpl. apply ident_not_space, ident_start_is_ident. exact Hc. }
  assert (Hstop : stops is_ident_char (w3 ++ lit "(" ++ post)).
  { destruct w3 as [|d w3]; simpl; [reflexivity|].
    simpl in Hw3. apply andb_true_iff in Hw3 as [Hd _].
    apply space_not_ident. exact Hd. }
  change ((c :: cs) ++ w3 ++ lit "(" ++ post)
    with (c :: cs ++ w3 ++ lit "(" ++ post).
  cbv beta iota. rewrite Hc.
  rewrite drop_while_app by assumption.
  rewrite drop_while_app; [|exact Hw3|reflexivity].
  rewrite drop_prefix_app.
  rewrite take_while_app by assumption. reflexivity.
Qed.

Lemma modifiers_fn_at_fn fuel g w2 name w3 post :
  spaces w2 -> identifier name -> forallb is_space w3 = true ->
  RustFunctionFinder.modifiers_fn fuel g
    (lit "fn" ++ w2 ++ name ++ w3 ++ lit "(" ++ post)
  = Some (g, name, post).
Proof.
  intros Hs2 Hname Hw3.
  destruct fuel as [|fuel]; cbn [RustFunctionFinder.modifiers_fn];
    rewrite fn_tail_here by assumption; reflexivity.
Qed.

(** From [const] on, the general pattern reads one modifier and the
    function. *)
Lemma modifiers_fn_const fuel w1 w2 name w3 post :
  spaces w1 -> spaces w2 -> identifier name -> forallb is_space w3 = true ->
  RustFunctionFinder.modifiers_fn (S fuel) None
    (lit "const" ++ w1 ++ lit "fn" ++ w2 ++ name ++ w3 ++ lit "(" ++ post)
  = Some (Some (lit "const" ++ w1), name, post).
Proof.
  intros [Hne1 Hw1] Hs2 Hname Hw3.
  assert (Hks : RustFunctionFinder.keyword_space
                  RustFunctionFinder.all_fn_keywords
                  (lit "const" ++ w1 ++ lit "fn" ++ w2 ++ name ++ w3
                   ++ lit "(" ++ post)
                = Some (lit "const" ++ w1,
                        lit "fn" ++ w2 ++ name ++ w3 ++ lit "(" ++ post)).
  { cbn -[Re.many1 app]. change (?x :: ?y ++ ?z) with ((x :: y) ++ z).
    cbn [app].
    rewrite many1_app; [reflexivity|exact Hne1|exact Hw1|reflexivity]. }
  cbn [RustFunctionFinder.modifiers_fn]. rewrite Hks.
  rewrite modifiers_fn_at_fn by assumption. reflexivity.
Qed.

Lemma const_tail_here w1 w2 name w3 post :
  spaces w1 -> spaces w2 -> identifier name -> forallb is_space w3 = true ->
  RustFunctionFinder.const_tail
    (lit "const" ++ w1 ++ lit "fn" ++ w2 ++ name ++ w3 ++ lit "(" ++ post)
  = Some (name, post).
Proof.
  intros [Hne1 Hw1] Hs2 Hname Hw3.
  unfold RustFunctionFinder.const_tail.
  replace (RustFunctionFinder.keyword_space
             [lit "spec"; lit "open"; lit "uninterp"]
             (lit "const" ++ w1 ++ lit "fn" ++ w2 ++ name ++ w3 ++ lit "(" ++ post))
    with (@None (str * str)) by reflexivity.
  rewrite drop_prefix_app.
  rewrite many1_app; [|exact Hne1|exact Hw1|reflexivity].
  apply fn_tail_here; assumption.
Qed.

Lemma optional_pub_here {A : Type} (rest : str -> option A) vis tail res :
  visibility vis ->
  stops is_space tail ->
  drop_prefix (lit "pub") tail = None ->
  rest tail = Some res ->
  RustFunctionFinder.optional_pub rest (vis ++ tail) = Some res.
Proof.
  intros [->|(w & [Hne Hw] & ->)] Hstop Hnopub Hrest;
    unfold RustFunctionFinder.optional_pub.
  - simpl app. rewrite Hnopub. exact Hrest.
  - rewrite <- app_assoc, drop_prefix_app.
    rewrite many1_app by assumption. rewrite Hrest. reflexivity.
Qed.

Lemma length_app_minus {A : Type} (x y : list A) :
  List.length (x ++ y) - List.length y = List.length x.
Proof. rewrite length_app. lia. Qed.

Lemma const_fn_text_app vis w1 w2 name w3 post :
  const_fn_text vis w1 w2 name w3 ++ post
  = vis ++ lit "const" ++ w1 ++ lit "fn" ++ w2 ++ name ++ w3 ++ lit "(" ++ post.
Proof. unfold const_fn_text. rewrite <- !app_assoc. reflexivity. Qed.

(** At the start of a constant function definition both patterns match,
    up to the opening parenthesis, with the same name. *)
Lemma all_fn_pattern_here vis w1 w2 name w3 post :
  visibility vis -> spaces w1 -> spaces w2 -> identifier name ->
  forallb is_space w3 = true ->
  RustFunctionFinder.all_fn_pattern (const_fn_text vis w1 w2 name w3 ++ post)
  = Some (List.length (const_fn_text vis w1 w2 name w3),
          (Some (lit "const" ++ w1), name)).
Proof.
  intros Hvis Hs1 Hs2 Hname Hw3.
  unfold RustFunctionFinder.all_fn_pattern.
  assert (Hm : RustFunctionFinder.optional_pub
                 (RustFunctionFinder.modifiers_fn
                    (List.length (const_fn_text vis w1 w2 name w3 ++ post)) None)
                 (const_fn_text vis w1 w2 name w3 ++ post)
               = Some (Some (lit "const" ++ w1), name, post)).
  { destruct (List.length (const_fn_text vis w1 w2 name w3 ++ post))
      as [|fuel] eqn:Hlen.
    { exfalso. rewrite const_fn_text_app, !length_app in Hlen.
      simpl in Hlen. lia. }
    rewrite const_fn_text_app.
    apply optional_pub_here; [exact Hvis|reflexivity|reflexivity|].
    apply modifiers_fn_const; assumption. }
  rewrite Hm, length_app_minus. reflexivity.
Qed.

Lemma const_fn_pattern_here vis w1 w2 name w3 post :
  visibility vis -> spaces w1 -> spaces w2 -> identifier name ->
  forallb is_space w3 = true ->
  RustFunctionFinder.const_fn_pattern (const_fn_text vis w1 w2 name w3 ++ post)
  = Some (List.length (const_fn_text vis w1 w2 name w3), name).
Proof.
  intros Hvis Hs1 Hs2 Hname Hw3.
  unfold RustFunctionFinder.const_fn_pattern.
  assert (Hm : RustFunctionFinder.optional_pub RustFunctionFinder.const_tail
                 (const_fn_text vis w1 w2 name w3 ++ post)
               = Some (name, post)).
  { rewrite const_fn_text_app.
    apply optional_pub_here; [exact Hvis|reflexivity|reflexivity|].
    apply const_tail_here; assumption. }
  rewrite Hm, length_app_minus. reflexivity.
Qed.

(** *** Reaching a position with [finditer] *)

Lemma no_crossing_tail {A : Type} (m : str -> option (nat * A)) c pre rest :
  no_crossing m (c :: pre) rest -> no_crossing m pre rest.
Proof.
  intros H a b n g Hab. apply (H (c :: a) b n g). rewrite Hab. reflexivity.
Qed.

Lemma finditer_from_reach {A : Type} (m : str -> option (nat * A))
    pre rest skip pos :
  no_crossing m pre rest ->
  skip <= List.length pre ->
  exists before,
    Re.finditer_from m skip pos (pre ++ rest)
    = before ++ Re.finditer_from m 0 (pos + List.length pre) rest.
Proof.
  revert skip pos. induction pre as [|c pre IH]; intros skip pos Hnc Hskip.
  - simpl in Hskip. assert (skip = 0) as -> by lia.
    exists []. simpl. rewrite Nat.add_0_r. reflexivity.
  - pose proof (no_crossing_tail _ _ _ _ Hnc) as Hnc'.
    simpl app. simpl Re.finditer_from. simpl List.length in *.
    replace (pos + S (List.length pre)) with (S pos + List.length pre) by lia.
    destruct skip as [|k].
    + destruct (m (c :: pre ++ rest)) as [[n g]|] eqn:Hm.
      * assert (Hn : n <= S (List.length pre)).
        { apply (Hnc [] (c :: pre) n g eq_refl); [discriminate|exact Hm]. }
        destruct (IH (n - 1) (S pos) Hnc' ltac:(lia)) as [before Hb].
        exists ((pos, g) :: before). rewrite Hb. reflexivity.
      * apply IH; [exact Hnc'|lia].
    + apply IH; [exact Hnc'|lia].
Qed.

(** A match at the start of [rest] is found when no earlier match runs
    into it. *)
Lemma finditer_finds {A : Type} (m : str -> option (nat * A)) pre rest n g :
  no_crossing m pre rest ->
  rest <> [] ->
  m rest = Some (n, g) ->
  In (List.length pre, g) (Re.finditer m (pre ++ rest)).
Proof.
  intros Hnc Hne Hm. unfold Re.finditer.
  destruct (finditer_from_reach m pre rest 0 0 Hnc ltac:(lia)) as [before Hb].
  rewrite Hb. apply in_or_app. right. simpl.
  destruct rest as [|c rest]; [contradiction|].
  simpl. rewrite Hm. left. reflexivity.
Qed.

(** *** Matches that start before a constant function definition *)

Lemma const_fn_text_def_start vis w1 w2 name w3 post :
  visibility vis -> spaces w1 ->
  def_start (const_fn_text vis w1 w2 name w3 ++ post).
Proof.
  intros Hvis [Hne1 Hw1]. rewrite const_fn_text_app.
  destruct Hvis as [->|(w0 & [Hne0 Hw0] & ->)].
  - destruct w1 as [|sp ws]; [contradiction|].
    simpl in Hw1. apply andb_true_iff in Hw1 as [Hsp Hws].
    exists (lit "const"), sp, ws, "f"%char,
      (lit "n" ++ w2 ++ name ++ w3 ++ lit "(" ++ post).
    repeat split; auto.
  - destruct w0 as [|sp ws]; [contradiction|].
    simpl in Hw0. apply andb_true_iff in Hw0 as [Hsp Hws].
    exists (lit "pub"), sp, ws, "c"%char,
      (lit "onst" ++ w1 ++ lit "fn" ++ w2 ++ name ++ w3 ++ lit "(" ++ post).
    repeat split; auto.
Qed.

Lemma def_start_head R :
  def_start R ->
  exists h0 R0, R = h0 :: R0 /\ is_ident_start h0 = true
    /\ (h0 = "p"%char \/ h0 = "c"%char).
Proof.
  intros (W & sp & ws & h & X & -> & [->| ->] & _).
  - eexists _, _. split; [reflexivity|]. split; [reflexivity|left; reflexivity].
  - eexists _, _. split; [reflexivity|]. split; [reflexivity|right; reflexivity].
Qed.

Lemma def_start_stops_space R : def_start R -> stops is_space R.
Proof.
  intros H. destruct (def_start_head R H) as (h0 & R0 & -> & Hh & _).
  simpl. apply ident_not_space, ident_start_is_ident. exact Hh.
Qed.

Lemma def_start_no_paren R : def_start R -> drop_prefix (lit "(") R = None.
Proof.
  intros H. destruct (def_start_head R H) as (h0 & R0 & -> & _ & [->| ->]);
    reflexivity.
Qed.

Lemma def_start_no_fn R : def_start R -> drop_prefix (lit "fn") R = None.
Proof.
  intros H. destruct (def_start_head R H) as (h0 & R0 & -> & _ & [->| ->]);
    reflexivity.
Qed.

(** After the first word of the definition and the whitespace comes a
    letter, not a parenthesis. *)
Lemma def_start_no_call R :
  def_start R ->
  drop_prefix (lit "(") (drop_while is_space (drop_while is_ident_char R)) = None.
Proof.
  intros (W & sp & ws & h & X & -> & HW & Hsp & Hws & Hh).
  assert (HWi : forallb is_ident_char W = true)
    by (destruct HW as [->| ->]; reflexivity).
  rewrite drop_while_app; [|exact HWi|simpl; apply space_not_ident; exact Hsp].
  change (sp :: ws ++ h :: X) with ((sp :: ws) ++ h :: X).
  rewrite drop_while_app.
  - unfold lit. cbn [list_ascii_of_string drop_prefix].
    destruct (ch_eqb "("%char h) eqn:E; [|reflexivity].
    apply ch_eqb_eq in E. subst h. discriminate.
  - simpl. rewrite Hsp. exact Hws.
  - simpl. apply ident_not_space, ident_start_is_ident. exact Hh.
Qed.

Lemma def_start_no_call_tail h0 R0 :
  def_start (h0 :: R0) ->
  drop_prefix (lit "(") (drop_while is_space (drop_while is_ident_char R0)) = None.
Proof.
  intros H. pose proof (def_start_no_call _ H) as Hc.
  destruct (def_start_head _ H) as (h & R' & Heq & Hh & _).
  injection Heq as <- <-. simpl in Hc.
  rewrite (ident_start_is_ident _ Hh) in Hc. exact Hc.
Qed.

(** *** Splitting what a matcher reads at the end of [b] *)

Lemma drop_prefix_split p b R r :
  drop_prefix p (b ++ R) = Some r ->
  (exists b', b = p ++ b' /\ r = b' ++ R)
  \/ (exists p1 p2, p = p1 ++ p2 /\ p2 <> [] /\ b = p1
                    /\ drop_prefix p2 R = Some r).
Proof.
  revert b. induction p as [|x p IH]; intros b H.
  - simpl in H. injection H as <-. left. exists b. split; reflexivity.
  - destruct b as [|y b].
    + right. exists [], (x :: p). repeat split; [discriminate|exact H].
    + simpl in H. destruct (ch_eqb x y) eqn:E; [|discriminate].
      apply ch_eqb_eq in E. subst y.
      destruct (IH b H) as [(b' & -> & ->)|(p1 & p2 & -> & Hne & -> & Hd)].
      * left. exists b'. split; reflexivity.
      * right. exists (x :: p1), p2. repeat split; assumption.
Qed.

Lemma take_drop_while f (s : str) : s = take_while f s ++ drop_while f s.
Proof.
  induction s as [|c s IH]; simpl; [reflexivity|].
  destruct (f c); simpl; [f_equal; exact IH|reflexivity].
Qed.

Lemma take_while_all f (s : str) : forallb f (take_while f s) = true.
Proof.
  induction s as [|c s IH]; simpl; [reflexivity|].
  destruct (f c) eqn:E; simpl; [rewrite E; exact IH|reflexivity].
Qed.

Lemma drop_while_stops f (s : str) : stops f (drop_while f s).
Proof.
  induction s as [|c s IH]; simpl; [exact I|].
  destruct (f c) eqn:E; [exact IH|simpl; exact E].
Qed.

(** When the repetition cannot go on into [R], it reads [b] only. *)
Lemma drop_while_before f b R :
  stops f R -> drop_while f (b ++ R) = drop_while f b ++ R.
Proof.
  intros HR. induction b as [|c b IH]; simpl.
  - destruct R as [|d R]; simpl in *; [reflexivity|]. rewrite HR. reflexivity.
  - destruct (f c); [exact IH|reflexivity].
Qed.

Lemma take_while_before f b R :
  stops f R -> take_while f (b ++ R) = take_while f b.
Proof.
  intros HR. induction b as [|c b IH]; simpl.
  - destruct R as [|d R]; simpl in *; [reflexivity|]. rewrite HR. reflexivity.
  - destruct (f c); [f_equal; exact IH|reflexivity].
Qed.

Lemma many1_before f b R g r :
  stops f R -> Re.many1 f (b ++ R) = Some (g, r) ->
  g <> [] /\ forallb f g = true /\ b = g ++ drop_while f b
  /\ r = drop_while f b ++ R.
Proof.
  intros HR. unfold Re.many1.
  rewrite take_while_before, drop_while_before by exact HR.
  destruct (take_while f b) as [|c t] eqn:E; [discriminate|].
  intros H. injection H as <- <-.
  split; [discriminate|]. split; [rewrite <- E; apply take_while_all|].
  split; [rewrite <- E; apply take_drop_while|reflexivity].
Qed.

Lemma first_space_unique x y x' y' s s' :
  no_space x -> no_space x' -> is_space s = true -> is_space s' = true ->
  x ++ s :: y = x' ++ s' :: y' -> x = x'.
Proof.
  unfold no_space. revert x'. induction x as [|c x IH]; intros x' Hx Hx' Hs Hs' H.
  - destruct x' as [|c' x']; [reflexivity|].
    simpl in *. injection H as -> _.
    rewrite Hs in Hx'. discriminate.
  - destruct x' as [|c' x'].
    + simpl in *. injection H as -> _. rewrite Hs' in Hx. discriminate.
    + simpl in *. injection H as -> H.
      apply andb_true_iff in Hx as [_ Hx]. apply andb_true_iff in Hx' as [_ Hx'].
      f_equal. exact (IH x' Hx Hx' Hs Hs' H).
Qed.

Lemma pattern_words_no_space kw : In kw pattern_words -> no_space kw.
Proof.
  intros H. simpl in H.
  repeat (destruct H as [<-|H]; [reflexivity|]). destruct H.
Qed.

(** Neither [pub] nor [const] ends a longer word of the patterns. *)
Lemma word_not_proper_suffix kw W p1 :
  In kw pattern_words -> W = lit "pub" \/ W = lit "const" -> p1 <> [] ->
  kw <> p1 ++ W.
Proof.
  intros Hkw HW Hp1 Heq.
  apply (f_equal (@rev ascii)) in Heq. rewrite rev_app_distr in Heq.
  assert (Hrev : rev p1 <> []).
  { intros E. apply (f_equal (@rev ascii)) in E. rewrite rev_involutive in E.
    exact (Hp1 E). }
  simpl in Hkw.
  destruct HW as [->| ->];
    repeat (destruct Hkw as [<-|Hkw];
            [simpl in Heq; try discriminate Heq;
             injection Heq as Heq; symmetry in Heq; contradiction|]);
    destruct Hkw.
Qed.

Lemma drop_while_through f b R :
  forallb f b = true -> drop_while f (b ++ R) = drop_while f R.
Proof.
  intros H. induction b as [|c b IH]; simpl in *; [reflexivity|].
  apply andb_true_iff in H as [Hc H]. rewrite Hc. apply IH. exact H.
Qed.

Lemma drop_while_inside f b R c b' :
  drop_while f b = c :: b' -> drop_while f (b ++ R) = c :: b' ++ R.
Proof.
  induction b as [|d b IH]; simpl; [discriminate|].
  destruct (f d); [exact IH|]. intros H. injection H as -> ->. reflexivity.
Qed.

Lemma drop_while_nil_all f (b : str) : drop_while f b = [] -> forallb f b = true.
Proof.
  induction b as [|d b IH]; simpl; [reflexivity|].
  destruct (f d); [exact IH|discriminate].
Qed.

Section BeforeDefinition.

(** The text [R] starts with a constant function definition; the matchers
    below are run on [b ++ R], from a position before it. *)
Variable R : str.
Hypothesis HR : def_start R.

(** A word of the patterns and the whitespace after it, read from a text
    that starts in [b]: both lie within [b]. *)
Lemma word_space_split kw b r0 w r :
  In kw pattern_words -> b <> [] ->
  drop_prefix kw (b ++ R) = Some r0 ->
  Re.many1 is_space r0 = Some (w, r) ->
  exists b2, spaces w /\ b = kw ++ w ++ b2 /\ r = b2 ++ R.
Proof.
  intros Hkw Hb Hd Hm.
  destruct (drop_prefix_split _ _ _ _ Hd)
    as [(b' & -> & ->)|(p1 & p2 & Hsplit & Hp2 & -> & Hd2)].
  - destruct (many1_before _ _ _ _ _ (def_start_stops_space R HR) Hm)
      as (Hne & Hall & Hb' & ->).
    exists (drop_while is_space b'). split; [split; assumption|].
    split; [|reflexivity]. rewrite <- Hb'. reflexivity.
  - exfalso.
    apply drop_prefix_Some in Hd2.
    unfold Re.many1 in Hm.
    destruct r0 as [|s0 r0']; [discriminate|].
    simpl in Hm. destruct (is_space s0) eqn:Hs0; [|discriminate].
    pose proof HR as (W & sp & ws & h & X & HReq & HW & Hsp & _).
    assert (HWn : no_space W) by (destruct HW as [->| ->]; reflexivity).
    assert (Hp2n : no_space p2).
    { pose proof (pattern_words_no_space kw Hkw) as Hn.
      unfold no_space in *. rewrite Hsplit, forallb_app in Hn.
      apply andb_true_iff in Hn as [_ Hn]. exact Hn. }
    rewrite HReq in Hd2.
    pose proof (first_space_unique _ _ _ _ _ _ HWn Hp2n Hsp Hs0 Hd2) as HWp.
    subst p2. exact (word_not_proper_suffix kw W p1 Hkw HW Hb Hsplit).
Qed.

(** The end of the function part, [\s*\(] after the name, read from a
    text that starts in [b2], ends within [b2]. *)
Lemma name_end_before b2 rest :
  drop_prefix (lit "(")
    (drop_while is_space (drop_while is_ident_char (b2 ++ R))) = Some rest ->
  List.length R <= List.length rest.
Proof.
  destruct (drop_while is_ident_char b2) as [|c3 b3] eqn:E3.
  - rewrite drop_while_through by (apply drop_while_nil_all; exact E3).
    rewrite (def_start_no_call R HR). discriminate.
  - rewrite (drop_while_inside _ _ R _ _ E3).
    change (c3 :: b3 ++ R) with ((c3 :: b3) ++ R).
    destruct (drop_while is_space (c3 :: b3)) as [|c4 b4] eqn:E4.
    + rewrite drop_while_through by (apply drop_while_nil_all; exact E4).
      pose proof (def_start_stops_space R HR) as Hst.
      pose proof (drop_while_before is_space [] R Hst) as Hd. simpl in Hd.
      rewrite Hd, (def_start_no_paren R HR). discriminate.
    + rewrite (drop_while_inside _ _ R _ _ E4).
      unfold lit. cbn [list_ascii_of_string drop_prefix].
      destruct (ch_eqb "("%char c4); [|discriminate].
      intros H. injection H as <-. rewrite length_app. lia.
Qed.

(** The function part of a pattern, read from a text that starts in [b],
    ends within [b]. *)
Lemma fn_tail_before b name rest :
  b <> [] ->
  RustFunctionFinder.fn_tail (b ++ R) = Some (name, rest) ->
  List.length R <= List.length rest.
Proof.
  intros Hb. unfold RustFunctionFinder.fn_tail.
  destruct (drop_prefix (lit "fn") (b ++ R)) as [r0|] eqn:Hd; [|discriminate].
  destruct (Re.many1 is_space r0) as [[w r]|] eqn:Hm; [|discriminate].
  destruct (word_space_split (lit "fn") b r0 w r ltac:(left; reflexivity)
              Hb Hd Hm) as (b2 & _ & _ & ->).
  destruct b2 as [|c b2].
  - (* the name would start the definition *)
    simpl app. pose proof HR as HR0.
    destruct (def_start_head R HR) as (h0 & R0 & HReq & _). rewrite HReq in *.
    destruct (is_ident_start h0); [|discriminate].
    rewrite (def_start_no_call_tail h0 R0 HR0). discriminate.
  - change ((c :: b2) ++ R) with (c :: b2 ++ R). cbv beta iota.
    destruct (is_ident_start c); [|discriminate].
    destruct (drop_prefix (lit "(")
                (drop_while is_space (drop_while is_ident_char (b2 ++ R))))
      as [rest'|] eqn:E; [|discriminate].
    intros H. injection H as _ <-.
    exact (name_end_before b2 rest' E).
Qed.

Lemma keyword_space_split kws b g r :
  incl kws modifier_words -> b <> [] ->
  RustFunctionFinder.keyword_space kws (b ++ R) = Some (g, r) ->
  exists kw w b2,
    In kw kws /\ spaces w /\ b = kw ++ w ++ b2 /\ r = b2 ++ R.
Proof.
  intros Hincl Hb. induction kws as [|kw kws IH]; [discriminate|].
  assert (IH' : RustFunctionFinder.keyword_space kws (b ++ R) = Some (g, r) ->
                exists kw0 w b2,
                  In kw0 (kw :: kws) /\ spaces w /\ b = kw0 ++ w ++ b2
                  /\ r = b2 ++ R).
  { intros H. destruct (IH (fun x Hx => Hincl x (or_intror Hx)) H)
      as (kw0 & w & b2 & Hin & Hrest).
    exists kw0, w, b2. split; [right; exact Hin|exact Hrest]. }
  cbn [RustFunctionFinder.keyword_space].
  destruct (drop_prefix kw (b ++ R)) as [r0|] eqn:Hd; [|exact IH'].
  destruct (Re.many1 is_space r0) as [[w r1]|] eqn:Hm; [|exact IH'].
  intros H. injection H as <- <-.
  assert (Hkw : In kw pattern_words)
    by (right; apply Hincl; left; reflexivity).
  destruct (word_space_split kw b r0 w r1 Hkw Hb Hd Hm)
    as (b2 & Hw & Hbeq & Hr).
  exists kw, w, b2. split; [left; reflexivity|].
  split; [exact Hw|]. split; assumption.
Qed.

Lemma ends_with_modifier_app x b :
  ends_with_modifier b -> ends_with_modifier (x ++ b).
Proof.
  intros (b' & kw & w & Hkw & Hw & ->).
  exists (x ++ b'), kw, w. split; [exact Hkw|]. split; [exact Hw|].
  rewrite <- app_assoc. reflexivity.
Qed.

Lemma all_fn_keywords_incl :
  incl RustFunctionFinder.all_fn_keywords modifier_words.
Proof. intros x Hx. right. exact Hx. Qed.

(** The modifiers and the function part, read from a text that starts in
    [b] and going on into [R]: [b] ends with a modifier and whitespace. *)
Lemma modifiers_fn_before fuel g b g' name rest :
  b <> [] ->
  RustFunctionFinder.modifiers_fn fuel g (b ++ R) = Some (g', name, rest) ->
  List.length rest < List.length R ->
  ends_with_modifier b.
Proof.
  revert g b.
  assert (Hstop : forall (g : option str) b, b <> [] ->
             match RustFunctionFinder.fn_tail (b ++ R) with
             | Some (name0, rest0) => Some (g, name0, rest0)
             | None => None
             end = Some (g', name, rest) ->
             List.length rest < List.length R -> ends_with_modifier b).
  { intros g b Hb H Hlen. exfalso.
    destruct (RustFunctionFinder.fn_tail (b ++ R)) as [[name0 rest0]|] eqn:E;
      [|discriminate].
    injection H as _ _ ->.
    pose proof (fn_tail_before b name0 rest Hb E). lia. }
  induction fuel as [|fuel IH]; intros g b Hb;
    cbn [RustFunctionFinder.modifiers_fn]; [apply Hstop; exact Hb|].
  destruct (RustFunctionFinder.keyword_space
              RustFunctionFinder.all_fn_keywords (b ++ R))
    as [[gk r]|] eqn:Hk; [|apply Hstop; exact Hb].
  destruct (keyword_space_split _ b gk r all_fn_keywords_incl Hb Hk)
    as (kw & w & b2 & Hkw & Hw & Hbeq & ->).
  destruct (RustFunctionFinder.modifiers_fn fuel (Some gk) (b2 ++ R))
    as [res|] eqn:Hrec; [|apply Hstop; exact Hb].
  intros H Hlen. injection H as ->.
  destruct b2 as [|c b2].
  - exists [], kw, w. rewrite app_nil_r in Hbeq.
    split; [apply all_fn_keywords_incl; exact Hkw|]. split; [exact Hw|exact Hbeq].
  - rewrite Hbeq, app_assoc. apply ends_with_modifier_app.
    apply (IH (Some gk) (c :: b2)); [discriminate|exact Hrec|exact Hlen].
Qed.

(** The constant-function pattern without [pub], read from a text that
    starts in [b], ends within [b]. *)
Lemma const_tail_before b name rest :
  b <> [] ->
  RustFunctionFinder.const_tail (b ++ R) = Some (name, rest) ->
  List.length R <= List.length rest.
Proof.
  intros Hb. unfold RustFunctionFinder.const_tail.
  destruct (RustFunctionFinder.keyword_space _ (b ++ R)); [discriminate|].
  destruct (drop_prefix (lit "const") (b ++ R)) as [r0|] eqn:Hd; [|discriminate].
  destruct (Re.many1 is_space r0) as [[w r]|] eqn:Hm; [|discriminate].
  assert (Hkw : In (lit "const") pattern_words) by (simpl; tauto).
  destruct (word_space_split _ b r0 w r Hkw Hb Hd Hm) as (b2 & _ & _ & ->).
  destruct b2 as [|c b2].
  - simpl app. unfold RustFunctionFinder.fn_tail.
    rewrite (def_start_no_fn R HR). discriminate.
  - apply fn_tail_before. discriminate.
Qed.

(** [(?:pub\s+)?] in front of a matcher whose matches from inside [b] into
    [R] need a modifier at the end of [b]. *)
Lemma optional_pub_before {A : Type} (rest_fn : str -> option A)
    (left_of : A -> str) b res :
  b <> [] ->
  (forall b2 res2, b2 <> [] -> rest_fn (b2 ++ R) = Some res2 ->
                   List.length (left_of res2) < List.length R ->
                   ends_with_modifier b2) ->
  RustFunctionFinder.optional_pub rest_fn (b ++ R) = Some res ->
  List.length (left_of res) < List.length R ->
  ends_with_modifier b.
Proof.
  intros Hb Hrest. unfold RustFunctionFinder.optional_pub.
  destruct (drop_prefix (lit "pub") (b ++ R)) as [r0|] eqn:Hd;
    [|intros H; apply (Hrest b res Hb H)].
  destruct (Re.many1 is_space r0) as [[w r]|] eqn:Hm;
    [|intros H; apply (Hrest b res Hb H)].
  assert (Hkw : In (lit "pub") pattern_words) by (simpl; tauto).
  destruct (word_space_split _ b r0 w r Hkw Hb Hd Hm)
    as (b2 & Hw & Hbeq & ->).
  destruct (rest_fn (b2 ++ R)) as [res2|] eqn:Hrec;
    [|intros H; apply (Hrest b res Hb H)].
  intros H Hlen. injection H as ->.
  destruct b2 as [|c b2].
  - exists [], (lit "pub"), w. rewrite app_nil_r in Hbeq.
    split; [left; reflexivity|]. split; [exact Hw|exact Hbeq].
  - rewrite Hbeq, app_assoc. apply ends_with_modifier_app.
    apply (Hrest (c :: b2) res); [discriminate|exact Hrec|exact Hlen].
Qed.

Lemma all_fn_pattern_before b n g :
  b <> [] ->
  RustFunctionFinder.all_fn_pattern (b ++ R) = Some (n, g) ->
  List.length b < n ->
  ends_with_modifier b.
Proof.
  intros Hb. unfold RustFunctionFinder.all_fn_pattern.
  destruct (RustFunctionFinder.optional_pub _ (b ++ R))
    as [[[g1 name] rest]|] eqn:E; [|discriminate].
  intros H Hlen. injection H as <- _.
  apply (optional_pub_before _ (fun res => snd res) b _ Hb) in E.
  - exact E.
  - intros b2 [[g2 name2] rest2] Hb2 H2 Hl2. simpl in Hl2.
    exact (modifiers_fn_before _ None b2 g2 name2 rest2 Hb2 H2 Hl2).
  - simpl. rewrite length_app in Hlen. lia.
Qed.

Lemma const_fn_pattern_before b n g :
  b <> [] ->
  RustFunctionFinder.const_fn_pattern (b ++ R) = Some (n, g) ->
  List.length b < n ->
  ends_with_modifier b.
Proof.
  intros Hb. unfold RustFunctionFinder.const_fn_pattern.
  destruct (RustFunctionFinder.optional_pub _ (b ++ R))
    as [[name rest]|] eqn:E; [|discriminate].
  intros H Hlen. injection H as <- _.
  apply (optional_pub_before _ (fun res => snd res) b _ Hb) in E.
  - exact E.
  - intros b2 [name2 rest2] Hb2 H2 Hl2. simpl in Hl2. exfalso.
    pose proof (const_tail_before b2 name2 rest2 Hb2 H2). lia.
  - simpl. rewrite length_app in Hlen. lia.
Qed.

End BeforeDefinition.

(** *** Fuel of the modifier loop *)

Lemma many1_shorter f s g r :
  Re.many1 f s = Some (g, r) -> List.length r <= List.length s.
Proof.
  unfold Re.many1. destruct (take_while f s); [discriminate|].
  intros H. injection H as _ <-.
  rewrite (take_drop_while f s) at 2. rewrite length_app. lia.
Qed.

Lemma keyword_space_shorter kws s g r :
  ~ In [] kws ->
  RustFunctionFinder.keyword_space kws s = Some (g, r) ->
  List.length r < List.length s.
Proof.
  intros Hne. induction kws as [|kw kws IH]; [discriminate|].
  assert (IH' : RustFunctionFinder.keyword_space kws s = Some (g, r) ->
                List.length r < List.length s)
    by (apply IH; intros H; apply Hne; right; exact H).
  cbn [RustFunctionFinder.keyword_space].
  destruct (drop_prefix kw s) as [r0|] eqn:Hd; [|exact IH'].
  destruct (Re.many1 is_space r0) as [[w r1]|] eqn:Hm; [|exact IH'].
  intros H. injection H as _ <-.
  apply drop_prefix_Some in Hd. apply many1_shorter in Hm.
  subst s. rewrite length_app.
  destruct kw; [exfalso; apply Hne; left; reflexivity|]. simpl. lia.
Qed.

Lemma modifiers_fn_S fuel g s :
  RustFunctionFinder.modifiers_fn (S fuel) g s
  = match RustFunctionFinder.keyword_space
            RustFunctionFinder.all_fn_keywords s with
    | Some (gk, r) =>
        match RustFunctionFinder.modifiers_fn fuel (Some gk) r with
        | Some res => Some res
        | None => RustFunctionFinder.modifiers_fn 0 g s
        end
    | None => RustFunctionFinder.modifiers_fn 0 g s
    end.
Proof. reflexivity. Qed.

(** With as much fuel as the text is long, as [all_fn_pattern] gives it,
    the modifier loop never stops for want of fuel: more fuel changes
    nothing. *)
Lemma modifiers_fn_enough_fuel fuel g s :
  List.length s <= fuel ->
  RustFunctionFinder.modifiers_fn (S fuel) g s
  = RustFunctionFinder.modifiers_fn fuel g s.
Proof.
  revert g s. induction fuel as [|fuel IH]; intros g s Hlen.
  - destruct s; [reflexivity|simpl in Hlen; lia].
  - rewrite (modifiers_fn_S (S fuel) g s), (modifiers_fn_S fuel g s).
    destruct (RustFunctionFinder.keyword_space
                RustFunctionFinder.all_fn_keywords s) as [[gk r]|] eqn:Hk;
      [|reflexivity].
    assert (Hr : List.length r < List.length s).
    { refine (keyword_space_shorter _ _ _ _ _ Hk).
      vm_compute. intros H.
      repeat (destruct H as [H|H]; [discriminate H|]). exact H. }
    rewrite IH by lia. reflexivity.
Qed.

(** *** The text before the definition *)

Lemma forallb_rev {A : Type} (f : A -> bool) (l : list A) :
  forallb f l = true -> forallb f (rev l) = true.
Proof.
  rewrite !forallb_forall. intros H x Hx. apply H. apply in_rev. exact Hx.
Qed.

Lemma modifier_word_last kw :
  In kw modifier_words -> stops is_space (rev kw).
Proof.
  intros H. simpl in H.
  repeat (destruct H as [<-|H]; [reflexivity|]). destruct H.
Qed.

Lemma rstrip_word_spaces y kw w :
  In kw modifier_words -> forallb is_space w = true ->
  rstrip ((y ++ kw) ++ w) = y ++ kw.
Proof.
  intros Hkw Hw. unfold rstrip.
  rewrite rev_app_distr, drop_while_app.
  - apply rev_involutive.
  - apply forallb_rev. exact Hw.
  - rewrite rev_app_distr.
    pose proof (modifier_word_last kw Hkw) as Hl.
    destruct (rev kw) eqn:E; [|exact Hl].
    exfalso. simpl in Hkw.
    repeat (destruct Hkw as [<-|Hkw]; [vm_compute in E; discriminate E|]).
    destruct Hkw.
Qed.

Lemma endswith_app y kw : endswith (y ++ kw) kw = true.
Proof.
  unfold endswith, startswith. rewrite rev_app_distr, drop_prefix_app.
  reflexivity.
Qed.

Lemma ends_with_modifier_excluded a b :
  no_modifier_before (a ++ b) -> ~ ends_with_modifier b.
Proof.
  intros Hno (b' & kw & w & Hkw & [_ Hw] & ->).
  specialize (Hno kw Hkw).
  replace (a ++ b' ++ kw ++ w) with (((a ++ b') ++ kw) ++ w) in Hno
    by (rewrite <- !app_assoc; reflexivity).
  rewrite rstrip_word_spaces, endswith_app in Hno by assumption.
  discriminate.
Qed.

Lemma no_crossing_all_fn pre R :
  def_start R -> no_modifier_before pre ->
  no_crossing RustFunctionFinder.all_fn_pattern pre R.
Proof.
  intros HR Hno a b n g -> Hb Hm.
  destruct (Nat.le_gt_cases n (List.length b)) as [Hle|Hgt]; [exact Hle|].
  exfalso. apply (ends_with_modifier_excluded a b Hno).
  exact (all_fn_pattern_before R HR b n g Hb Hm Hgt).
Qed.

Lemma no_crossing_const_fn pre R :
  def_start R -> no_modifier_before pre ->
  no_crossing RustFunctionFinder.const_fn_pattern pre R.
Proof.
  intros HR Hno a b n g -> Hb Hm.
  destruct (Nat.le_gt_cases n (List.length b)) as [Hle|Hgt]; [exact Hle|].
  exfalso. apply (ends_with_modifier_excluded a b Hno).
  exact (const_fn_pattern_before R HR b n g Hb Hm Hgt).
Qed.

(** *** The two runs of the block list *)

Lemma contains_in_spaces c kw w :
  is_space c = false -> forallb is_space w = true -> contains (c :: kw) w = false.
Proof.
  intros Hc Hw. induction w as [|d w IH]; rewrite contains_eq.
  - reflexivity.
  - simpl in Hw. apply andb_true_iff in Hw as [Hd Hw]. rewrite (IH Hw).
    unfold startswith. simpl.
    destruct (ch_eqb c d) eqn:E; [|reflexivity].
    apply ch_eqb_eq in E. subst d. congruence.
Qed.

(** [const] and whitespace hold none of the verification keywords. *)
Lemma const_group_is_ordinary w1 :
  forallb is_space w1 = true ->
  existsb (fun kw => contains kw (lit "const" ++ w1))
          RustFunctionFinder.verus_keywords = false.
Proof.
  intros Hw.
  change (lit "const" ++ w1)
    with ("c"%char :: "o"%char :: "n"%char :: "s"%char :: "t"%char :: w1).
  assert (H : forall c kw, is_space c = false ->
                startswith ("c"%char :: "o"%char :: "n"%char :: "s"%char
                            :: "t"%char :: w1) (c :: kw) = false ->
                startswith ("o"%char :: "n"%char :: "s"%char :: "t"%char :: w1)
                           (c :: kw) = false ->
                startswith ("n"%char :: "s"%char :: "t"%char :: w1) (c :: kw)
                = false ->
                startswith ("s"%char :: "t"%char :: w1) (c :: kw) = false ->
                startswith ("t"%char :: w1) (c :: kw) = false ->
                contains (c :: kw)
                  ("c"%char :: "o"%char :: "n"%char :: "s"%char :: "t"%char
                   :: w1) = false).
  { intros c kw Hc H0 H1 H2 H3 H4.
    rewrite contains_eq, H0. cbv beta iota.
    rewrite contains_eq, H1. cbv beta iota.
    rewrite contains_eq, H2. cbv beta iota.
    rewrite contains_eq, H3. cbv beta iota.
    rewrite contains_eq, H4. cbv beta iota.
    simpl. apply contains_in_spaces; assumption. }
  unfold RustFunctionFinder.verus_keywords, lit.
  cbn [existsb list_ascii_of_string].
  rewrite !H by reflexivity. reflexivity.
Qed.

Lemma general_functions_In start_line s ms start g1 name :
  In (start, (g1, name)) ms ->
  existsb (fun kw => contains kw (match g1 with Some k => k | None => [] end))
          RustFunctionFinder.verus_keywords = false ->
  In (name, RustFunctionFinder.line_of start_line s start)
     (RustFunctionFinder.general_functions start_line s ms).
Proof.
  intros Hin Hk. induction ms as [|[st [g n]] ms IH]; [destruct Hin|].
  cbn [RustFunctionFinder.general_functions]. destruct Hin as [Heq|Hin].
  - injection Heq as -> -> ->. rewrite Hk. left. reflexivity.
  - destruct (negb _); [right|]; apply IH; exact Hin.
Qed.

Lemma const_functions_In start_line s ms start name :
  In (start, name) ms ->
  In (name, RustFunctionFinder.line_of start_line s start)
     (RustFunctionFinder.const_functions start_line s ms).
Proof.
  intros Hin. unfold RustFunctionFinder.const_functions.
  apply (in_map (fun m => (snd m, RustFunctionFinder.line_of start_line s (fst m)))
           _ _ Hin).
Qed.

(** C10, as the code has it.  A block holds, once the comments are removed, a constant function
    definition ([pub] or not, [const], [fn], a name and the opening
    parenthesis) that no modifier word precedes.  Then the list built for
    the block holds the pair of its name and line twice: in the run of the
    general pattern and again in the run of the constant-function pattern,
    which comes after it. *)
Theorem C10_const_fn_is_listed_twice :
  forall (block_content : str) (block_start_line : Z)
         (pre vis w1 w2 name w3 post : str),
    RustFunctionFinder.remove_comments block_content
    = pre ++ const_fn_text vis w1 w2 name w3 ++ post ->
    visibility vis -> spaces w1 -> spaces w2 -> identifier name ->
    forallb is_space w3 = true ->
    no_modifier_before pre ->
    let s := RustFunctionFinder.remove_comments block_content in
    let entry :=
      (name, RustFunctionFinder.line_of block_start_line s (List.length pre)) in
    exists g1 g2 c1 c2,
      RustFunctionFinder.general_functions block_start_line s
        (Re.finditer RustFunctionFinder.all_fn_pattern s) = g1 ++ entry :: g2
      /\ RustFunctionFinder.const_functions block_start_line s
           (Re.finditer RustFunctionFinder.const_fn_pattern s) = c1 ++ entry :: c2
      /\ RustFunctionFinder.extract_functions_from_block block_content
           block_start_line
         = (g1 ++ entry :: g2) ++ (c1 ++ entry :: c2).
Proof.
  intros block_content block_start_line pre vis w1 w2 name w3 post
         Htext Hvis Hs1 Hs2 Hname Hw3 Hpre s entry.
  pose proof (const_fn_text_def_start vis w1 w2 name w3 post Hvis Hs1) as HR.
  assert (Hne : const_fn_text vis w1 w2 name w3 ++ post <> []).
  { destruct (def_start_head _ HR) as (h0 & R0 & -> & _). discriminate. }
  assert (Hg : In entry
                 (RustFunctionFinder.general_functions block_start_line s
                    (Re.finditer RustFunctionFinder.all_fn_pattern s))).
  { apply (general_functions_In _ _ _ _ (Some (lit "const" ++ w1))).
    - subst s. rewrite Htext.
      eapply finditer_finds;
        [exact (no_crossing_all_fn _ _ HR Hpre)|exact Hne|].
      apply all_fn_pattern_here; assumption.
    - apply const_group_is_ordinary. apply Hs1. }
  assert (Hc : In entry
                 (RustFunctionFinder.const_functions block_start_line s
                    (Re.finditer RustFunctionFinder.const_fn_pattern s))).
  { apply const_functions_In.
    subst s. rewrite Htext.
    eapply finditer_finds;
      [exact (no_crossing_const_fn _ _ HR Hpre)|exact Hne|].
    apply const_fn_pattern_here; assumption. }
  apply in_split in Hg as (g1 & g2 & Hg).
  apply in_split in Hc as (c1 & c2 & Hc).
  exists g1, g2, c1, c2. split; [exact Hg|]. split; [exact Hc|].
  unfold RustFunctionFinder.extract_functions_from_block.
  fold s. rewrite Hg, Hc. reflexivity.
Qed.

Lemma C10_witness :
  exists g1 g2 c1 c2,
    RustFunctionFinder.general_functions 1
      (RustFunctionFinder.remove_comments const_fn_block)
      (Re.finditer RustFunctionFinder.all_fn_pattern
         (RustFunctionFinder.remove_comments const_fn_block))
    = g1 ++ (lit "limit", 3%Z) :: g2
    /\ RustFunctionFinder.const_functions 1
         (RustFunctionFinder.remove_comments const_fn_block)
         (Re.finditer RustFunctionFinder.const_fn_pattern
            (RustFunctionFinder.remove_comments const_fn_block))
       = c1 ++ (lit "limit", 3%Z) :: c2
    /\ RustFunctionFinder.extract_functions_from_block const_fn_block 1
       = (g1 ++ (lit "limit", 3%Z) :: g2) ++ (c1 ++ (lit "limit", 3%Z) :: c2).
Proof.
  pose proof (C10_const_fn_is_listed_twice const_fn_block 1
                (lit "verus! {" ++ newline :: lit "    ")
                (lit "pub ") (lit " ") (lit " ") (lit "limit") []
                (lit ") -> u8 { 1 }" ++ newline :: lit "}")) as H.
  assert (Htext : RustFunctionFinder.remove_comments const_fn_block
                  = (lit "verus! {" ++ newline :: lit "    ")
                    ++ const_fn_text (lit "pub ") (lit " ") (lit " ")
                         (lit "limit") []
                    ++ lit ") -> u8 { 1 }" ++ newline :: lit "}")
    by (vm_compute; reflexivity).
  assert (Hvis : visibility (lit "pub ")).
  { right. exists (lit " ").
    split; [split; [discriminate|reflexivity]|reflexivity]. }
  assert (Hsp : spaces (lit " ")) by (split; [discriminate|reflexivity]).
  assert (Hname : identifier (lit "limit")) by (split; reflexivity).
  assert (Hpre : no_modifier_before (lit "verus! {" ++ newline :: lit "    ")).
  { intros kw Hkw. simpl in Hkw.
    repeat (destruct Hkw as [<-|Hkw]; [vm_compute; reflexivity|]).
    destruct Hkw. }
  specialize (H Htext Hvis Hsp Hsp Hname eq_refl Hpre). cbv zeta in H.
  assert (E : RustFunctionFinder.line_of 1
                (RustFunctionFinder.remove_comments const_fn_block)
                (List.length (lit "verus! {" ++ newline :: lit "    "))
              = 3%Z) by (vm_compute; reflexivity).
  rewrite E in H. exact H.
Defined.

(** A plain constant function with type parameters is listed by neither
    pattern, since both want the parenthesis right after the name; and a
    constant function whose line follows the word [exec] is listed with two
    different lines, the general match starting at [exec]. *)
Lemma C10_counterexample :
  RustFunctionFinder.extract_functions_from_block
    (lit "verus! { const fn id<T>(x: T) -> T { x } }") 1
  = []
  /\ RustFunctionFinder.extract_functions_from_block
       (lit "verus! {" ++ newline :: lit "exec" ++ newline
        :: lit "const fn f() {}" ++ newline :: lit "}") 1
     = [ (lit "f", 3%Z); (lit "f", 4%Z) ].
Proof. split; vm_compute; reflexivity. Qed.

Lemma const_fn_block_functions :
  RustFunctionFinder.extract_functions_from_block const_fn_block 1
  = [ (lit "limit", 3%Z); (lit "limit", 3%Z) ].
Proof. vm_compute. reflexivity. Qed.

(* ===================================================================== *)
(** * Further properties of the code *)
(* ===================================================================== *)

(** ** The correlator *)

Lemma startswith_refl (s : str) : startswith s s = true.
Proof.
  unfold startswith. rewrite <- (app_nil_r s) at 2.
  rewrite drop_prefix_app. reflexivity.
Qed.

Lemma contains_refl (s : str) : contains s s = true.
Proof. rewrite contains_eq, startswith_refl. reflexivity. Qed.

Lemma endswith_contains (s p : str) :
  endswith s p = true -> contains p s = true.
Proof.
  unfold endswith. intros H. apply startswith_split in H as (b & Hb).
  apply (f_equal (@rev ascii)) in Hb.
  rewrite rev_involutive, rev_app_distr, rev_involutive in Hb. subst s.
  rewrite <- (app_nil_r p) at 2. apply contains_app.
Qed.

(** X1: in [find_function_at_line] of [find_verus_functions_syn.py] the
    comparison of the normalized paths for equality and the two suffix tests
    never decide: a key passes the four tests exactly when it passes the
    substring test or the file-name test. *)
Theorem X1_key_matches_by_substring_or_basename :
  forall fp key : str,
    VerificationParser.key_matches fp key
    = VerificationParser.rule_substring fp key
      || VerificationParser.rule_basename fp key.
Proof.
  intros fp key. rewrite key_matches_rules.
  destruct (VerificationParser.rule_substring fp key) eqn:Hsub.
  - rewrite orb_true_r. reflexivity.
  - assert (Hex : VerificationParser.rule_exact fp key = false).
    { destruct (VerificationParser.rule_exact fp key) eqn:He; [|reflexivity].
      unfold VerificationParser.rule_exact in He. apply str_eqb_eq in He.
      unfold VerificationParser.rule_substring in Hsub.
      rewrite He, contains_refl in Hsub. discriminate Hsub. }
    assert (Hsuf : VerificationParser.rule_suffix fp key = false).
    { destruct (VerificationParser.rule_suffix fp key) eqn:Hs; [|reflexivity].
      unfold VerificationParser.rule_suffix in Hs.
      unfold VerificationParser.rule_substring in Hsub.
      apply orb_false_iff in Hsub as [H1 H2].
      apply orb_true_iff in Hs as [Hs|Hs]; apply endswith_contains in Hs;
        congruence. }
    rewrite Hex, Hsuf. reflexivity.
Qed.

Lemma matching_file_related fp idx key :
  VerificationParser.matching_file fp idx = Some key ->
  VerificationParser.key_matches fp key = true.
Proof.
  induction idx as [|[k v] idx IH]; simpl; [discriminate|].
  destruct (VerificationParser.key_matches fp k) eqn:E; [|exact IH].
  intros H. injection H as <-. exact E.
Qed.

Lemma matching_file_regex_related fp idx key :
  VerificationParser.matching_file_regex fp idx = Some key ->
  VerificationParser.key_matches_regex fp key = true.
Proof.
  induction idx as [|[k v] idx IH]; simpl; [discriminate|].
  destruct (VerificationParser.key_matches_regex fp k) eqn:E; [|exact IH].
  intros H. injection H as <-. exact E.
Qed.

Lemma matching_file_none fp idx :
  Forall (fun e => VerificationParser.key_matches fp (fst e) = false) idx ->
  VerificationParser.matching_file fp idx = None.
Proof.
  induction 1 as [|[k v] idx Hk _ IH]; simpl; [reflexivity|].
  simpl in Hk. rewrite Hk. exact IH.
Qed.

(** The line kept by the loop is positive as soon as a name is kept. *)
Lemma closest_fold_positive line_number funcs acc :
  match fst acc with Some _ => (0 < snd acc)%Z | None => snd acc = 0%Z end ->
  match fst (fold_left (VerificationParser.closest_step line_number) funcs acc)
  with
  | Some _ =>
      (0 < snd (fold_left (VerificationParser.closest_step line_number)
                          funcs acc))%Z
  | None =>
      snd (fold_left (VerificationParser.closest_step line_number) funcs acc)
      = 0%Z
  end.
Proof.
  revert acc. induction funcs as [|[n l] funcs IH]; intros acc Hacc;
    [exact Hacc|].
  simpl. apply IH. unfold VerificationParser.closest_step.
  destruct ((l <=? line_number)%Z && (snd acc <? l)%Z) eqn:E; [|exact Hacc].
  simpl. apply andb_true_iff in E as [_ E]. apply Z.ltb_lt in E.
  destruct (fst acc); lia.
Qed.

Lemma closest_sound funcs line_number name :
  VerificationParser.closest funcs line_number = Some name ->
  exists l, In (name, l) funcs /\ (0 < l <= line_number)%Z.
Proof.
  unfold VerificationParser.closest. intros H.
  pose proof (closest_fold_inv line_number funcs [] (None, 0%Z)) as Hinv.
  pose proof (closest_fold_positive line_number funcs (None, 0%Z)) as Hpos.
  simpl in Hinv, Hpos.
  destruct (fold_left (VerificationParser.closest_step line_number) funcs
                      (None, 0%Z)) as [r l] eqn:E.
  simpl in H. subst r.
  destruct Hinv as (_ & _ & Hin & Hle).
  { unfold closest_inv. simpl. repeat split; [lia|intros ? ? []]. }
  simpl in Hin, Hle. specialize (Hpos eq_refl). simpl in Hpos.
  exists l. repeat split; [exact Hin|lia|exact Hle].
Qed.

(** X2: whatever the lines of the catalog are, the function found for a
    diagnostic belongs to a file of the catalog that one of the path tests
    relates to the diagnostic, and is defined on a positive line at or before
    the line of the diagnostic; when no key is related, nothing is found.
    Both scripts. *)
Theorem X2_found_function_is_defined_at_or_before :
  forall (fp : str) (line_number : Z) (idx : VerificationParser.index),
    (forall name,
        VerificationParser.find_function_at_line fp line_number idx = Some name ->
        exists key funcs l,
          In (key, funcs) idx
          /\ VerificationParser.key_matches fp key = true
          /\ In (name, l) funcs /\ (0 < l <= line_number)%Z)
    /\ (forall name,
        VerificationParser.find_function_at_line_regex fp line_number idx
        = Some name ->
        exists key funcs l,
          In (key, funcs) idx
          /\ VerificationParser.key_matches_regex fp key = true
          /\ In (name, l) funcs /\ (0 < l <= line_number)%Z)
    /\ (Forall (unrelated fp) idx ->
        VerificationParser.find_function_at_line fp line_number idx = None).
Proof.
  intros fp line_number idx. split; [|split].
  - intros name. unfold VerificationParser.find_function_at_line.
    destruct (VerificationParser.matching_file fp idx) as [key|] eqn:Hm;
      [|discriminate].
    destruct (VerificationParser.lookup key idx) as [funcs|] eqn:Hl;
      [|discriminate].
    intros Hc. apply closest_sound in Hc as (l & Hin & Hle).
    exists key, funcs, l. repeat split;
      [apply lookup_In; exact Hl|apply (matching_file_related _ _ _ Hm)
      |exact Hin|lia|lia].
  - intros name. unfold VerificationParser.find_function_at_line_regex.
    destruct (VerificationParser.matching_file_regex fp idx) as [key|] eqn:Hm;
      [|discriminate].
    destruct (VerificationParser.lookup key idx) as [funcs|] eqn:Hl;
      [|discriminate].
    intros Hc. apply closest_sound in Hc as (l & Hin & Hle).
    exists key, funcs, l. repeat split;
      [apply lookup_In; exact Hl|apply (matching_file_regex_related _ _ _ Hm)
      |exact Hin|lia|lia].
  - intros Hall. unfold VerificationParser.find_function_at_line.
    rewrite (matching_file_none fp idx Hall). reflexivity.
Qed.

Lemma X2_witness :
  VerificationParser.find_function_at_line (lit "src/lib.rs") 75 example_index
  = Some (lit "second")
  /\ exists key funcs l,
       In (key, funcs) example_index
       /\ VerificationParser.key_matches (lit "src/lib.rs") key = true
       /\ In (lit "second", l) funcs /\ (0 < l <= 75)%Z.
Proof.
  assert (E : VerificationParser.find_function_at_line (lit "src/lib.rs") 75
                example_index = Some (lit "second")) by (vm_compute; reflexivity).
  split; [exact E|].
  exact (proj1 (X2_found_function_is_defined_at_or_before
                  (lit "src/lib.rs") 75%Z example_index) (lit "second") E).
Defined.

(** ** Comment removal *)

Lemma sub_from_subseq (m : str -> option nat) skip (s : str) :
  Subseq (Re.sub_from m skip s) s.
Proof.
  revert skip. induction s as [|c s IH]; intros skip; simpl; [apply Subseq_nil|].
  destruct skip as [|k]; [|apply Subseq_skip, IH].
  destruct (m (c :: s)); [apply Subseq_skip, IH|apply Subseq_cons, IH].
Qed.

Lemma Subseq_trans {A : Type} (a b c : list A) :
  Subseq a b -> Subseq b c -> Subseq a c.
Proof.
  intros Hab Hbc. revert a Hab.
  induction Hbc as [|l1 l2 x Hbc IH|l1 l2 x Hbc IH]; intros a Hab.
  - exact Hab.
  - apply Subseq_skip, IH, Hab.
  - inversion Hab; subst.
    + apply Subseq_skip, IH. assumption.
    + apply Subseq_cons, IH. assumption.
Qed.

Lemma Subseq_length {A : Type} (a b : list A) :
  Subseq a b -> List.length a <= List.length b.
Proof. induction 1; simpl; lia. Qed.

Lemma Subseq_count_newlines (a b : str) :
  Subseq a b -> count_newlines a <= count_newlines b.
Proof. induction 1; simpl; lia. Qed.

Lemma remove_comments_subseq (s : str) :
  Subseq (RustFunctionFinder.remove_comments s) s.
Proof.
  unfold RustFunctionFinder.remove_comments, Re.sub.
  eapply Subseq_trans; apply sub_from_subseq.
Qed.

Lemma sub_from_no_match (m : str -> option nat) (p s : str) :
  (forall t, m t <> None -> startswith t p = true) ->
  contains p s = false ->
  Re.sub_from m 0 s = s.
Proof.
  intros Hm. induction s as [|c s IH]; intros Hc; [reflexivity|].
  rewrite contains_eq in Hc. apply orb_false_iff in Hc as [Hs Hc].
  simpl. destruct (m (c :: s)) eqn:E.
  - rewrite Hm in Hs; [discriminate Hs|congruence].
  - rewrite IH by exact Hc. reflexivity.
Qed.

Lemma line_comment_starts t :
  RustFunctionFinder.line_comment_pattern t <> None ->
  startswith t (lit "//") = true.
Proof.
  unfold RustFunctionFinder.line_comment_pattern, startswith.
  destruct (drop_prefix (lit "//") t); [reflexivity|congruence].
Qed.

Lemma block_comment_starts t :
  RustFunctionFinder.block_comment_pattern t <> None ->
  startswith t (lit "/*") = true.
Proof.
  unfold RustFunctionFinder.block_comment_pattern, startswith.
  destruct (drop_prefix (lit "/*") t); [reflexivity|congruence].
Qed.

(** X3: [remove_comments] only deletes characters: its result is the text
    with some characters left out, the others in their order; it is never
    longer and never has more newlines. *)
Theorem X3_remove_comments_only_deletes :
  forall content : str,
    Subseq (RustFunctionFinder.remove_comments content) content
    /\ List.length (RustFunctionFinder.remove_comments content)
       <= List.length content
    /\ count_newlines (RustFunctionFinder.remove_comments content)
       <= count_newlines content.
Proof.
  intros content. pose proof (remove_comments_subseq content) as H.
  split; [exact H|split];
    [apply Subseq_length|apply Subseq_count_newlines]; exact H.
Qed.

(** X4: a text in which neither two slashes in a row nor a slash followed
    by a star occur is returned unchanged by [remove_comments]. *)
Theorem X4_remove_comments_keeps_comment_free_text :
  forall content : str,
    contains (lit "//") content = false ->
    contains (lit "/*") content = false ->
    RustFunctionFinder.remove_comments content = content.
Proof.
  intros content H1 H2. unfold RustFunctionFinder.remove_comments, Re.sub.
  rewrite (sub_from_no_match _ (lit "//") content line_comment_starts H1).
  apply (sub_from_no_match _ (lit "/*") content block_comment_starts H2).
Qed.

Lemma X4_witness :
  RustFunctionFinder.remove_comments (lit "fn a() { 1 / 2 }")
  = lit "fn a() { 1 / 2 }".
Proof.
  apply (X4_remove_comments_keeps_comment_free_text (lit "fn a() { 1 / 2 }"));
    vm_compute; reflexivity.
Defined.

(** ** The matching brace *)

Lemma skipn_cons_nth {A : Type} (l : list A) i x rest :
  skipn i l = x :: rest -> nth_error l i = Some x.
Proof.
  revert l. induction i as [|i IH]; intros [|y l]; simpl; try discriminate.
  - intros H. injection H as -> _. reflexivity.
  - apply IH.
Qed.

Lemma firstn_slice {A : Type} (l : list A) a b :
  a <= b -> firstn b l = firstn a l ++ firstn (b - a) (skipn a l).
Proof.
  revert b l. induction a as [|a IH]; intros b l Hab.
  - simpl. rewrite Nat.sub_0_r. reflexivity.
  - destruct b as [|b]; [lia|]. destruct l as [|x l]; simpl.
    + rewrite firstn_nil. reflexivity.
    + rewrite (IH b l) by lia. reflexivity.
Qed.

Lemma slice_snoc (content : str) a i c rest :
  a <= i -> skipn i content = c :: rest ->
  RustFunctionFinder.slice content a (i + 1)
  = RustFunctionFinder.slice content a i ++ [c].
Proof.
  intros Hai Hs. unfold RustFunctionFinder.slice.
  rewrite (firstn_slice (skipn a content) (i - a) (i + 1 - a)) by lia.
  f_equal. rewrite skipn_skipn.
  replace (i - a + a) with i by lia. rewrite Hs.
  replace (i + 1 - a - (i - a)) with 1 by lia. reflexivity.
Qed.

Lemma find_matching_brace_loop_closes fuel content i brace_count e :
  RustFunctionFinder.find_matching_brace_loop fuel content i brace_count
  = Some (RustFunctionFinder.Brace e) ->
  nth_error content e = Some "}"%char.
Proof.
  revert i brace_count. induction fuel as [|fuel IH]; intros i bc; [discriminate|].
  cbn [RustFunctionFinder.find_matching_brace_loop].
  destruct (skipn i content) as [|c rest] eqn:Hs; [discriminate|].
  apply skipn_cons_nth in Hs.
  destruct (ch_eqb c "{"%char); [apply IH|].
  destruct (ch_eqb c "}"%char) eqn:Hc.
  { destruct (bc - 1 =? 0)%Z; [|apply IH].
    intros Heq. injection Heq as <-. apply ch_eqb_eq in Hc. congruence. }
  destruct (ch_eqb c RustFunctionFinder.quote); [apply IH|].
  destruct (startswith (c :: rest) (lit "/*")); [apply IH|].
  destruct (startswith (c :: rest) (lit "//")); apply IH.
Qed.

(** X5: the index returned by [find_matching_brace] is at or after the
    start position and holds a closing brace; the search always ends, and in
    a text with no closing brace from the start position on the result is
    -1. *)
Theorem X5_matching_brace_is_a_closing_brace :
  forall (content : str) (start_pos : nat),
    (exists r, RustFunctionFinder.find_matching_brace content start_pos = Some r)
    /\ (forall e,
          RustFunctionFinder.find_matching_brace content start_pos
          = Some (RustFunctionFinder.Brace e) ->
          start_pos <= e < List.length content
          /\ nth_error content e = Some "}"%char)
    /\ ((forall j, start_pos <= j -> nth_error content j <> Some "}"%char) ->
        RustFunctionFinder.find_matching_brace content start_pos
        = Some RustFunctionFinder.NoBrace).
Proof.
  intros content start_pos.
  assert (Htot : exists r,
             RustFunctionFinder.find_matching_brace content start_pos = Some r).
  { apply find_matching_brace_loop_total. lia. }
  assert (Hcl : forall e,
             RustFunctionFinder.find_matching_brace content start_pos
             = Some (RustFunctionFinder.Brace e) ->
             start_pos <= e < List.length content
             /\ nth_error content e = Some "}"%char).
  { intros e He. split.
    - apply (find_matching_brace_loop_bounds _ _ _ _ _ He).
    - apply (find_matching_brace_loop_closes _ _ _ _ _ He). }
  split; [exact Htot|split; [exact Hcl|]].
  intros Hno. destruct Htot as ([e|] & Hr); [|exact Hr].
  destruct (Hcl e Hr) as [[Hle _] Hn]. exfalso. apply (Hno e Hle Hn).
Qed.

Lemma X5_witness :
  RustFunctionFinder.find_matching_brace (lit "a { b } c") 2
  = Some (RustFunctionFinder.Brace 6)
  /\ (2 <= 6 < List.length (lit "a { b } c")
      /\ nth_error (lit "a { b } c") 6 = Some "}"%char).
Proof.
  assert (E : RustFunctionFinder.find_matching_brace (lit "a { b } c") 2
              = Some (RustFunctionFinder.Brace 6)) by (vm_compute; reflexivity).
  split; [exact E|].
  exact (proj1 (proj2 (X5_matching_brace_is_a_closing_brace
                         (lit "a { b } c") 2)) 6 E).
Defined.

Lemma brace_balance_app (a b : str) :
  brace_balance (a ++ b) = (brace_balance a + brace_balance b)%Z.
Proof. induction a as [|c a IH]; simpl; [reflexivity|]. rewrite IH. lia. Qed.

Lemma skipn_In_later {A : Type} (l : list A) a i x rest :
  a <= i -> skipn i l = x :: rest -> In x (skipn a l).
Proof.
  intros Hai Hs. replace i with ((i - a) + a) in Hs by lia.
  rewrite <- skipn_skipn in Hs.
  assert (Hin : In x (skipn (i - a) (skipn a l))) by (rewrite Hs; left; reflexivity).
  revert Hin. generalize (skipn a l) as t. generalize (i - a) as k.
  induction k as [|k IH]; intros [|y t]; simpl; auto.
Qed.

(** The loop on plain code: the counter is the balance of the text read so
    far, and no closing brace read so far has brought it to zero. *)
Lemma find_matching_brace_loop_balanced fuel content start i brace_count r :
  plain_code (skipn start content) ->
  start <= i ->
  brace_count = brace_balance (RustFunctionFinder.slice content start i) ->
  (forall j, start <= j < i -> nth_error content j = Some "}"%char ->
             brace_balance (RustFunctionFinder.slice content start (j + 1))
             <> 0%Z) ->
  RustFunctionFinder.find_matching_brace_loop fuel content i brace_count
  = Some r ->
  match r with
  | RustFunctionFinder.Brace e =>
      brace_balance (RustFunctionFinder.slice content start (e + 1)) = 0%Z
      /\ forall j, start <= j < e -> nth_error content j = Some "}"%char ->
           brace_balance (RustFunctionFinder.slice content start (j + 1))
           <> 0%Z
  | RustFunctionFinder.NoBrace =>
      forall j, start <= j -> nth_error content j = Some "}"%char ->
        brace_balance (RustFunctionFinder.slice content start (j + 1)) <> 0%Z
  end.
Proof.
  intros Hplain. revert i brace_count.
  induction fuel as [|fuel IH]; intros i bc Hsi Hbc Hmin; [discriminate|].
  cbn [RustFunctionFinder.find_matching_brace_loop].
  destruct (skipn i content) as [|c rest] eqn:Hs.
  { intros H. injection H as <-. intros j Hj Hn.
    apply Hmin; [|exact Hn]. split; [exact Hj|].
    assert (j < List.length content) by (apply nth_error_Some; congruence).
    assert (List.length (skipn i content) = 0) by (rewrite Hs; reflexivity).
    rewrite length_skipn in *. lia. }
  pose proof (slice_snoc content start i c rest Hsi Hs) as Hsnoc.
  pose proof (skipn_cons_nth _ _ _ _ Hs) as Hnth.
  assert (Hc : negb (ch_eqb c RustFunctionFinder.quote)
               && negb (ch_eqb c "/"%char) = true).
  { unfold plain_code in Hplain. rewrite forallb_forall in Hplain.
    apply Hplain. apply (skipn_In_later _ _ _ _ _ Hsi Hs). }
  apply andb_true_iff in Hc as [Hq Hsl].
  apply negb_true_iff in Hq. apply negb_true_iff in Hsl.
  assert (Hbal : brace_balance (RustFunctionFinder.slice content start (i + 1))
                 = (bc + (if ch_eqb c "{"%char then 1
                          else if ch_eqb c "}"%char then -1 else 0))%Z).
  { rewrite Hsnoc, brace_balance_app, <- Hbc. simpl. lia. }
  assert (Hstep : forall bc',
             bc' = brace_balance (RustFunctionFinder.slice content start (i + 1)) ->
             (ch_eqb c "}"%char = true -> bc' <> 0%Z) ->
             forall j, start <= j < i + 1 ->
               nth_error content j = Some "}"%char ->
               brace_balance (RustFunctionFinder.slice content start (j + 1))
               <> 0%Z).
  { intros bc' Hbc' Hne j Hj Hn.
    destruct (Nat.eq_dec j i) as [->|Hji]; [|apply Hmin; [lia|exact Hn]].
    rewrite <- Hbc'. apply Hne. rewrite Hnth in Hn. injection Hn as ->.
    apply ch_eqb_refl. }
  destruct (ch_eqb c "{"%char) eqn:Ho.
  { apply IH; [lia|lia|]. apply (Hstep (bc + 1)%Z); [lia|].
    intros Hcl. apply ch_eqb_eq in Ho, Hcl. congruence. }
  destruct (ch_eqb c "}"%char) eqn:Hcl.
  { destruct (bc - 1 =? 0)%Z eqn:Hz.
    - intros H. injection H as <-. apply Z.eqb_eq in Hz. split; [lia|exact Hmin].
    - apply Z.eqb_neq in Hz. apply IH; [lia|lia|].
      apply (Hstep (bc - 1)%Z); [lia|intros _; exact Hz]. }
  rewrite Hq.
  assert (Hs1 : startswith (c :: rest) (lit "/*") = false).
  { destruct (startswith (c :: rest) (lit "/*")) eqn:E; [|reflexivity].
    apply startswith_split in E as (b & Hb). simpl in Hb.
    injection Hb as -> _. vm_compute in Hsl. discriminate Hsl. }
  assert (Hs2 : startswith (c :: rest) (lit "//") = false).
  { destruct (startswith (c :: rest) (lit "//")) eqn:E; [|reflexivity].
    apply startswith_split in E as (b & Hb). simpl in Hb.
    injection Hb as -> _. vm_compute in Hsl. discriminate Hsl. }
  rewrite Hs1, Hs2.
  apply IH; [lia|lia|]. apply (Hstep bc); [lia|discriminate].
Qed.

(** X6: on text without double quotes and slashes from the start position
    on, [find_matching_brace] returns the first closing brace at which the
    braces read from the start position balance, and -1 exactly when no
    closing brace balances them. *)
Theorem X6_matching_brace_balances_plain_code :
  forall (content : str) (start_pos : nat) (r : RustFunctionFinder.brace_result),
    plain_code (skipn start_pos content) ->
    RustFunctionFinder.find_matching_brace content start_pos = Some r ->
    match r with
    | RustFunctionFinder.Brace e =>
        brace_balance (RustFunctionFinder.slice content start_pos (e + 1)) = 0%Z
        /\ forall j, start_pos <= j < e ->
             nth_error content j = Some "}"%char ->
             brace_balance (RustFunctionFinder.slice content start_pos (j + 1))
             <> 0%Z
    | RustFunctionFinder.NoBrace =>
        forall j, start_pos <= j -> nth_error content j = Some "}"%char ->
          brace_balance (RustFunctionFinder.slice content start_pos (j + 1))
          <> 0%Z
    end.
Proof.
  intros content start_pos r Hplain Hr.
  unfold RustFunctionFinder.find_matching_brace in Hr.
  refine (find_matching_brace_loop_balanced _ content start_pos start_pos 0%Z r
            Hplain (le_n _) _ _ Hr).
  - unfold RustFunctionFinder.slice. rewrite Nat.sub_diag. reflexivity.
  - intros j Hj. lia.
Qed.

Lemma X6_witness :
  brace_balance
    (RustFunctionFinder.slice (lit "f { a { b } c } d }") 2 (14 + 1)) = 0%Z
  /\ forall j, 2 <= j < 14 ->
       nth_error (lit "f { a { b } c } d }") j = Some "}"%char ->
       brace_balance (RustFunctionFinder.slice (lit "f { a { b } c } d }") 2 (j + 1))
       <> 0%Z.
Proof.
  assert (Hp : plain_code (skipn 2 (lit "f { a { b } c } d }")))
    by (vm_compute; reflexivity).
  assert (Hr : RustFunctionFinder.find_matching_brace
                 (lit "f { a { b } c } d }") 2
               = Some (RustFunctionFinder.Brace 14)) by (vm_compute; reflexivity).
  exact (X6_matching_brace_balances_plain_code
           (lit "f { a { b } c } d }") 2 (RustFunctionFinder.Brace 14) Hp Hr).
Defined.

(** ** The blocks of a file *)

Lemma laid_out_extend before (s t : str) bs :
  laid_out before s bs -> laid_out before (s ++ t) bs.
Proof.
  revert before s. induction bs as [|[b l] bs IH]; intros before s; simpl;
    [trivial|].
  intros (gap & rest & Hs & Hl & Hrest). exists gap, (rest ++ t).
  subst s. rewrite <- !app_assoc. repeat split; [exact Hl|].
  apply IH. exact Hrest.
Qed.

Lemma laid_out_snoc before (s gap b : str) bs :
  laid_out before s bs ->
  laid_out before (s ++ gap ++ b)
    (bs ++ [(b, (Z.of_nat (count_newlines (before ++ s ++ gap)) + 1)%Z)]).
Proof.
  revert before s. induction bs as [|[b0 l0] bs IH]; intros before s; simpl.
  - intros _. exists (s ++ gap), []. rewrite app_nil_r, <- !app_assoc.
    repeat split.
  - intros (g0 & rest & Hs & Hl & Hrest). exists g0, (rest ++ gap ++ b).
    subst s. rewrite <- !app_assoc. repeat split; [exact Hl|].
    specialize (IH (before ++ g0 ++ b0) rest Hrest).
    rewrite <- !app_assoc in IH. exact IH.
Qed.

Lemma verus_start_pattern_starts prev s n :
  RustFunctionFinder.verus_start_pattern prev s = Some n ->
  startswith s (lit "verus!") = true.
Proof.
  unfold RustFunctionFinder.verus_start_pattern, startswith.
  destruct (RustFunctionFinder.word_boundary prev (hd_error s)); [|discriminate].
  destruct (drop_prefix (lit "verus!") s); [reflexivity|discriminate].
Qed.

Lemma verus_search_from_starts prev pos s m_start m_end :
  RustFunctionFinder.verus_search_from prev pos s = Some (m_start, m_end) ->
  startswith (skipn (m_start - pos) s) (lit "verus!") = true.
Proof.
  revert prev pos. induction s as [|c s IH]; intros prev pos; simpl.
  - destruct (RustFunctionFinder.verus_start_pattern prev []) eqn:E;
      [|discriminate].
    intros _. apply verus_start_pattern_starts in E.
    rewrite skipn_nil. exact E.
  - destruct (RustFunctionFinder.verus_start_pattern prev (c :: s)) eqn:E.
    + intros H. injection H as <- _. rewrite Nat.sub_diag. simpl.
      apply (verus_start_pattern_starts _ _ _ E).
    + intros H. pose proof (verus_search_from_bounds _ _ _ _ _ H) as (Hle & _).
      apply IH in H. replace (m_start - pos) with (S (m_start - S pos)) by lia.
      exact H.
Qed.

Lemma verus_search_starts content start m_start m_end :
  RustFunctionFinder.verus_search content start = Some (m_start, m_end) ->
  startswith (skipn m_start content) (lit "verus!") = true.
Proof.
  intros H. pose proof (verus_search_bounds _ _ _ _ H) as (Hle & _).
  unfold RustFunctionFinder.verus_search in H.
  apply verus_search_from_starts in H. rewrite skipn_skipn in H.
  replace (m_start - start + start) with m_start in H by lia. exact H.
Qed.

Lemma slice_starts (content p : str) a b :
  startswith (skipn a content) p = true ->
  List.length p <= b - a ->
  startswith (RustFunctionFinder.slice content a b) p = true.
Proof.
  intros Hs Hlen. apply startswith_split in Hs as (r & Hr).
  unfold RustFunctionFinder.slice, startswith. rewrite Hr, firstn_app.
  rewrite firstn_all2 by lia. rewrite drop_prefix_app. reflexivity.
Qed.

Lemma nth_error_skipn_cons {A : Type} (l : list A) i x :
  nth_error l i = Some x -> exists rest, skipn i l = x :: rest.
Proof.
  revert l. induction i as [|i IH]; intros [|y l]; simpl; try discriminate.
  - intros H. injection H as ->. eexists. reflexivity.
  - apply IH.
Qed.

Lemma extract_verus_blocks_loop_laid_out fuel content start blocks result :
  RustFunctionFinder.extract_verus_blocks_loop fuel content start blocks
  = Some result ->
  laid_out [] (firstn start content) blocks ->
  Forall (fun b => startswith (fst b) (lit "verus!") = true
                   /\ endswith (fst b) (lit "}") = true) blocks ->
  laid_out [] content result
  /\ Forall (fun b => startswith (fst b) (lit "verus!") = true
                      /\ endswith (fst b) (lit "}") = true) result.
Proof.
  assert (Hend : forall start blocks,
             laid_out [] (firstn start content) blocks ->
             laid_out [] content blocks).
  { intros st bl H. rewrite <- (firstn_skipn st content).
    apply laid_out_extend. exact H. }
  revert start blocks. induction fuel as [|fuel IH]; intros start blocks;
    [discriminate|].
  simpl.
  destruct (RustFunctionFinder.verus_search content start)
    as [[m_start m_end]|] eqn:Hsearch;
    [|intros H; injection H as <-; split; [apply (Hend start)|]; assumption].
  destruct (RustFunctionFinder.find_matching_brace content (m_end - 1))
    as [[e|]|] eqn:Hbrace;
    [|intros H; injection H as <-; split; [apply (Hend start)|]; assumption
     |discriminate].
  intros H Hlaid Hshape.
  pose proof (verus_search_bounds _ _ _ _ Hsearch) as (Hsm & Hme & Hlen).
  pose proof (find_matching_brace_loop_bounds _ _ _ _ _ Hbrace) as [Hbe He].
  pose proof (find_matching_brace_loop_closes _ _ _ _ _ Hbrace) as Hcl.
  apply nth_error_skipn_cons in Hcl as (rest & Hrest).
  apply (IH _ _ H).
  - rewrite (firstn_slice content m_start (e + 1)) by lia.
    rewrite (firstn_slice content start m_start) by lia.
    rewrite <- app_assoc.
    pose proof (laid_out_snoc [] (firstn start content)
                  (firstn (m_start - start) (skipn start content))
                  (RustFunctionFinder.slice content m_start (e + 1))
                  blocks Hlaid) as Hsn.
    simpl in Hsn. exact Hsn.
  - apply Forall_snoc; [exact Hshape|]. simpl. split.
    + apply slice_starts; [apply (verus_search_starts _ _ _ _ Hsearch)|].
      simpl. lia.
    + rewrite (slice_snoc content m_start e _ rest) by (lia || exact Hrest).
      apply endswith_app.
Qed.

(** X7: [extract_verus_blocks] always ends, and its blocks are pieces of
    the content that follow one another without overlap; each starts with
    [verus!] and ends with a closing brace, and its line is one more than the
    number of newlines before it. *)
Theorem X7_blocks_are_disjoint_pieces_of_the_content :
  forall content : str,
    exists blocks,
      RustFunctionFinder.extract_verus_blocks content = Some blocks
      /\ laid_out [] content blocks
      /\ Forall (fun b => startswith (fst b) (lit "verus!") = true
                          /\ endswith (fst b) (lit "}") = true) blocks.
Proof.
  intros content.
  destruct (extract_verus_blocks_loop_total (S (List.length content)) content 0 [])
    as (blocks & Hb); [lia|].
  exists blocks. split; [exact Hb|].
  apply (extract_verus_blocks_loop_laid_out _ _ _ _ _ Hb); simpl; auto.
Qed.

Lemma verus_search_from_contains prev pos s r :
  RustFunctionFinder.verus_search_from prev pos s = Some r ->
  contains (lit "verus!") s = true.
Proof.
  revert prev pos. induction s as [|c s IH]; intros prev pos;
    cbn [RustFunctionFinder.verus_search_from].
  - destruct (RustFunctionFinder.verus_start_pattern prev []) eqn:E;
      [|discriminate].
    apply verus_start_pattern_starts in E. discriminate E.
  - destruct (RustFunctionFinder.verus_start_pattern prev (c :: s)) eqn:E.
    + intros _. apply verus_start_pattern_starts in E.
      rewrite contains_eq, E. reflexivity.
    + intros H. apply IH in H. rewrite contains_eq, H. apply orb_true_r.
Qed.

(** X8: a file in which the text [verus!] does not occur has no block and
    no function. *)
Theorem X8_no_macro_no_function :
  forall content : str,
    contains (lit "verus!") content = false ->
    RustFunctionFinder.extract_verus_blocks content = Some []
    /\ RustFunctionFinder.analyze_file content = Some [].
Proof.
  intros content Hc.
  assert (Hs : RustFunctionFinder.verus_search content 0 = None).
  { destruct (RustFunctionFinder.verus_search content 0) as [r|] eqn:E;
      [|reflexivity].
    unfold RustFunctionFinder.verus_search in E. simpl in E.
    apply verus_search_from_contains in E. congruence. }
  assert (Hb : RustFunctionFinder.extract_verus_blocks content = Some []).
  { unfold RustFunctionFinder.extract_verus_blocks. simpl. rewrite Hs.
    reflexivity. }
  split; [exact Hb|].
  unfold RustFunctionFinder.analyze_file. rewrite Hb. reflexivity.
Qed.

Lemma X8_witness :
  RustFunctionFinder.extract_verus_blocks (lit "fn main() { verus(); }") = Some []
  /\ RustFunctionFinder.analyze_file (lit "fn main() { verus(); }") = Some [].
Proof.
  apply (X8_no_macro_no_function (lit "fn main() { verus(); }")).
  vm_compute. reflexivity.
Defined.

(** ** The functions of a block *)

Lemma finditer_from_In {A : Type} (m : str -> option (nat * A)) skip pos s x :
  In x (Re.finditer_from m skip pos s) ->
  exists t n, m t = Some (n, snd x).
Proof.
  revert skip pos. induction s as [|c s IH]; intros skip pos; simpl; [intros []|].
  destruct skip as [|k]; [|apply IH].
  destruct (m (c :: s)) as [[n g]|] eqn:E; [|apply IH].
  intros [<-|Hin]; [exists (c :: s), n; exact E|apply (IH _ _ Hin)].
Qed.

Lemma fn_tail_identifier s name rest :
  RustFunctionFinder.fn_tail s = Some (name, rest) -> identifier name.
Proof.
  unfold RustFunctionFinder.fn_tail.
  destruct (drop_prefix (lit "fn") s) as [r|]; [|discriminate].
  destruct (Re.many1 is_space r) as [[ws [|c r2]]|]; try discriminate.
  destruct (is_ident_start c) eqn:Hc; [|discriminate].
  destruct (drop_prefix (lit "(")
              (drop_while is_space (drop_while is_ident_char r2)));
    [|discriminate].
  intros H. injection H as <- _. simpl. split; [exact Hc|apply take_while_all].
Qed.

Lemma modifiers_fn_identifier fuel g s g' name rest :
  RustFunctionFinder.modifiers_fn fuel g s = Some (g', name, rest) ->
  identifier name.
Proof.
  assert (Hstop : forall g s,
             RustFunctionFinder.modifiers_fn 0 g s = Some (g', name, rest) ->
             identifier name).
  { intros g0 s0. cbn [RustFunctionFinder.modifiers_fn].
    destruct (RustFunctionFinder.fn_tail s0) as [[n0 r0]|] eqn:E;
      [|discriminate].
    intros H. injection H as _ <- _. apply (fn_tail_identifier _ _ _ E). }
  revert g s. induction fuel as [|fuel IH]; intros g s; [apply Hstop|].
  rewrite modifiers_fn_S.
  destruct (RustFunctionFinder.keyword_space RustFunctionFinder.all_fn_keywords s)
    as [[gk r]|]; [|apply Hstop].
  destruct (RustFunctionFinder.modifiers_fn fuel (Some gk) r)
    as [res|] eqn:E; [|apply Hstop].
  intros H. injection H as ->. apply (IH _ _ E).
Qed.

Lemma optional_pub_inner {A : Type} (rest : str -> option A) s res :
  RustFunctionFinder.optional_pub rest s = Some res ->
  exists t, rest t = Some res.
Proof.
  unfold RustFunctionFinder.optional_pub.
  destruct (drop_prefix (lit "pub") s) as [r|]; [|intros H; exists s; exact H].
  destruct (Re.many1 is_space r) as [[ws r']|]; [|intros H; exists s; exact H].
  destruct (rest r') as [res'|] eqn:E; [|intros H; exists s; exact H].
  intros H. injection H as <-. exists r'. exact E.
Qed.

Lemma all_fn_pattern_identifier s n g1 name :
  RustFunctionFinder.all_fn_pattern s = Some (n, (g1, name)) -> identifier name.
Proof.
  unfold RustFunctionFinder.all_fn_pattern.
  destruct (RustFunctionFinder.optional_pub
              (RustFunctionFinder.modifiers_fn (List.length s) None) s)
    as [[[g n0] r]|] eqn:E; [|discriminate].
  intros H. injection H as _ _ <-.
  apply optional_pub_inner in E as (t & Ht).
  apply (modifiers_fn_identifier _ _ _ _ _ _ Ht).
Qed.

Lemma const_fn_pattern_identifier s n name :
  RustFunctionFinder.const_fn_pattern s = Some (n, name) -> identifier name.
Proof.
  unfold RustFunctionFinder.const_fn_pattern.
  destruct (RustFunctionFinder.optional_pub RustFunctionFinder.const_tail s)
    as [[n0 r]|] eqn:E; [|discriminate].
  intros H. injection H as _ <-.
  apply optional_pub_inner in E as (t & Ht).
  unfold RustFunctionFinder.const_tail in Ht.
  destruct (RustFunctionFinder.keyword_space
              [lit "spec"; lit "open"; lit "uninterp"] t); [discriminate|].
  destruct (drop_prefix (lit "const") t) as [r1|]; [|discriminate].
  destruct (Re.many1 is_space r1) as [[ws r2]|]; [|discriminate].
  apply (fn_tail_identifier _ _ _ Ht).
Qed.

Lemma general_functions_from start_line s ms f :
  In f (RustFunctionFinder.general_functions start_line s ms) ->
  exists start g1,
    In (start, (g1, fst f)) ms
    /\ snd f = RustFunctionFinder.line_of start_line s start.
Proof.
  induction ms as [|[start [g1 name]] ms IH];
    cbn [RustFunctionFinder.general_functions]; [intros []|].
  destruct (negb (existsb (fun kw => contains kw
                             (match g1 with Some k => k | None => [] end))
                    RustFunctionFinder.verus_keywords)).
  - intros [<-|Hin].
    + exists start, g1. split; [left; reflexivity|reflexivity].
    + destruct (IH Hin) as (st & g & H1 & H2). exists st, g. split; [right|]; auto.
  - intros Hin. destruct (IH Hin) as (st & g & H1 & H2).
    exists st, g. split; [right|]; auto.
Qed.

Lemma count_newlines_firstn_le (s : str) k :
  count_newlines (firstn k s) <= count_newlines s.
Proof.
  revert k. induction s as [|c s IH]; intros [|k]; simpl; try lia.
  specialize (IH k). lia.
Qed.

Lemma line_of_range start_line content start :
  (start_line + 1
   <= RustFunctionFinder.line_of start_line
        (RustFunctionFinder.remove_comments content) start
   <= start_line + 1 + Z.of_nat (count_newlines content))%Z.
Proof.
  unfold RustFunctionFinder.line_of.
  pose proof (count_newlines_firstn_le
                (RustFunctionFinder.remove_comments content) start).
  pose proof (Subseq_count_newlines _ _ (remove_comments_subseq content)).
  lia.
Qed.

(** X9: every entry reported for a block carries a name made of a letter
    or an underscore followed by letters, digits and underscores, and a line
    between the line after the block start and that line plus the number of
    newlines of the block. *)
Theorem X9_block_entries_are_identifiers_within_the_block :
  forall (block_content : str) (block_start_line : Z) (name : str) (l : Z),
    In (name, l)
       (RustFunctionFinder.extract_functions_from_block block_content
          block_start_line) ->
    identifier name
    /\ (block_start_line + 1 <= l
        <= block_start_line + 1 + Z.of_nat (count_newlines block_content))%Z.
Proof.
  intros block_content block_start_line name l.
  unfold RustFunctionFinder.extract_functions_from_block.
  intros Hin. apply in_app_or in Hin as [Hin|Hin].
  - apply general_functions_from in Hin as (start & g1 & Hin & Hl).
    simpl in Hin, Hl. subst l. split; [|apply line_of_range].
    apply finditer_from_In in Hin as (t & n & Ht). simpl in Ht.
    apply (all_fn_pattern_identifier _ _ _ _ Ht).
  - unfold RustFunctionFinder.const_functions in Hin.
    apply in_map_iff in Hin as ([start name'] & Heq & Hin).
    simpl in Heq. injection Heq as -> <-. split; [|apply line_of_range].
    apply finditer_from_In in Hin as (t & n & Ht). simpl in Ht.
    apply (const_fn_pattern_identifier _ _ _ Ht).
Qed.

Lemma X9_witness :
  identifier (lit "limit")
  /\ (1 + 1 <= 3 <= 1 + 1 + Z.of_nat (count_newlines const_fn_block))%Z.
Proof.
  apply (X9_block_entries_are_identifiers_within_the_block const_fn_block 1
           (lit "limit") 3).
  rewrite const_fn_block_functions. left. reflexivity.
Defined.

(** ** The diagnostic parser of [find_verus_functions_syn.py] *)

Lemma search_from_inner {A : Type} (m : str -> option A) pos s p r :
  Re.search_from m pos s = Some (p, r) -> exists a t, s = a ++ t /\ m t = Some r.
Proof.
  revert pos. induction s as [|c s IH]; intros pos; simpl.
  - destruct (m []) eqn:E; [|discriminate].
    intros H. injection H as _ <-. exists [], []. split; [reflexivity|exact E].
  - destruct (m (c :: s)) eqn:E.
    + intros H. injection H as _ <-. exists [], (c :: s).
      split; [reflexivity|exact E].
    + intros H. apply IH in H as (a & t & -> & Ht).
      exists (c :: a), t. split; [reflexivity|exact Ht].
Qed.

Lemma search_inner {A : Type} (m : str -> option A) s r :
  Re.search m s = Some r -> exists a t, s = a ++ t /\ m t = Some r.
Proof.
  unfold Re.search. destruct (Re.search_from m 0 s) as [[p r']|] eqn:E;
    [|discriminate].
  intros H. injection H as <-. apply (search_from_inner _ _ _ _ _ E).
Qed.

Lemma digits_value_nonneg (ds : str) : (0 <= digits_value ds)%Z.
Proof.
  unfold digits_value.
  assert (H : forall acc, (0 <= acc)%Z ->
            (0 <= fold_left (fun acc c => 10 * acc + digit_value c) ds acc)%Z).
  { induction ds as [|d ds IH]; intros acc Hacc; cbn [fold_left];
      [exact Hacc|].
    apply IH. unfold digit_value. lia. }
  apply H. lia.
Qed.

Lemma location_groups_file t f g2 g3 :
  Re.location_groups t = Some (f, g2, g3) -> f <> [].
Proof.
  unfold Re.location_groups.
  destruct (drop_prefix (lit "-->") t) as [r|]; [|discriminate].
  set (ws := take_while is_space r).
  set (u := take_while (Re.not_char ":"%char) (drop_while is_space r)).
  destruct u as [|c u'].
  - destruct (rev ws) as [|last [|x l]]; try discriminate.
    repeat break_match; try discriminate.
    intros H. injection H as <- _ _. discriminate.
  - destruct ws; [discriminate|].
    repeat break_match; try discriminate.
    intros H. injection H as <- _ _. discriminate.
Qed.

Lemma step_every_record (P : CompilationErrorParser.record -> Prop)
    flag st raw :
  (forall m l, P (CompilationErrorParser.new_record m l)) ->
  (forall r l, P r -> P (CompilationErrorParser.append_line r l)) ->
  (forall r x, P r -> P (CompilationErrorParser.add_message r x)) ->
  (forall r f g2 g3,
      Re.search Re.file_location_pattern (strip raw) = Some (f, g2, g3) ->
      P r ->
      P (CompilationErrorParser.set_location r f (digits_value g2)
           (digits_value g3))) ->
  every_record P st ->
  every_record P (CompilationErrorParser.step flag st raw).
Proof.
  intros Hnew Happ Hadd Hloc (He & Hw & Hce & Hcw).
  unfold CompilationErrorParser.step, CompilationErrorParser.continuation,
    CompilationErrorParser.continue_error.
  destruct st as [es ws ce cw]. simpl in *.
  repeat break_match; subst; simpl in *;
    unfold every_record; simpl;
    repeat split;
    auto 6 using flush_all, Forall_snoc.
Qed.

Lemma run_every_record (P : CompilationErrorParser.record -> Prop)
    flag st ls :
  (forall m l, P (CompilationErrorParser.new_record m l)) ->
  (forall r l, P r -> P (CompilationErrorParser.append_line r l)) ->
  (forall r x, P r -> P (CompilationErrorParser.add_message r x)) ->
  (forall r l f g2 g3,
      Re.search Re.file_location_pattern l = Some (f, g2, g3) ->
      P r ->
      P (CompilationErrorParser.set_location r f (digits_value g2)
           (digits_value g3))) ->
  every_record P st ->
  every_record P (CompilationErrorParser.run flag st ls).
Proof.
  intros Hnew Happ Hadd Hloc. unfold CompilationErrorParser.run.
  revert st. induction ls as [|raw ls IH]; intros st Hst; simpl; [exact Hst|].
  apply IH. apply step_every_record; auto. intros r f g2 g3. apply Hloc.
Qed.

Lemma well_located_kept :
  (forall m l, well_located (CompilationErrorParser.new_record m l))
  /\ (forall r l, well_located r ->
                  well_located (CompilationErrorParser.append_line r l))
  /\ (forall r x, well_located r ->
                  well_located (CompilationErrorParser.add_message r x))
  /\ (forall r l f g2 g3,
        Re.search Re.file_location_pattern l = Some (f, g2, g3) ->
        well_located r ->
        well_located (CompilationErrorParser.set_location r f (digits_value g2)
                        (digits_value g3))).
Proof.
  unfold well_located. repeat split; simpl; try discriminate; auto.
  - destruct (CompilationErrorParser.full_message r); discriminate.
  - tauto.
  - tauto.
  - tauto.
  - tauto.
  - right. exists f, (digits_value g2), (digits_value g3).
    apply search_inner in H as (a & t & _ & Ht).
    apply location_groups_file in Ht.
    repeat split; auto using digits_value_nonneg.
Qed.

(** X10: every error and warning record of [parse_compilation_output] has
    at least one raw line, and either no file, line and column at all, or a
    non-empty file together with a line and a column that are not
    negative. *)
Theorem X10_records_are_well_located :
  forall (output_content : str) (r : CompilationErrorParser.record),
    In r (fst (CompilationErrorParser.parse_compilation_output output_content)
          ++ snd (CompilationErrorParser.parse_compilation_output
                    output_content)) ->
    well_located r.
Proof.
  intros output_content r.
  unfold CompilationErrorParser.parse_compilation_output,
    CompilationErrorParser.parse_lines, CompilationErrorParser.finish.
  destruct well_located_kept as (Hnew & Happ & Hadd & Hloc).
  pose proof (run_every_record well_located
                (CompilationErrorParser.first_pass (lines output_content))
                CompilationErrorParser.init (lines output_content)
                Hnew Happ Hadd Hloc) as (He & Hw & Hce & Hcw).
  { unfold every_record. simpl. auto. }
  simpl. intros Hin. apply in_app_or in Hin as [Hin|Hin].
  - pose proof (flush_all well_located _ _ He Hce) as Hall.
    rewrite Forall_forall in Hall. apply Hall. exact Hin.
  - pose proof (flush_all well_located _ _ Hw Hcw) as Hall.
    rewrite Forall_forall in Hall. apply Hall. exact Hin.
Qed.

Lemma X10_witness :
  well_located
    (CompilationErrorParser.mk_record (lit "unknown start")
       (Some (lit "src/lib.rs")) (Some 4%Z) (Some 9%Z)
       [lit "error: unknown start"; lit "--> src/lib.rs:4:9"]).
Proof.
  apply (X10_records_are_well_located
           (lit "error: unknown start" ++ newline :: lit "  --> src/lib.rs:4:9")).
  vm_compute. left. reflexivity.
Defined.

Lemma step_record_count flag st raw :
  record_count (CompilationErrorParser.step flag st raw) <= record_count st + 1.
Proof.
  unfold CompilationErrorParser.step, CompilationErrorParser.continuation,
    CompilationErrorParser.flush, record_count.
  destruct st as [es ws ce cw]. simpl.
  repeat break_match; subst; simpl; rewrite ?length_app; simpl; try lia;
    try discriminate.
Qed.

Lemma run_record_count flag st ls :
  record_count (CompilationErrorParser.run flag st ls)
  <= record_count st + List.length ls.
Proof.
  unfold CompilationErrorParser.run. revert st.
  induction ls as [|raw ls IH]; intros st; simpl; [lia|].
  specialize (IH (CompilationErrorParser.step flag st raw)).
  pose proof (step_record_count flag st raw). lia.
Qed.

(** X11: [parse_compilation_output] returns at most as many records,
    errors and warnings together, as the text has lines. *)
Theorem X11_no_more_records_than_lines :
  forall output_content : str,
    List.length (fst (CompilationErrorParser.parse_compilation_output
                        output_content))
    + List.length (snd (CompilationErrorParser.parse_compilation_output
                          output_content))
    <= List.length (lines output_content).
Proof.
  intros output_content.
  unfold CompilationErrorParser.parse_compilation_output,
    CompilationErrorParser.parse_lines, CompilationErrorParser.finish.
  pose proof (run_record_count
                (CompilationErrorParser.first_pass (lines output_content))
                CompilationErrorParser.init (lines output_content)) as H.
  unfold record_count in H. simpl in H.
  destruct (CompilationErrorParser.run _ CompilationErrorParser.init _)
    as [es ws ce cw].
  simpl in *. unfold CompilationErrorParser.flush.
  destruct ce, cw; rewrite ?length_app; simpl; lia.
Qed.

Lemma split_on_first (sep : ascii) (s h : str) t :
  split_on sep s = h :: t -> exists b, s = h ++ b.
Proof.
  revert h t. induction s as [|c s IH]; intros h t; simpl.
  - intros H. injection H as <- _. exists []. reflexivity.
  - destruct (ch_eqb c sep).
    + intros H. injection H as <- _. exists (c :: s). reflexivity.
    + destruct (split_on sep s) as [|h' t'] eqn:E.
      * intros H. injection H as <- _. exists s. reflexivity.
      * intros H. injection H as <- _.
        destruct (IH h' t' eq_refl) as (b & ->). exists b. reflexivity.
Qed.

Lemma split_on_piece (sep : ascii) (s l : str) :
  In l (split_on sep s) -> exists a b, s = a ++ l ++ b.
Proof.
  revert l. induction s as [|c s IH]; intros l; simpl.
  - intros [<-|[]]. exists [], []. reflexivity.
  - destruct (ch_eqb c sep).
    + intros [<-|Hin]; [exists [], (c :: s); reflexivity|].
      destruct (IH l Hin) as (a & b & ->). exists (c :: a), b. reflexivity.
    + destruct (split_on sep s) as [|h t] eqn:E.
      * intros [<-|[]]. exists [], s. reflexivity.
      * intros [<-|Hin].
        -- destruct (split_on_first sep s h t E) as (b & ->).
           exists [], b. reflexivity.
        -- destruct (IH l (or_intror Hin)) as (a & b & ->).
           exists (c :: a), b. reflexivity.
Qed.

Lemma strip_piece (l : str) : exists a b, l = a ++ strip l ++ b.
Proof.
  unfold strip, rstrip, lstrip.
  exists (take_while is_space l),
         (rev (take_while is_space (rev (drop_while is_space l)))).
  rewrite <- rev_app_distr, <- take_drop_while, rev_involutive.
  apply take_drop_while.
Qed.

Lemma contains_piece (p s a b : str) :
  contains p s = true -> contains p (a ++ s ++ b) = true.
Proof.
  intros H. apply contains_split in H as (x & y & ->).
  replace (a ++ (x ++ p ++ y) ++ b) with ((a ++ x) ++ p ++ (y ++ b))
    by (rewrite <- !app_assoc; reflexivity).
  apply contains_app.
Qed.

Lemma search_contains {A : Type} (m : str -> option A) (p l : str) r :
  (forall t r', m t = Some r' -> startswith t p = true) ->
  Re.search m l = Some r -> contains p l = true.
Proof.
  intros Hm H. apply search_inner in H as (a & t & -> & Ht).
  apply Hm in Ht. apply startswith_split in Ht as (b & ->).
  apply contains_app.
Qed.

Ltac literal_prefix :=
  let E := fresh "E" in
  match goal with
  | |- match drop_prefix ?q ?t with _ => _ end = Some _ -> _ =>
      destruct (drop_prefix q t) eqn:E; [|discriminate];
      intros _; apply drop_prefix_Some in E; subst t; reflexivity
  end.

Lemma opener_prefixes :
  (forall t r, Re.cargo_error_pattern t = Some r ->
               startswith t (lit "error") = true)
  /\ (forall t r, Re.error_pattern t = Some r ->
                  startswith t (lit "error") = true)
  /\ (forall t r, Re.warning_pattern t = Some r ->
                  startswith t (lit "warning: ") = true)
  /\ (forall t r, Re.memory_error_pattern t = Some r ->
                  startswith t (lit "memory allocation of ") = true)
  /\ (forall t r, Re.process_error_pattern t = Some r ->
                  startswith t (lit "process didn't exit successfully: ") = true)
  /\ (forall t r, Re.verus_command_exit_pattern t = Some r ->
                  startswith t (lit "Verus command completed with exit code: ")
                  = true).
Proof.
  repeat split; intros t r.
  - unfold Re.cargo_error_pattern. literal_prefix.
  - unfold Re.error_pattern. literal_prefix.
  - unfold Re.warning_pattern. literal_prefix.
  - unfold Re.memory_error_pattern. literal_prefix.
  - unfold Re.process_error_pattern. literal_prefix.
  - unfold Re.verus_command_exit_pattern. literal_prefix.
Qed.

Lemma no_search {A : Type} (m : str -> option A) (p l : str) :
  (forall t r, m t = Some r -> startswith t p = true) ->
  contains p l = false -> Re.search m l = None.
Proof.
  intros Hm Hc. destruct (Re.search m l) as [r|] eqn:E; [|reflexivity].
  apply (search_contains m p l r Hm) in E. congruence.
Qed.

Lemma step_quiet flag raw :
  Forall (fun p => contains p (strip raw) = false) record_openers ->
  CompilationErrorParser.step flag CompilationErrorParser.init raw
  = CompilationErrorParser.init.
Proof.
  intros H. unfold record_openers in H.
  repeat match goal with
         | H : Forall _ (_ :: _) |- _ =>
             let H1 := fresh "Hq" in
             apply Forall_cons_iff in H; destruct H as [H1 H]
         end.
  destruct opener_prefixes as (P1 & P2 & P3 & P4 & P5 & P6).
  unfold CompilationErrorParser.step, CompilationErrorParser.matches.
  rewrite (no_search _ _ _ P1 Hq), (no_search _ _ _ P2 Hq),
    (no_search _ _ _ P3 Hq0), (no_search _ _ _ P4 Hq1),
    (no_search _ _ _ P5 Hq2), (no_search _ _ _ P6 Hq3).
  destruct (Re.search Re.verification_results_pattern (strip raw));
    [reflexivity|].
  destruct (Re.search Re.file_location_pattern (strip raw)) as [[[? ?] ?]|];
    reflexivity.
Qed.

(** X12: a text in which none of [error], [warning: ],
    [memory allocation of ], [process didn't exit successfully: ] and
    [Verus command completed with exit code: ] occurs gives no error and no
    warning. *)
Theorem X12_text_without_markers_has_no_record :
  forall output_content : str,
    Forall (fun p => contains p output_content = false) record_openers ->
    CompilationErrorParser.parse_compilation_output output_content = ([], []).
Proof.
  intros output_content Hq.
  unfold CompilationErrorParser.parse_compilation_output,
    CompilationErrorParser.parse_lines.
  assert (Hrun : forall flag ls,
             (forall raw, In raw ls -> In raw (lines output_content)) ->
             CompilationErrorParser.run flag CompilationErrorParser.init ls
             = CompilationErrorParser.init).
  { intros flag ls. unfold CompilationErrorParser.run.
    induction ls as [|raw ls IH]; intros Hin; [reflexivity|].
    cbn [fold_left]. rewrite step_quiet; [apply IH; intros; apply Hin; right;
                                          assumption|].
    eapply Forall_impl; [|exact Hq]. intros p Hp. cbv beta in *.
    destruct (contains p (strip raw)) eqn:E; [|reflexivity].
    destruct (split_on_piece newline output_content raw (Hin raw (or_introl eq_refl)))
      as (a & b & Hab).
    destruct (strip_piece raw) as (a' & b' & Hraw).
    rewrite Hab, Hraw in Hp.
    rewrite (contains_piece p _ a b (contains_piece p _ a' b' E)) in Hp.
    discriminate Hp. }
  rewrite Hrun by auto. reflexivity.
Qed.

Lemma X12_witness :
  CompilationErrorParser.parse_compilation_output
    (lit "   Compiling foo v0.1.0" ++ newline :: lit "  --> src/lib.rs:4:9")
  = ([], []).
Proof.
  apply X12_text_without_markers_has_no_record.
  repeat constructor.
Defined.

(** ** Verification failures *)

Lemma find_existsb {A : Type} (f : A -> bool) (l : list A) :
  existsb f l = match find f l with Some _ => true | None => false end.
Proof.
  induction l as [|x l IH]; simpl; [reflexivity|].
  destruct (f x); [reflexivity|exact IH].
Qed.

Lemma failure_at_detected i raw rest :
  match VerificationParser.failure_at i (raw :: rest) with
  | Some f =>
      failure_detected raw = true
      /\ VerificationParser.message f = Re.strip_ansi (strip (strip raw))
      /\ find (fun p => contains p (strip raw))
              VerificationParser.verification_error_types
         = Some (VerificationParser.error_type f)
  | None => failure_detected raw = false
  end.
Proof.
  unfold VerificationParser.failure_at, failure_detected.
  rewrite find_existsb.
  destruct (find (fun p => contains p (strip raw))
                 VerificationParser.verification_error_types) as [etype|];
    [|reflexivity].
  destruct (contains (lit "error") (lower (strip raw))); [|reflexivity].
  simpl. repeat split.
Qed.

Lemma failures_from_messages i rest :
  map VerificationParser.message (VerificationParser.failures_from i rest)
  = map (fun raw => Re.strip_ansi (strip (strip raw)))
        (filter failure_detected rest).
Proof.
  revert i. induction rest as [|raw rest IH]; intros i; [reflexivity|].
  change (VerificationParser.failures_from i (raw :: rest))
    with (match VerificationParser.failure_at i (raw :: rest) with
          | Some f => f :: VerificationParser.failures_from (S i) rest
          | None => VerificationParser.failures_from (S i) rest
          end).
  pose proof (failure_at_detected i raw rest) as H.
  cbn [filter].
  destruct (VerificationParser.failure_at i (raw :: rest)) as [f|].
  - destruct H as (Hd & Hm & _). rewrite Hd. cbn [map]. rewrite Hm, IH.
    reflexivity.
  - rewrite H. apply IH.
Qed.

(** X13: [parse_verification_failures] gives one failure for each line
    whose trimmed text holds one of the six phrases and the word [error] in
    any case, in the order of the lines; the message of the failure is that
    line, trimmed and without colour codes.  A line inside the window of an
    earlier failure is no exception. *)
Theorem X13_one_failure_per_detected_line :
  forall output_content : str,
    map VerificationParser.message
        (VerificationParser.parse_verification_failures output_content)
    = map (fun raw => Re.strip_ansi (strip (strip raw)))
          (filter failure_detected (lines output_content)).
Proof.
  intros output_content. apply failures_from_messages.
Qed.

Lemma capture_line_located j l c :
  capture_located c -> capture_located (VerificationParser.capture_line j l c).
Proof.
  unfold capture_located, VerificationParser.capture_line.
  destruct (Re.search VerificationParser.error_pattern l) as [[g1 g2]|];
    [|trivial].
  destruct (VerificationParser.location_found_at c) eqn:E; simpl;
    [trivial|].
  intros _. split; [discriminate|].
  exists (digits_value g2). split; [reflexivity|apply digits_value_nonneg].
Qed.

Lemma capture_loop_located n j rest c :
  capture_located c ->
  capture_located (VerificationParser.capture_loop n j rest c).
Proof.
  revert j rest c. induction n as [|n IH]; intros j rest c Hc; [exact Hc|].
  destruct rest as [|l rest]; [exact Hc|].
  cbn [VerificationParser.capture_loop].
  pose proof (capture_line_located j l c Hc) as H1.
  destruct (VerificationParser.capture_break j l rest
              (VerificationParser.capture_line j l c)); [exact H1|].
  apply IH. exact H1.
Qed.

Lemma failures_from_at i rest f :
  In f (VerificationParser.failures_from i rest) ->
  exists i' rest', VerificationParser.failure_at i' rest' = Some f.
Proof.
  revert i. induction rest as [|raw rest IH]; intros i; [intros []|].
  change (VerificationParser.failures_from i (raw :: rest))
    with (match VerificationParser.failure_at i (raw :: rest) with
          | Some f => f :: VerificationParser.failures_from (S i) rest
          | None => VerificationParser.failures_from (S i) rest
          end).
  destruct (VerificationParser.failure_at i (raw :: rest)) as [f0|] eqn:E;
    [|apply IH].
  intros [<-|Hin]; [exists i, (raw :: rest); exact E|apply (IH _ Hin)].
Qed.

Lemma firstn_incl_In {A : Type} (n : nat) (l : list A) (x : A) :
  In x (firstn n l) -> In x l.
Proof.
  revert l. induction n as [|n IH]; intros [|y l]; simpl; try tauto.
  intros [->|H]; [left; reflexivity|right; apply IH; exact H].
Qed.

(** X14: every verification failure names one of the six phrases, keeps at
    most ten detail lines, none of them empty, has a file exactly when it has
    a line, a column only when it has a line, and a line that is not
    negative. *)
Theorem X14_failure_records_are_well_formed :
  forall (output_content : str) (f : VerificationParser.failure),
    In f (VerificationParser.parse_verification_failures output_content) ->
    In (VerificationParser.error_type f)
       VerificationParser.verification_error_types
    /\ List.length (VerificationParser.assertion_details f) <= 10
    /\ ~ In [] (VerificationParser.assertion_details f)
    /\ (VerificationParser.file f = None <-> VerificationParser.line f = None)
    /\ (VerificationParser.line f = None -> VerificationParser.column f = None)
    /\ (forall l, VerificationParser.line f = Some l -> (0 <= l)%Z).
Proof.
  intros output_content f Hin.
  apply failures_from_at in Hin as (i & rest & Hat).
  unfold VerificationParser.failure_at in Hat.
  destruct rest as [|raw rest]; [discriminate|].
  destruct (find (fun p => contains p (strip raw))
                 VerificationParser.verification_error_types) as [etype|] eqn:Hf;
    [|discriminate].
  destruct (contains (lit "error") (lower (strip raw))); [|discriminate].
  remember (VerificationParser.capture_loop 15 i (raw :: rest)
              (VerificationParser.mk_capture [] None None None None)) as c eqn:Hc.
  assert (Hloc : capture_located c).
  { subst c. apply capture_loop_located. unfold capture_located. simpl. auto. }
  pose proof (f_equal (fun o => match o with Some x => x | None => f end) Hat)
    as Hfe.
  cbv beta iota in Hfe. subst f. clear Hat.
  cbn [VerificationParser.error_type VerificationParser.assertion_details
       VerificationParser.file VerificationParser.line
       VerificationParser.column].
  split; [apply find_some in Hf; tauto|].
  split; [apply firstn_le_length|].
  split.
  { intros Hin. apply firstn_incl_In in Hin. apply filter_In in Hin as [_ Hd].
    unfold VerificationParser.is_detail in Hd. simpl in Hd. discriminate Hd. }
  unfold capture_located in Hloc.
  destruct (VerificationParser.location_found_at c).
  - destruct Hloc as (Hfile & l & Hl & Hpos). rewrite Hl.
    destruct (VerificationParser.file_path c); [|congruence].
    simpl. repeat split; try discriminate.
    intros l' H. injection H as <-. exact Hpos.
  - destruct Hloc as (-> & -> & ->). simpl. repeat split; auto; discriminate.
Qed.

Lemma X14_witness :
  exists f,
    In f (VerificationParser.parse_verification_failures
            (lit "error: assertion failed" ++ newline
             :: lit "  --> src/lib.rs:4:9"))
    /\ VerificationParser.line f = Some 4%Z
    /\ In (VerificationParser.error_type f)
          VerificationParser.verification_error_types
    /\ List.length (VerificationParser.assertion_details f) <= 10.
Proof.
  pose proof (X14_failure_records_are_well_formed
                (lit "error: assertion failed" ++ newline
                 :: lit "  --> src/lib.rs:4:9")) as H.
  destruct (VerificationParser.parse_verification_failures
              (lit "error: assertion failed" ++ newline
               :: lit "  --> src/lib.rs:4:9")) as [|f fs] eqn:E;
    [vm_compute in E; discriminate E|].
  exists f. split; [left; reflexivity|].
  split; [vm_compute in E; injection E as <- _; reflexivity|].
  destruct (H f (or_introl eq_refl)) as (H1 & H2 & _). split; assumption.
Defined.

(** ** The status of [find_verus_functions_syn.py] *)

(** X15: in [analyze_output] the results summary decides.  When the output
    holds one, the status is never [compilation_failed], the parsed errors
    are reported unchanged, and the status is [verification_failed] exactly
    when a failure was parsed; when it holds none, the status is never
    [verification_failed], and it is [compilation_failed] exactly when the
    reported error list is not empty.  Warnings and failures are reported as
    parsed. *)
Theorem X15_results_summary_decides_the_status :
  forall (output_content : str) (exit_code : option Z),
    let r := VerusAnalyzer.analyze_output output_content exit_code in
    (CompilationErrorParser.has_verification_results output_content = true ->
     VerusAnalyzer.report_status r <> VerusAnalyzer.compilation_failed
     /\ VerusAnalyzer.compilation_errors r
        = fst (CompilationErrorParser.parse_compilation_output output_content)
     /\ (VerusAnalyzer.report_status r = VerusAnalyzer.verification_failed
         <-> VerificationParser.parse_verification_failures output_content
             <> []))
    /\ (CompilationErrorParser.has_verification_results output_content = false ->
        VerusAnalyzer.report_status r <> VerusAnalyzer.verification_failed
        /\ (VerusAnalyzer.report_status r = VerusAnalyzer.compilation_failed
            <-> VerusAnalyzer.compilation_errors r <> []))
    /\ VerusAnalyzer.compilation_warnings r
       = snd (CompilationErrorParser.parse_compilation_output output_content)
    /\ VerusAnalyzer.verification_errors r
       = VerificationParser.parse_verification_failures output_content.
Proof.
  intros output_content exit_code. unfold VerusAnalyzer.analyze_output.
  destruct (CompilationErrorParser.parse_compilation_output output_content)
    as [errs warns].
  generalize (VerificationParser.parse_verification_failures output_content)
    as failures.
  generalize (CompilationErrorParser.has_verification_results output_content)
    as summary.
  intros summary failures. unfold VerusAnalyzer.decide_status.
  destruct summary, failures as [|f fs], errs as [|e es],
    exit_code as [n|]; try destruct (n =? 0)%Z; simpl;
    repeat split; intros; try discriminate; try congruence.
Qed.

Lemma X15_witness :
  VerusAnalyzer.report_status
    (VerusAnalyzer.analyze_output
       (lit "error: could not open" ++ newline
        :: lit "verification results:: 1 verified, 0 errors") (Some 1%Z))
  <> VerusAnalyzer.compilation_failed
  /\ VerusAnalyzer.compilation_errors
       (VerusAnalyzer.analyze_output
          (lit "error: could not open" ++ newline
           :: lit "verification results:: 1 verified, 0 errors") (Some 1%Z))
     = [CompilationErrorParser.new_record (lit "could not open")
          (lit "error: could not open")].
Proof.
  destruct (X15_results_summary_decides_the_status
              (lit "error: could not open" ++ newline
               :: lit "verification results:: 1 verified, 0 errors") (Some 1%Z))
    as (H & _).
  destruct (H ltac:(vm_compute; reflexivity)) as (H1 & H2 & _).
  split; [exact H1|]. rewrite H2. vm_compute. reflexivity.
Defined.

(** ** The diagnostic parser of [find_verus_functions.py] *)

Lemma step_regex_every_record (P : CompilationErrorParser.record -> Prop)
    st raw :
  (forall m l, P (CompilationErrorParser.new_record m l)) ->
  (forall r l, P r -> P (CompilationErrorParser.append_line r l)) ->
  (forall r x, P r -> P (CompilationErrorParser.add_message r x)) ->
  (forall r f g2 g3,
      Re.search Re.file_location_pattern (strip raw) = Some (f, g2, g3) ->
      P r ->
      P (CompilationErrorParser.set_location r f (digits_value g2)
           (digits_value g3))) ->
  every_record P st ->
  every_record P (CompilationErrorParserRegex.step st raw).
Proof.
  intros Hnew Happ Hadd Hloc (He & Hw & Hce & Hcw).
  unfold CompilationErrorParserRegex.step,
    CompilationErrorParserRegex.continuation,
    CompilationErrorParserRegex.continue_error.
  destruct st as [es ws ce cw]. simpl in *.
  repeat break_match; subst; simpl in *;
    unfold every_record; simpl;
    repeat split;
    auto 6 using flush_all, Forall_snoc.
Qed.

Lemma run_regex_every_record (P : CompilationErrorParser.record -> Prop)
    st ls :
  (forall m l, P (CompilationErrorParser.new_record m l)) ->
  (forall r l, P r -> P (CompilationErrorParser.append_line r l)) ->
  (forall r x, P r -> P (CompilationErrorParser.add_message r x)) ->
  (forall r l f g2 g3,
      Re.search Re.file_location_pattern l = Some (f, g2, g3) ->
      P r ->
      P (CompilationErrorParser.set_location r f (digits_value g2)
           (digits_value g3))) ->
  every_record P st ->
  every_record P (CompilationErrorParserRegex.run st ls).
Proof.
  intros Hnew Happ Hadd Hloc. unfold CompilationErrorParserRegex.run.
  revert st. induction ls as [|raw ls IH]; intros st Hst; simpl; [exact Hst|].
  apply IH. apply step_regex_every_record; auto. intros r f g2 g3. apply Hloc.
Qed.

Lemma step_regex_shift es ws st raw :
  CompilationErrorParserRegex.step (shift es ws st) raw
  = shift es ws (CompilationErrorParserRegex.step st raw).
Proof.
  unfold CompilationErrorParserRegex.step,
    CompilationErrorParserRegex.continuation.
  destruct st as [e w ce cw]. unfold shift. simpl.
  repeat break_match; subst; simpl;
    rewrite ?flush_app, ?app_assoc; try reflexivity; try congruence.
Qed.

Lemma run_regex_shift es ws st ls :
  CompilationErrorParserRegex.run (shift es ws st) ls
  = shift es ws (CompilationErrorParserRegex.run st ls).
Proof.
  unfold CompilationErrorParserRegex.run. revert st.
  induction ls as [|raw ls IH]; intros st; simpl; [reflexivity|].
  rewrite step_regex_shift. apply IH.
Qed.

Lemma step_regex_blank st :
  every_record well_located st ->
  CompilationErrorParserRegex.step st []
  = shift (fst (CompilationErrorParser.finish st))
          (snd (CompilationErrorParser.finish st)) CompilationErrorParser.init.
Proof.
  intros (_ & _ & Hce & Hcw).
  destruct st as [e w ce cw]. unfold shift. simpl in *.
  destruct ce as [[m1 f1 l1 c1 fm1]|], cw as [[m2 f2 l2 c2 fm2]|];
    simpl in *; unfold well_located in *; simpl in *;
    try (destruct fm1; [tauto|]); try (destruct fm2; [tauto|]);
    cbn; rewrite ?app_nil_r; reflexivity.
Qed.

Lemma run_regex_well_located ls :
  every_record well_located
    (CompilationErrorParserRegex.run CompilationErrorParser.init ls).
Proof.
  destruct well_located_kept as (Hnew & Happ & Hadd & Hloc).
  apply run_regex_every_record; auto.
  unfold every_record. simpl. auto.
Qed.

(** X16: in [find_verus_functions.py], parsing two streams joined by a
    blank line gives the error records of the first followed by those of the
    second, and likewise the warning records, whatever the streams hold. *)
Theorem X16_regex_parse_of_blank_joined_streams :
  forall s1 s2 : str,
    CompilationErrorParserRegex.parse_compilation_output (blank_joined s1 s2)
    = (fst (CompilationErrorParserRegex.parse_compilation_output s1)
       ++ fst (CompilationErrorParserRegex.parse_compilation_output s2),
       snd (CompilationErrorParserRegex.parse_compilation_output s1)
       ++ snd (CompilationErrorParserRegex.parse_compilation_output s2)).
Proof.
  intros s1 s2.
  unfold CompilationErrorParserRegex.parse_compilation_output,
    CompilationErrorParserRegex.parse_lines.
  rewrite lines_blank_joined.
  unfold CompilationErrorParserRegex.run at 1. rewrite fold_left_app.
  change (fold_left CompilationErrorParserRegex.step ([] :: lines s2)
            (fold_left CompilationErrorParserRegex.step (lines s1)
               CompilationErrorParser.init))
    with (CompilationErrorParserRegex.run
            (CompilationErrorParserRegex.step
               (CompilationErrorParserRegex.run CompilationErrorParser.init
                  (lines s1)) [])
            (lines s2)).
  rewrite step_regex_blank by apply run_regex_well_located.
  rewrite run_regex_shift, finish_shift. reflexivity.
Qed.

(** X17: the records of [find_verus_functions.py] have the same shape: at
    least one raw line, and no location at all or a non-empty file with a
    line and a column that are not negative. *)
Theorem X17_regex_records_are_well_located :
  forall (output_content : str) (r : CompilationErrorParser.record),
    In r (fst (CompilationErrorParserRegex.parse_compilation_output
                 output_content)
          ++ snd (CompilationErrorParserRegex.parse_compilation_output
                    output_content)) ->
    well_located r.
Proof.
  intros output_content r.
  unfold CompilationErrorParserRegex.parse_compilation_output,
    CompilationErrorParserRegex.parse_lines, CompilationErrorParser.finish.
  pose proof (run_regex_well_located (lines output_content))
    as (He & Hw & Hce & Hcw).
  simpl. intros Hin. apply in_app_or in Hin as [Hin|Hin].
  - pose proof (flush_all well_located _ _ He Hce) as Hall.
    rewrite Forall_forall in Hall. apply Hall. exact Hin.
  - pose proof (flush_all well_located _ _ Hw Hcw) as Hall.
    rewrite Forall_forall in Hall. apply Hall. exact Hin.
Qed.

Lemma X17_witness :
  well_located
    (CompilationErrorParser.mk_record (lit "assertion failed")
       (Some (lit "src/lib.rs")) (Some 4%Z) (Some 9%Z)
       [lit "error: assertion failed"; lit "--> src/lib.rs:4:9"]).
Proof.
  apply (X17_regex_records_are_well_located
           (lit "error: assertion failed" ++ newline
            :: lit "  --> src/lib.rs:4:9")).
  vm_compute. left. reflexivity.
Defined.

Lemma step_regex_some_error st raw :
  some_error st -> some_error (CompilationErrorParserRegex.step st raw).
Proof.
  unfold some_error, CompilationErrorParserRegex.step,
    CompilationErrorParserRegex.continuation, CompilationErrorParser.flush.
  destruct st as [es ws ce cw]. simpl.
  intros H.
  assert (Hsnoc : forall x, es ++ [x] <> [])
    by (intros x; destruct es; discriminate).
  repeat break_match; subst; simpl;
    try (right; discriminate); try (left; apply Hsnoc); try exact H;
    try (destruct H as [H|H]; [left; exact H|congruence]).
Qed.

Lemma run_regex_some_error st ls :
  some_error st -> some_error (CompilationErrorParserRegex.run st ls).
Proof.
  unfold CompilationErrorParserRegex.run. revert st.
  induction ls as [|raw ls IH]; intros st H; simpl; [exact H|].
  apply IH, step_regex_some_error, H.
Qed.

Lemma step_regex_opens st raw :
  opens_error_regex raw = true ->
  some_error (CompilationErrorParserRegex.step st raw).
Proof.
  unfold opens_error_regex, CompilationErrorParser.matches,
    some_error, CompilationErrorParserRegex.step, CompilationErrorParser.flush.
  destruct st as [es ws ce cw]. simpl.
  assert (Hsnoc : forall x, es ++ [x] <> [])
    by (intros x; destruct es; discriminate).
  destruct (Re.search Re.cargo_error_pattern (strip raw));
    [intros _; right; discriminate|].
  unfold CompilationErrorParser.matches.
  destruct (Re.search Re.memory_error_pattern (strip raw)).
  { intros _. destruct ce; simpl; [right; discriminate|left; apply Hsnoc]. }
  destruct (Re.search Re.process_error_pattern (strip raw)).
  { intros _. destruct ce; simpl; right; discriminate. }
  destruct (Re.search Re.error_pattern (strip raw));
    [intros _; right; discriminate|].
  simpl. discriminate.
Qed.

Lemma step_regex_quiet st raw :
  opens_error_regex raw = false ->
  CompilationErrorParser.errors st = [] ->
  CompilationErrorParser.current_error st = None ->
  CompilationErrorParser.errors (CompilationErrorParserRegex.step st raw) = []
  /\ CompilationErrorParser.current_error
       (CompilationErrorParserRegex.step st raw) = None.
Proof.
  unfold opens_error_regex, CompilationErrorParser.matches,
    CompilationErrorParserRegex.step,
    CompilationErrorParserRegex.continuation.
  destruct st as [es ws ce cw]. simpl. intros Hq -> ->.
  destruct (Re.search Re.cargo_error_pattern (strip raw)); [discriminate Hq|].
  destruct (Re.search Re.error_pattern (strip raw)); [discriminate Hq|].
  unfold CompilationErrorParser.matches.
  destruct (Re.search Re.memory_error_pattern (strip raw)); [discriminate Hq|].
  destruct (Re.search Re.process_error_pattern (strip raw)); [discriminate Hq|].
  repeat break_match; simpl; auto.
Qed.

Lemma regex_errors_nil_iff (output_content : str) :
  fst (CompilationErrorParserRegex.parse_compilation_output output_content)
  = []
  <-> existsb opens_error_regex (lines output_content) = false.
Proof.
  unfold CompilationErrorParserRegex.parse_compilation_output,
    CompilationErrorParserRegex.parse_lines, CompilationErrorParser.finish.
  cbn [fst].
  assert (Hflush : forall st,
             CompilationErrorParser.flush (CompilationErrorParser.errors st)
               (CompilationErrorParser.current_error st) = []
             <-> ~ some_error st).
  { intros [es ws ce cw]. unfold some_error. simpl.
    destruct ce as [e|]; simpl.
    - split; [destruct es; discriminate|]. intros H. exfalso. apply H.
      right. discriminate.
    - split; [intros ->; intros [H|H]; congruence|].
      intros H. destruct es; [reflexivity|]. exfalso. apply H. left.
      discriminate. }
  rewrite Hflush. split.
  - intros Hno. destruct (existsb opens_error_regex (lines output_content))
      eqn:E; [|reflexivity].
    exfalso. apply Hno. apply existsb_exists in E as (raw & Hin & Hraw).
    apply in_split in Hin as (l1 & l2 & ->).
    unfold CompilationErrorParserRegex.run. rewrite fold_left_app.
    cbn [fold_left]. apply run_regex_some_error, step_regex_opens, Hraw.
  - intros Hq.
    assert (Hrun : forall ls st,
               existsb opens_error_regex ls = false ->
               CompilationErrorParser.errors st = [] ->
               CompilationErrorParser.current_error st = None ->
               ~ some_error (CompilationErrorParserRegex.run st ls)).
    { unfold CompilationErrorParserRegex.run.
      induction ls as [|raw ls IH]; intros st Hex He Hc.
      - intros [H|H]; simpl in H; congruence.
      - cbn [existsb] in Hex. apply orb_false_iff in Hex as [Hraw Hex].
        destruct (step_regex_quiet st raw Hraw He Hc) as [He' Hc'].
        cbn [fold_left]. apply (IH _ Hex He' Hc'). }
    apply (Hrun _ _ Hq); reflexivity.
Qed.

(** X18: in [find_verus_functions.py] the list of errors is empty exactly
    when no trimmed line of the output matches the crate-failure, error,
    memory-allocation or process-failure pattern: a verification failure such
    as [error: assertion failed] is always reported as a compilation
    error. *)
Theorem X18_regex_errors_empty_iff_no_error_line :
  forall output_content : str,
    fst (CompilationErrorParserRegex.parse_compilation_output output_content)
    = []
    <-> existsb opens_error_regex (lines output_content) = false.
Proof. exact regex_errors_nil_iff. Qed.


(** ** Errors by file *)

Lemma str_eqb_neq (a b : str) : str_eqb a b = false <-> a <> b.
Proof.
  split.
  - intros H Heq. apply str_eqb_eq in Heq. congruence.
  - intros H. destruct (str_eqb a b) eqn:E; [|reflexivity].
    apply str_eqb_eq in E. contradiction.
Qed.

Lemma lines_of_record f n d file :
  lines_of file (VerificationOutput.record_error f n d)
  = if str_eqb f file then lines_of file d ++ [n] else lines_of file d.
Proof.
  induction d as [|[k v] d IH]; cbn [VerificationOutput.record_error lines_of].
  - destruct (str_eqb f file); reflexivity.
  - destruct (str_eqb k f) eqn:Hkf; cbn [lines_of].
    + apply str_eqb_eq in Hkf. subst k.
      destruct (str_eqb f file); reflexivity.
    + rewrite IH. destruct (str_eqb k file) eqn:Hk; [|reflexivity].
      apply str_eqb_eq in Hk. subst k.
      destruct (str_eqb f file) eqn:Hf; [|reflexivity].
      apply str_eqb_eq in Hf. subst f. rewrite str_eqb_refl in Hkf.
      discriminate Hkf.
Qed.

Lemma record_error_keys f n d k :
  In k (map fst (VerificationOutput.record_error f n d)) ->
  k = f \/ In k (map fst d).
Proof.
  induction d as [|[k0 v] d IH]; cbn [VerificationOutput.record_error].
  - simpl. intros [<-|[]]. left. reflexivity.
  - destruct (str_eqb k0 f); simpl; [auto|].
    intros [<-|H]; [auto|]. destruct (IH H); auto.
Qed.

Lemma record_error_well_keyed f n d :
  well_keyed d -> well_keyed (VerificationOutput.record_error f n d).
Proof.
  unfold well_keyed. induction d as [|[k v] d IH];
    cbn [VerificationOutput.record_error].
  - intros _. simpl. split; [repeat constructor; intros []|].
    repeat constructor. simpl. discriminate.
  - intros [Hnd Hall]. simpl in Hnd. inversion Hnd as [|? ? Hnotin Hnd']; subst.
    inversion Hall as [|? ? Hv Hall']; subst.
    destruct (str_eqb k f) eqn:Hkf.
    + simpl. split; [constructor; assumption|].
      constructor; [|assumption]. simpl. destruct v; discriminate.
    + destruct (IH (conj Hnd' Hall')) as [IH1 IH2].
      simpl. split; [|constructor; assumption].
      constructor; [|exact IH1].
      intros Hin. apply record_error_keys in Hin as [->|Hin]; [|contradiction].
      rewrite str_eqb_refl in Hkf. discriminate Hkf.
Qed.

Lemma lines_naming_app file a b :
  lines_naming file (a ++ b) = lines_naming file a ++ lines_naming file b.
Proof. unfold lines_naming. rewrite filter_app, map_app. reflexivity. Qed.

Lemma regex_step_lines file d line :
  lines_of file (VerificationOutput.regex_step d line)
  = lines_of file d ++ lines_naming file (location_of line).
Proof.
  unfold VerificationOutput.regex_step, location_of, lines_naming.
  destruct (Re.search VerificationParser.error_pattern line) as [[g1 g2]|];
    [|simpl; rewrite app_nil_r; reflexivity].
  rewrite lines_of_record. simpl.
  destruct (str_eqb g1 file); simpl; [reflexivity|rewrite app_nil_r; reflexivity].
Qed.

Lemma regex_fold_lines file ls d :
  lines_of file (fold_left VerificationOutput.regex_step ls d)
  = lines_of file d ++ lines_naming file (locations ls).
Proof.
  revert d. induction ls as [|line ls IH]; intros d; cbn [fold_left].
  - unfold locations, lines_naming. simpl. rewrite app_nil_r. reflexivity.
  - rewrite IH, regex_step_lines. unfold locations. cbn [flat_map].
    rewrite lines_naming_app, app_assoc. reflexivity.
Qed.

Lemma regex_fold_well_keyed ls d :
  well_keyed d -> well_keyed (fold_left VerificationOutput.regex_step ls d).
Proof.
  revert d. induction ls as [|line ls IH]; intros d Hd; cbn [fold_left];
    [exact Hd|].
  apply IH. unfold VerificationOutput.regex_step.
  destruct (Re.search VerificationParser.error_pattern line) as [[g1 g2]|];
    [apply record_error_well_keyed|]; exact Hd.
Qed.

Lemma well_keyed_nil : well_keyed [].
Proof. split; constructor. Qed.

(** X19: in [find_verus_functions.py], [parse_verification_output] files
    under each path the line numbers of all the location lines that name
    exactly that path, in the order of the output; no path is a key twice and
    no key has an empty list.  A file that cannot be read gives the empty
    dictionary. *)
Theorem X19_regex_errors_by_file_groups_the_locations :
  forall (content file : str),
    lines_of file (VerificationOutput.parse_verification_output_regex
                     (Some content))
    = lines_naming file (locations (lines content))
    /\ well_keyed (VerificationOutput.parse_verification_output_regex
                     (Some content))
    /\ VerificationOutput.parse_verification_output_regex None = [].
Proof.
  intros content file. unfold VerificationOutput.parse_verification_output_regex.
  split; [apply (regex_fold_lines file (lines content) [])|].
  split; [apply regex_fold_well_keyed, well_keyed_nil|reflexivity].
Qed.

Lemma from_content_loop_lines file all_lines i rest d :
  lines_of file (VerificationOutput.from_content_loop all_lines i rest d)
  = lines_of file d
    ++ lines_naming file (accepted_locations all_lines i rest).
Proof.
  revert i d. induction rest as [|line rest IH]; intros i d;
    cbn [VerificationOutput.from_content_loop accepted_locations].
  - unfold lines_naming. simpl. rewrite app_nil_r. reflexivity.
  - rewrite IH, lines_naming_app, app_assoc. f_equal.
    unfold location_of.
    destruct (Re.search VerificationParser.error_pattern line) as [[g1 g2]|];
      [|destruct (VerificationOutput.is_actual_error _);
        unfold lines_naming; simpl; rewrite app_nil_r; reflexivity].
    destruct (VerificationOutput.is_actual_error
                (VerificationOutput.lookback all_lines i)).
    + rewrite lines_of_record. unfold lines_naming. simpl.
      destruct (str_eqb g1 file); simpl;
        [reflexivity|rewrite app_nil_r; reflexivity].
    + unfold lines_naming. simpl. rewrite app_nil_r. reflexivity.
Qed.

Lemma from_content_loop_well_keyed all_lines i rest d :
  well_keyed d ->
  well_keyed (VerificationOutput.from_content_loop all_lines i rest d).
Proof.
  revert i d. induction rest as [|line rest IH]; intros i d Hd;
    cbn [VerificationOutput.from_content_loop]; [exact Hd|].
  apply IH.
  destruct (Re.search VerificationParser.error_pattern line) as [[g1 g2]|];
    [|exact Hd].
  destruct (VerificationOutput.is_actual_error
              (VerificationOutput.lookback all_lines i));
    [apply record_error_well_keyed|]; exact Hd.
Qed.

Lemma Subseq_refl {A : Type} (l : list A) : Subseq l l.
Proof. induction l; [apply Subseq_nil|apply Subseq_cons; assumption]. Qed.

Lemma Subseq_app {A : Type} (a a' b b' : list A) :
  Subseq a a' -> Subseq b b' -> Subseq (a ++ b) (a' ++ b').
Proof.
  intros Ha Hb. induction Ha; simpl;
    [exact Hb|apply Subseq_skip; assumption|apply Subseq_cons; assumption].
Qed.

Lemma Subseq_filter {A : Type} (f : A -> bool) (a b : list A) :
  Subseq a b -> Subseq (filter f a) (filter f b).
Proof.
  induction 1 as [|l1 l2 x H IH|l1 l2 x H IH]; simpl.
  - apply Subseq_nil.
  - destruct (f x); [apply Subseq_skip|]; exact IH.
  - destruct (f x); [apply Subseq_cons|]; exact IH.
Qed.

Lemma Subseq_map {A B : Type} (f : A -> B) (a b : list A) :
  Subseq a b -> Subseq (map f a) (map f b).
Proof.
  induction 1; simpl;
    [apply Subseq_nil|apply Subseq_skip; assumption
    |apply Subseq_cons; assumption].
Qed.

Lemma accepted_locations_subseq all_lines i rest :
  Subseq (accepted_locations all_lines i rest) (locations rest).
Proof.
  revert i. induction rest as [|line rest IH]; intros i;
    cbn [accepted_locations]; [apply Subseq_nil|].
  unfold locations. cbn [flat_map]. apply Subseq_app; [|apply IH].
  destruct (VerificationOutput.is_actual_error _);
    [apply Subseq_refl|apply Subseq_nil_l].
Qed.

(** X20: in [find_verus_functions_syn.py],
    [parse_verification_output_from_content] records a selection of what the
    earlier script records: under each path, the line numbers it files are
    those of the earlier script with some left out, in the same order.  No
    path is a key twice and no key has an empty list. *)
Theorem X20_syn_errors_by_file_are_among_the_regex_ones :
  forall (content file : str),
    Subseq
      (lines_of file
         (VerificationOutput.parse_verification_output_from_content content))
      (lines_of file
         (VerificationOutput.parse_verification_output_regex (Some content)))
    /\ well_keyed
         (VerificationOutput.parse_verification_output_from_content content).
Proof.
  intros content file.
  unfold VerificationOutput.parse_verification_output_from_content,
    VerificationOutput.parse_verification_output_regex.
  split; [|apply from_content_loop_well_keyed, well_keyed_nil].
  rewrite from_content_loop_lines, regex_fold_lines. simpl.
  unfold lines_naming. apply Subseq_map, Subseq_filter.
  apply accepted_locations_subseq.
Qed.

Lemma is_actual_error_header window :
  VerificationOutput.is_actual_error window = true ->
  exists raw, In raw window /\ error_header raw = true.
Proof.
  induction window as [|raw window IH];
    cbn [VerificationOutput.is_actual_error]; [discriminate|].
  destruct ((startswith (strip raw) (lit "error:")
             || startswith (strip raw) (lit "error["))
            && negb (startswith (strip raw) (lit "note:")
                     || VerificationOutput.mentions_timing (strip raw))) eqn:E.
  - intros _. exists raw. split; [left; reflexivity|].
    apply andb_true_iff in E as [E _]. exact E.
  - destruct (startswith (strip raw) (lit "note:")
              && VerificationOutput.mentions_timing (strip raw));
      [discriminate|].
    intros H. destruct (IH H) as (r & Hin & Hr). exists r. split; [right|]; auto.
Qed.

Lemma skipn_incl_In {A : Type} (n : nat) (l : list A) (x : A) :
  In x (skipn n l) -> In x l.
Proof.
  revert l. induction n as [|n IH]; intros [|y l]; simpl; try tauto.
  intros H. right. apply IH. exact H.
Qed.

Lemma from_content_loop_no_header all_lines i rest d :
  existsb error_header all_lines = false ->
  VerificationOutput.from_content_loop all_lines i rest d = d.
Proof.
  intros Hno. revert i d. induction rest as [|line rest IH]; intros i d;
    cbn [VerificationOutput.from_content_loop]; [reflexivity|].
  rewrite IH.
  destruct (Re.search VerificationParser.error_pattern line) as [[g1 g2]|];
    [|reflexivity].
  destruct (VerificationOutput.is_actual_error
              (VerificationOutput.lookback all_lines i)) eqn:E; [|reflexivity].
  apply is_actual_error_header in E as (raw & Hin & Hraw).
  unfold VerificationOutput.lookback in Hin.
  apply firstn_incl_In, skipn_incl_In in Hin.
  assert (Hex : existsb error_header all_lines = true)
    by (apply existsb_exists; exists raw; auto).
  congruence.
Qed.

(** X21: in [find_verus_functions_syn.py], when no trimmed line of the
    output starts with [error:] or [error[], no location is recorded: the
    locations under warnings and notes alone give the empty dictionary, and
    so does a file that cannot be read. *)
Theorem X21_syn_no_error_header_no_location :
  forall content : str,
    existsb error_header (lines content) = false ->
    VerificationOutput.parse_verification_output (Some content) = []
    /\ VerificationOutput.parse_verification_output None = [].
Proof.
  intros content Hno. split; [|reflexivity].
  apply from_content_loop_no_header. exact Hno.
Qed.

Lemma X21_witness :
  VerificationOutput.parse_verification_output
    (Some (lit "warning: unused import" ++ newline :: lit "  --> src/lib.rs:4:9"))
  = []
  /\ VerificationOutput.parse_verification_output_regex
       (Some (lit "warning: unused import" ++ newline
              :: lit "  --> src/lib.rs:4:9"))
     = [(lit "src/lib.rs", [4%Z])].
Proof.
  split; [|vm_compute; reflexivity].
  apply (X21_syn_no_error_header_no_location
           (lit "warning: unused import" ++ newline :: lit "  --> src/lib.rs:4:9")).
  vm_compute. reflexivity.
Defined.

(** ** Sets of names *)

Lemma mem_In x s : NameSet.mem x s = true <-> In x s.
Proof.
  unfold NameSet.mem. rewrite existsb_exists. split.
  - intros (y & Hin & Heq). apply str_eqb_eq in Heq. subst y. exact Hin.
  - intros Hin. exists x. split; [exact Hin|apply str_eqb_refl].
Qed.

Lemma add_In x s y : In y (NameSet.add x s) <-> y = x \/ In y s.
Proof.
  unfold NameSet.add. destruct (NameSet.mem x s) eqn:E.
  - apply mem_In in E. split; [auto|]. intros [->|H]; assumption.
  - rewrite in_app_iff. simpl. split; intros [H|H]; auto.
    destruct H as [H|[]]. auto.
Qed.

Lemma add_NoDup x s : NoDup s -> NoDup (NameSet.add x s).
Proof.
  unfold NameSet.add. destruct (NameSet.mem x s) eqn:E; [trivial|].
  intros Hnd. assert (Hx : ~ In x s).
  { intros Hin. apply mem_In in Hin. congruence. }
  clear E. induction Hnd as [|y s Hy Hnd IH]; simpl.
  - constructor; [intros []|constructor].
  - constructor.
    + rewrite in_app_iff. simpl. intros [H|[H|[]]]; [contradiction|].
      subst y. apply Hx. left. reflexivity.
    + apply IH. intros Hin. apply Hx. right. exact Hin.
Qed.

Lemma discard_In x s y : In y (NameSet.discard x s) <-> In y s /\ y <> x.
Proof.
  unfold NameSet.discard. rewrite filter_In. split; intros [H1 H2]; split; auto.
  - apply negb_true_iff, str_eqb_neq in H2. exact H2.
  - apply negb_true_iff, str_eqb_neq. exact H2.
Qed.

Lemma discard_NoDup x s : NoDup s -> NoDup (NameSet.discard x s).
Proof. apply NoDup_filter. Qed.

Lemma insert_sorted_In x l y :
  In y (NameSet.insert_sorted x l) <-> y = x \/ In y l.
Proof.
  induction l as [|z l IH]; simpl.
  - split; [intros [H|[]]; auto|intros [H|[]]; auto].
  - destruct (NameSet.str_leb x z); simpl; [split; intros [H|H]; auto|].
    rewrite IH. tauto.
Qed.

Lemma insert_sorted_length x l :
  List.length (NameSet.insert_sorted x l) = S (List.length l).
Proof.
  induction l as [|z l IH]; simpl; [reflexivity|].
  destruct (NameSet.str_leb x z); simpl; [reflexivity|]. rewrite IH. reflexivity.
Qed.

Lemma sorted_In s y : In y (NameSet.sorted s) <-> In y s.
Proof.
  unfold NameSet.sorted. induction s as [|x s IH]; simpl; [tauto|].
  rewrite insert_sorted_In, IH. split; intros [H|H]; auto.
Qed.

Lemma sorted_length s : List.length (NameSet.sorted s) = List.length s.
Proof.
  unfold NameSet.sorted. induction s as [|x s IH]; simpl; [reflexivity|].
  rewrite insert_sorted_length, IH. reflexivity.
Qed.

Lemma str_leb_total a b :
  NameSet.str_leb a b = false -> NameSet.str_leb b a = true.
Proof.
  revert b. induction a as [|x a IH]; intros [|y b]; simpl; try discriminate;
    try reflexivity.
  destruct (code x <? code y) eqn:E1; [discriminate|].
  destruct (code y <? code x) eqn:E2; [reflexivity|]. apply IH.
Qed.

Lemma str_leb_trans a b c :
  NameSet.str_leb a b = true -> NameSet.str_leb b c = true ->
  NameSet.str_leb a c = true.
Proof.
  revert b c. induction a as [|x a IH]; intros [|y b] [|z c]; simpl;
    try discriminate; try reflexivity.
  destruct (code x <? code y) eqn:E1, (code y <? code x) eqn:E2,
    (code y <? code z) eqn:E3, (code z <? code y) eqn:E4,
    (code x <? code z) eqn:E5, (code z <? code x) eqn:E6;
    try discriminate; try reflexivity;
    rewrite ?Nat.ltb_lt, ?Nat.ltb_ge in *; try lia.
  apply IH.
Qed.

Lemma insert_sorted_sorted x l :
  StronglySorted (fun a b => NameSet.str_leb a b = true) l ->
  StronglySorted (fun a b => NameSet.str_leb a b = true)
                 (NameSet.insert_sorted x l).
Proof.
  induction 1 as [|z l Hl IH Hz]; simpl.
  - constructor; constructor.
  - destruct (NameSet.str_leb x z) eqn:E.
    + constructor; [constructor; assumption|].
      constructor; [exact E|].
      rewrite Forall_forall in *. intros w Hw.
      apply (str_leb_trans x z w E (Hz w Hw)).
    + constructor; [exact IH|].
      rewrite Forall_forall in *. intros w Hw.
      apply insert_sorted_In in Hw as [->|Hw];
        [apply str_leb_total; exact E|apply Hz; exact Hw].
Qed.

Lemma insert_sorted_NoDup x l :
  ~ In x l -> NoDup l -> NoDup (NameSet.insert_sorted x l).
Proof.
  intros Hx Hnd. induction Hnd as [|z l Hz Hnd IH]; simpl.
  - constructor; [intros []|constructor].
  - destruct (NameSet.str_leb x z).
    + constructor; [exact Hx|constructor; assumption].
    + constructor.
      * rewrite insert_sorted_In. intros [->|H]; [|contradiction].
        apply Hx. left. reflexivity.
      * apply IH. intros H. apply Hx. right. exact H.
Qed.

Lemma sorted_NoDup s : NoDup s -> NoDup (NameSet.sorted s).
Proof.
  unfold NameSet.sorted. induction 1 as [|x s Hx Hnd IH]; simpl;
    [constructor|].
  apply insert_sorted_NoDup; [|exact IH].
  intros H. apply (proj1 (sorted_In s x)) in H. contradiction.
Qed.

Lemma sorted_increasing s : NoDup s -> increasing (NameSet.sorted s).
Proof.
  intros Hnd. apply sorted_NoDup in Hnd.
  assert (Hs : StronglySorted (fun a b => NameSet.str_leb a b = true)
                 (NameSet.sorted s)).
  { unfold NameSet.sorted. clear Hnd. induction s as [|x s IH]; simpl;
      [constructor|apply insert_sorted_sorted, IH]. }
  unfold increasing. revert Hnd Hs. generalize (NameSet.sorted s) as l.
  induction l as [|a l IH]; intros Hnd Hs; [constructor|].
  inversion Hnd as [|? ? Ha Hnd']; subst.
  apply StronglySorted_inv in Hs as [Hs Hall].
  constructor; [apply IH; assumption|].
  rewrite Forall_forall in *. intros b Hb. split; [apply Hall; exact Hb|].
  intros ->. contradiction.
Qed.

(** ** Verified and failed functions *)

Lemma names_of_file funcs names :
  NoDup names ->
  NoDup (fold_left (fun names (f : str * Z) => NameSet.add (fst f) names)
                   funcs names)
  /\ forall x,
       In x (fold_left (fun names (f : str * Z) => NameSet.add (fst f) names)
                       funcs names)
       <-> In x names \/ exists l, In (x, l) funcs.
Proof.
  revert names. induction funcs as [|[n l] funcs IH]; intros names Hnd;
    cbn [fold_left].
  - split; [exact Hnd|]. intros x. split; [auto|].
    intros [H|(l & [])]. exact H.
  - destruct (IH (NameSet.add n names) (add_NoDup n names Hnd)) as [H1 H2].
    split; [exact H1|]. intros x. rewrite H2, add_In. simpl. split.
    + intros [[->|H]|(l' & H)]; [right; exists l; left; reflexivity|auto|].
      right. exists l'. right. exact H.
    + intros [H|(l' & [H|H])]; [auto| |right; exists l'; exact H].
      injection H as <- _. left. left. reflexivity.
Qed.

Lemma names_of_catalog idx names :
  NoDup names ->
  NoDup (fold_left
           (fun names (entry : str * list (str * Z)) =>
              fold_left (fun names (f : str * Z) => NameSet.add (fst f) names)
                        (snd entry) names)
           idx names)
  /\ forall x,
       In x (fold_left
               (fun names (entry : str * list (str * Z)) =>
                  fold_left (fun names (f : str * Z) => NameSet.add (fst f) names)
                            (snd entry) names)
               idx names)
       <-> In x names \/ catalog_name idx x.
Proof.
  revert names. induction idx as [|[key funcs] idx IH]; intros names Hnd;
    cbn [fold_left].
  - split; [exact Hnd|]. intros x. split; [auto|].
    intros [H|(k & f & l & [] & _)]. exact H.
  - destruct (names_of_file funcs names Hnd) as [Hnd1 Hin1]. cbn [snd].
    destruct (IH _ Hnd1) as [H1 H2]. split; [exact H1|].
    intros x. rewrite H2, Hin1. unfold catalog_name. split.
    + intros [[H|(l & H)]|(k & f & l & Hk & Hf)]; [auto| |].
      * right. exists key, funcs, l. split; [left; reflexivity|exact H].
      * right. exists k, f, l. split; [right; exact Hk|exact Hf].
    + intros [H|(k & f & l & [Hk|Hk] & Hf)]; [auto| |].
      * injection Hk as <- <-. left. right. exists l. exact Hf.
      * right. exists k, f, l. auto.
Qed.

Lemma all_function_names_spec idx :
  NoDup (FunctionCategories.all_function_names idx)
  /\ forall x, In x (FunctionCategories.all_function_names idx)
               <-> catalog_name idx x.
Proof.
  destruct (names_of_catalog idx [] (NoDup_nil _)) as [H1 H2].
  split; [exact H1|]. intros x.
  unfold FunctionCategories.all_function_names. rewrite H2. simpl. tauto.
Qed.

Lemma initial_split_sets idx :
  split_sets idx (FunctionCategories.all_function_names idx, []).
Proof.
  destruct (all_function_names_spec idx) as [H1 H2].
  unfold split_sets, splits. simpl. repeat split; auto.
  - constructor.
  - intros H. left. apply H2. exact H.
  - intros [H|[]]. apply H2. exact H.
Qed.

Lemma mark_split_sets find idx sets fp l :
  finds_catalog_names find idx ->
  split_sets idx sets ->
  split_sets idx (FunctionCategories.mark find idx sets fp l).
Proof.
  intros Hfind Hs. unfold FunctionCategories.mark.
  destruct (find fp l idx) as [[|c n]|] eqn:E; try exact Hs.
  apply Hfind in E. destruct sets as [V F].
  destruct Hs as (HV & HF & Hdis & Hcov). simpl in *.
  unfold split_sets, splits. simpl.
  split; [apply discard_NoDup, HV|]. split; [apply add_NoDup, HF|].
  split.
  - intros x Hx Hx'. apply discard_In in Hx as [Hx Hne].
    apply add_In in Hx' as [->|Hx']; [congruence|]. apply (Hdis x Hx Hx').
  - intros x. rewrite discard_In, add_In, Hcov. split.
    + intros [H|H]; [|auto].
      destruct (str_eqb x (c :: n)) eqn:Hx.
      * apply str_eqb_eq in Hx. auto.
      * apply str_eqb_neq in Hx. auto.
    + intros [[H _]|[->|H]]; [auto| |auto]. apply Hcov. exact E.
Qed.

Lemma mark_errors_split_sets find idx errors sets :
  finds_catalog_names find idx ->
  split_sets idx sets ->
  split_sets idx (FunctionCategories.mark_errors find idx errors sets).
Proof.
  intros Hfind. unfold FunctionCategories.mark_errors.
  revert sets. induction errors as [|[fp ls] errors IH]; intros sets Hs;
    cbn [fold_left]; [exact Hs|].
  apply IH. cbn [fst snd]. clear IH. revert sets Hs.
  induction ls as [|l ls IH]; intros sets Hs; cbn [fold_left]; [exact Hs|].
  apply IH, mark_split_sets; assumption.
Qed.

Lemma finders_find_catalog_names idx :
  finds_catalog_names VerificationParser.find_function_at_line idx
  /\ finds_catalog_names VerificationParser.find_function_at_line_regex idx.
Proof.
  split; intros fp l name.
  - unfold VerificationParser.find_function_at_line.
    destruct (VerificationParser.matching_file fp idx) as [key|];
      [|discriminate].
    destruct (VerificationParser.lookup key idx) as [funcs|] eqn:Hl;
      [|discriminate].
    intros Hc. apply closest_sound in Hc as (l' & Hin & _).
    exists key, funcs, l'. split; [apply lookup_In; exact Hl|exact Hin].
  - unfold VerificationParser.find_function_at_line_regex.
    destruct (VerificationParser.matching_file_regex fp idx) as [key|];
      [|discriminate].
    destruct (VerificationParser.lookup key idx) as [funcs|] eqn:Hl;
      [|discriminate].
    intros Hc. apply closest_sound in Hc as (l' & Hin & _).
    exists key, funcs, l'. split; [apply lookup_In; exact Hl|exact Hin].
Qed.

Lemma sorted_splits idx V F :
  splits idx V F -> splits idx (NameSet.sorted V) (NameSet.sorted F).
Proof.
  unfold splits. intros [Hdis Hcov]. split.
  - intros x Hx Hx'. apply (proj1 (sorted_In V x)) in Hx.
    apply (proj1 (sorted_In F x)) in Hx'. apply (Hdis x Hx Hx').
  - intros x. rewrite !sorted_In. apply Hcov.
Qed.

(** X22: [categorize_functions_by_verification], in both scripts, splits
    the function names of the catalog: no name is in both lists, the names of
    the two lists together are exactly the names of the catalog, and each
    list is in strictly increasing order.  When the output file cannot be
    read, no function is failed. *)
Theorem X22_categories_split_the_catalog :
  forall (idx : VerificationParser.index) (file_text : option str),
    (let r := FunctionCategories.categorize_functions_by_verification idx
                file_text in
     splits idx (fst r) (snd r) /\ increasing (fst r) /\ increasing (snd r))
    /\ (let r := FunctionCategories.categorize_functions_by_verification_regex
                   idx file_text in
        splits idx (fst r) (snd r) /\ increasing (fst r) /\ increasing (snd r))
    /\ snd (FunctionCategories.categorize_functions_by_verification idx None)
       = []
    /\ snd (FunctionCategories.categorize_functions_by_verification_regex idx
              None) = [].
Proof.
  intros idx file_text. destruct (finders_find_catalog_names idx) as [H1 H2].
  split; [|split; [|split; reflexivity]].
  - pose proof (mark_errors_split_sets _ idx
                  (VerificationOutput.parse_verification_output file_text)
                  _ H1 (initial_split_sets idx)) as (HV & HF & Hs).
    cbv zeta. unfold FunctionCategories.categorize_functions_by_verification.
    cbn [fst snd].
    split; [apply sorted_splits, Hs|].
    split; apply sorted_increasing; assumption.
  - pose proof (mark_errors_split_sets _ idx
                  (VerificationOutput.parse_verification_output_regex file_text)
                  _ H2 (initial_split_sets idx)) as (HV & HF & Hs).
    cbv zeta.
    unfold FunctionCategories.categorize_functions_by_verification_regex.
    cbn [fst snd].
    split; [apply sorted_splits, Hs|].
    split; apply sorted_increasing; assumption.
Qed.

(** ** The analysis of [find_verus_functions.py] *)

Lemma NoDup_disjoint_app {A : Type} (a b : list A) :
  NoDup a -> NoDup b -> (forall x, In x a -> ~ In x b) -> NoDup (a ++ b).
Proof.
  intros Ha Hb Hdis. induction Ha as [|x a Hx Ha IH]; simpl; [exact Hb|].
  constructor.
  - rewrite in_app_iff. intros [H|H]; [contradiction|].
    apply (Hdis x); [left; reflexivity|exact H].
  - apply IH. intros y Hy. apply Hdis. right. exact Hy.
Qed.

Lemma split_count {A : Type} (names V F : list A) :
  NoDup names -> NoDup V -> NoDup F ->
  (forall x, In x V -> ~ In x F) ->
  (forall x, In x names <-> In x V \/ In x F) ->
  List.length V + List.length F = List.length names.
Proof.
  intros Hn HV HF Hdis Hcov. rewrite <- length_app.
  apply Nat.le_antisymm.
  - apply NoDup_incl_length; [apply NoDup_disjoint_app; assumption|].
    intros x Hx. apply Hcov. apply in_app_or. exact Hx.
  - apply NoDup_incl_length; [exact Hn|].
    intros x Hx. apply in_or_app. apply Hcov. exact Hx.
Qed.

Lemma split_sets_count idx sets :
  split_sets idx sets ->
  List.length (fst sets) + List.length (snd sets)
  = List.length (FunctionCategories.all_function_names idx).
Proof.
  intros (HV & HF & Hdis & Hcov).
  destruct (all_function_names_spec idx) as [Hn Hin].
  apply split_count; auto. intros x. rewrite Hin. apply Hcov.
Qed.

Lemma sorted_nil_iff s : NameSet.sorted s = [] <-> s = [].
Proof.
  split; [|intros ->; reflexivity].
  intros H. apply (f_equal (@List.length str)) in H.
  rewrite sorted_length in H. destruct s; [reflexivity|discriminate H].
Qed.

Lemma regex_analysis_sets idx file_text :
  split_sets idx
    (FunctionCategories.mark_errors
       VerificationParser.find_function_at_line_regex idx
       (VerificationOutput.parse_verification_output_regex file_text)
       (FunctionCategories.all_function_names idx, [])).
Proof.
  apply mark_errors_split_sets; [|apply initial_split_sets].
  apply finders_find_catalog_names.
Qed.

(** X23: in [find_verus_functions.py], [analyze_output] reports
    [compilation_failed] exactly when some trimmed line of the output matches
    the crate-failure, error, memory-allocation or process-failure pattern, or
    the exit code is given and not zero; then both function lists are empty
    and the error list is not.  A verification failure such as
    [error: assertion failed] alone therefore gives [compilation_failed]. *)
Theorem X23_regex_status_compilation_failed :
  forall (idx : VerificationParser.index) (output_content : str)
         (file_text : option str) (exit_code : option Z),
    let a := VerusAnalyzerRegex.analyze_output idx output_content file_text
               exit_code in
    (VerusAnalyzerRegex.status a = VerusAnalyzer.compilation_failed
     <-> existsb opens_error_regex (lines output_content) = true
         \/ nonzero exit_code)
    /\ (VerusAnalyzerRegex.status a = VerusAnalyzer.compilation_failed ->
        VerusAnalyzerRegex.verified_functions a = []
        /\ VerusAnalyzerRegex.failed_functions a = []
        /\ VerusAnalyzerRegex.compilation_errors a <> []).
Proof.
  intros idx output_content file_text exit_code.
  unfold VerusAnalyzerRegex.analyze_output, nonzero.
  pose proof (regex_errors_nil_iff output_content) as Hnil.
  destruct (CompilationErrorParserRegex.parse_compilation_output output_content)
    as [errs warns].
  cbn [fst] in Hnil.
  generalize (FunctionCategories.mark_errors
                VerificationParser.find_function_at_line_regex idx
                (VerificationOutput.parse_verification_output_regex file_text)
                (FunctionCategories.all_function_names idx, [])).
  intros [V F].
  destruct (existsb opens_error_regex (lines output_content)).
  - destruct errs as [|e es];
      [destruct Hnil as [Hnil _]; discriminate Hnil; reflexivity|].
    cbn. repeat split; auto;
      match goal with
      | |- (if ?c then _ else _) <> _ => destruct c; discriminate
      end.
  - destruct Hnil as [_ Hnil]. rewrite (Hnil eq_refl). clear Hnil.
    destruct exit_code as [n|]; [destruct (n =? 0)%Z eqn:En|];
      destruct F; cbn;
      repeat split; auto; try discriminate;
      try (intros [H|(m & Hm & Hne)]; try discriminate H;
           injection Hm as <-; apply Z.eqb_eq in En; contradiction);
      try (intros [H|(m & Hm & Hne)]; discriminate);
      try (intros _; right; exists n; split;
           [reflexivity|apply Z.eqb_neq; exact En]).
Qed.

Lemma X23_witness :
  VerusAnalyzerRegex.status
    (VerusAnalyzerRegex.analyze_output [] (lit "error: assertion failed") None
       None)
  = VerusAnalyzer.compilation_failed.
Proof.
  apply (proj1 (X23_regex_status_compilation_failed []
                  (lit "error: assertion failed") None None)).
  left. vm_compute. reflexivity.
Defined.

Ltac regex_analysis_cases errs exit_code F :=
  destruct errs as [|? ?];
  [destruct exit_code as [n|];
   [let En := fresh "En" in destruct (n =? 0)%Z eqn:En|]
  |destruct exit_code as [n|];
   [let En := fresh "En" in destruct (n =? 0)%Z eqn:En|]];
  destruct F as [|? ?];
  cbn [fst snd negb andb orb Nat.ltb Nat.leb List.length
       VerusAnalyzerRegex.status VerusAnalyzerRegex.verified_functions
       VerusAnalyzerRegex.failed_functions VerusAnalyzerRegex.verified_count
       VerusAnalyzerRegex.failed_count VerusAnalyzerRegex.total_functions
       VerusAnalyzerRegex.compilation_errors].

(** X24: in [find_verus_functions.py], when the status is not
    [compilation_failed], the two function lists split the names of the
    catalog, their counts add up to the total, no error is reported, and the
    status is [verification_failed] exactly when the failed list is not
    empty.  The lists are in strictly increasing order, and the counts are
    their lengths. *)
Theorem X24_regex_function_lists_split_the_catalog :
  forall (idx : VerificationParser.index) (output_content : str)
         (file_text : option str) (exit_code : option Z),
    let a := VerusAnalyzerRegex.analyze_output idx output_content file_text
               exit_code in
    VerusAnalyzerRegex.status a <> VerusAnalyzer.compilation_failed ->
    splits idx (VerusAnalyzerRegex.verified_functions a)
           (VerusAnalyzerRegex.failed_functions a)
    /\ VerusAnalyzerRegex.verified_count a + VerusAnalyzerRegex.failed_count a
       = VerusAnalyzerRegex.total_functions a
    /\ VerusAnalyzerRegex.compilation_errors a = []
    /\ (VerusAnalyzerRegex.status a = VerusAnalyzer.verification_failed
        <-> VerusAnalyzerRegex.failed_functions a <> [])
    /\ increasing (VerusAnalyzerRegex.verified_functions a)
    /\ increasing (VerusAnalyzerRegex.failed_functions a)
    /\ VerusAnalyzerRegex.verified_count a
       = List.length (VerusAnalyzerRegex.verified_functions a)
    /\ VerusAnalyzerRegex.failed_count a
       = List.length (VerusAnalyzerRegex.failed_functions a).
Proof.
  intros idx output_content file_text exit_code.
  unfold VerusAnalyzerRegex.analyze_output.
  destruct (CompilationErrorParserRegex.parse_compilation_output output_content)
    as [errs warns].
  pose proof (regex_analysis_sets idx file_text) as Hs.
  pose proof (split_sets_count idx _ Hs) as Hc.
  revert Hs Hc.
  generalize (FunctionCategories.mark_errors
                VerificationParser.find_function_at_line_regex idx
                (VerificationOutput.parse_verification_output_regex file_text)
                (FunctionCategories.all_function_names idx, [])).
  intros [V F] (HV & HF & Hsp) Hc. cbn [fst snd] in *.
  assert (Hall : splits idx (NameSet.sorted V) (NameSet.sorted F)
                 /\ increasing (NameSet.sorted V)
                 /\ increasing (NameSet.sorted F)
                 /\ List.length V = List.length (NameSet.sorted V)
                 /\ List.length F = List.length (NameSet.sorted F)
                 /\ (NameSet.sorted F <> [] <-> F <> [])).
  { rewrite !sorted_length.
    split; [apply sorted_splits, Hsp|].
    split; [apply sorted_increasing, HV|].
    split; [apply sorted_increasing, HF|].
    split; [reflexivity|]. split; [reflexivity|].
    pose proof (sorted_nil_iff F). tauto. }
  destruct Hall as (H1 & H2 & H3 & H4 & H5 & H6).
  cbv zeta.
  regex_analysis_cases errs exit_code F;
    intros Hst; try (exfalso; apply Hst; reflexivity);
    (split; [exact H1|]); (split; [exact Hc|]); (split; [reflexivity|]);
    (split; [|auto]); rewrite H6;
    split; try discriminate; intros H; try reflexivity;
    exfalso; apply H; reflexivity.
Qed.

Lemma X24_witness :
  let a := VerusAnalyzerRegex.analyze_output example_index
             (lit "  --> src/lib.rs:75:3") (Some (lit "  --> src/lib.rs:75:3"))
             None in
  VerusAnalyzerRegex.status a = VerusAnalyzer.verification_failed
  /\ VerusAnalyzerRegex.failed_functions a = [lit "second"]
  /\ VerusAnalyzerRegex.verified_count a + VerusAnalyzerRegex.failed_count a
     = VerusAnalyzerRegex.total_functions a.
Proof.
  pose proof (X24_regex_function_lists_split_the_catalog example_index
                (lit "  --> src/lib.rs:75:3")
                (Some (lit "  --> src/lib.rs:75:3")) None) as H.
  cbv zeta in *.
  assert (E : VerusAnalyzerRegex.status
                (VerusAnalyzerRegex.analyze_output example_index
                   (lit "  --> src/lib.rs:75:3")
                   (Some (lit "  --> src/lib.rs:75:3")) None)
              <> VerusAnalyzer.compilation_failed)
    by (vm_compute; discriminate).
  destruct (H E) as (_ & Hc & _).
  split; [vm_compute; reflexivity|]. split; [vm_compute; reflexivity|exact Hc].
Defined.

(** ** The filters of [find_verus_functions_syn.py] *)

Lemma filter_file_spec S function_filter funcs acc :
  NoDup acc ->
  NoDup (fold_left
           (fun filtered (f : str * Z) =>
              if NameSet.mem (fst f) S
                 && VerusAnalyzerSets.name_passes function_filter (fst f)
              then NameSet.add (fst f) filtered else filtered)
           funcs acc)
  /\ forall x,
       In x (fold_left
               (fun filtered (f : str * Z) =>
                  if NameSet.mem (fst f) S
                     && VerusAnalyzerSets.name_passes function_filter (fst f)
                  then NameSet.add (fst f) filtered else filtered)
               funcs acc)
       <-> In x acc
           \/ (In x S
               /\ VerusAnalyzerSets.name_passes function_filter x = true
               /\ exists l, In (x, l) funcs).
Proof.
  revert acc. induction funcs as [|[n l] funcs IH]; intros acc Hnd;
    cbn [fold_left fst].
  - split; [exact Hnd|]. intros x. split; [auto|].
    intros [H|(_ & _ & l & [])]. exact H.
  - destruct (NameSet.mem n S
              && VerusAnalyzerSets.name_passes function_filter n) eqn:E.
    + apply andb_true_iff in E as [E1 E2]. apply mem_In in E1.
      destruct (IH _ (add_NoDup n acc Hnd)) as [H1 H2].
      split; [exact H1|]. intros x. rewrite H2, add_In. split.
      * intros [[->|H]|(HS & Hp & l' & Hl)]; auto.
        -- right. repeat split; auto. exists l. left. reflexivity.
        -- right. repeat split; auto. exists l'. right. exact Hl.
      * intros [H|(HS & Hp & l' & [Hl|Hl])]; auto.
        -- injection Hl as <- _. auto.
        -- right. repeat split; auto. exists l'. exact Hl.
    + destruct (IH _ Hnd) as [H1 H2]. split; [exact H1|].
      intros x. rewrite H2. split.
      * intros [H|(HS & Hp & l' & Hl)]; auto.
        right. repeat split; auto. exists l'. right. exact Hl.
      * intros [H|(HS & Hp & l' & [Hl|Hl])]; auto.
        -- injection Hl as <- _. apply mem_In in HS. rewrite HS, Hp in E.
           discriminate E.
        -- right. repeat split; auto. exists l'. exact Hl.
Qed.

Lemma filter_catalog_spec idx S module_filter function_filter acc :
  NoDup acc ->
  NoDup (fold_left
           (fun filtered (entry : str * list (str * Z)) =>
              if VerusAnalyzerSets.file_passes module_filter (fst entry)
              then fold_left
                     (fun filtered (f : str * Z) =>
                        if NameSet.mem (fst f) S
                           && VerusAnalyzerSets.name_passes function_filter
                                (fst f)
                        then NameSet.add (fst f) filtered else filtered)
                     (snd entry) filtered
              else filtered)
           idx acc)
  /\ forall x,
       In x (fold_left
               (fun filtered (entry : str * list (str * Z)) =>
                  if VerusAnalyzerSets.file_passes module_filter (fst entry)
                  then fold_left
                         (fun filtered (f : str * Z) =>
                            if NameSet.mem (fst f) S
                               && VerusAnalyzerSets.name_passes function_filter
                                    (fst f)
                            then NameSet.add (fst f) filtered else filtered)
                         (snd entry) filtered
                  else filtered)
               idx acc)
       <-> In x acc \/ (In x S /\ admitted idx module_filter function_filter x).
Proof.
  revert acc. induction idx as [|[key funcs] idx IH]; intros acc Hnd;
    cbn [fold_left fst snd].
  - split; [exact Hnd|]. intros x. split; [auto|].
    intros [H|(_ & _ & k & f & l & [] & _)]. exact H.
  - unfold admitted.
    destruct (VerusAnalyzerSets.file_passes module_filter key) eqn:E.
    + destruct (filter_file_spec S function_filter funcs acc Hnd) as [Hn1 Hi1].
      destruct (IH _ Hn1) as [H1 H2]. split; [exact H1|].
      intros x. rewrite H2, Hi1. unfold admitted. split.
      * intros [[H|(HS & Hp & l & Hl)]|(HS & Hp & k & f & l & Hk & Hf & Hl)];
          auto.
        -- right. repeat split; auto. exists key, funcs, l.
           repeat split; auto. left. reflexivity.
        -- right. repeat split; auto. exists k, f, l.
           repeat split; auto. right. exact Hk.
      * intros [H|(HS & Hp & k & f & l & [Hk|Hk] & Hf & Hl)]; auto.
        -- injection Hk as <- <-. left. right. repeat split; auto.
           exists l. exact Hl.
        -- right. repeat split; auto. exists k, f, l. auto.
    + destruct (IH _ Hnd) as [H1 H2]. split; [exact H1|].
      intros x. rewrite H2. unfold admitted. split.
      * intros [H|(HS & Hp & k & f & l & Hk & Hf & Hl)]; auto.
        right. repeat split; auto. exists k, f, l.
        repeat split; auto. right. exact Hk.
      * intros [H|(HS & Hp & k & f & l & [Hk|Hk] & Hf & Hl)]; auto.
        -- injection Hk as <- <-. congruence.
        -- right. repeat split; auto. exists k, f, l. auto.
Qed.

Lemma filter_spec idx S module_filter function_filter :
  VerusAnalyzerSets.given module_filter
  || VerusAnalyzerSets.given function_filter = true ->
  NoDup (VerusAnalyzerSets.filter_functions_by_module_and_function idx S
           module_filter function_filter)
  /\ forall x,
       In x (VerusAnalyzerSets.filter_functions_by_module_and_function idx S
               module_filter function_filter)
       <-> In x S /\ admitted idx module_filter function_filter x.
Proof.
  intros Hg. unfold VerusAnalyzerSets.filter_functions_by_module_and_function.
  assert (E : negb (VerusAnalyzerSets.given module_filter)
              && negb (VerusAnalyzerSets.given function_filter) = false).
  { destruct (VerusAnalyzerSets.given module_filter),
      (VerusAnalyzerSets.given function_filter); try reflexivity.
    discriminate Hg. }
  rewrite E.
  destruct (filter_catalog_spec idx S module_filter function_filter []
              (NoDup_nil _)) as [H1 H2].
  split; [exact H1|]. intros x. rewrite H2. simpl. tauto.
Qed.

(** X25: [filter_functions_by_module_and_function] returns the given set
    when neither filter is given or both are empty.  Otherwise it keeps
    exactly the names of the set that pass the function filter and belong, in
    the catalog, to a file that passes the module filter; with a function
    filter, no other name than the filter is kept. *)
Theorem X25_filter_keeps_the_admitted_names :
  forall (idx : VerificationParser.index) (functions_set : NameSet.name_set)
         (module_filter function_filter : option str),
    (VerusAnalyzerSets.given module_filter = false ->
     VerusAnalyzerSets.given function_filter = false ->
     VerusAnalyzerSets.filter_functions_by_module_and_function idx
       functions_set module_filter function_filter = functions_set)
    /\ (VerusAnalyzerSets.given module_filter
        || VerusAnalyzerSets.given function_filter = true ->
        forall x,
          In x (VerusAnalyzerSets.filter_functions_by_module_and_function idx
                  functions_set module_filter function_filter)
          <-> In x functions_set
              /\ admitted idx module_filter function_filter x)
    /\ (VerusAnalyzerSets.given function_filter = true ->
        forall x,
          In x (VerusAnalyzerSets.filter_functions_by_module_and_function idx
                  functions_set module_filter function_filter) ->
          function_filter = Some x).
Proof.
  intros idx S m f. split; [|split].
  - intros Hm Hf.
    unfold VerusAnalyzerSets.filter_functions_by_module_and_function.
    rewrite Hm, Hf. reflexivity.
  - intros Hg. apply (filter_spec idx S m f Hg).
  - intros Hf x Hin.
    assert (Hg : VerusAnalyzerSets.given m || VerusAnalyzerSets.given f = true)
      by (rewrite Hf; apply orb_true_r).
    apply (filter_spec idx S m f Hg) in Hin as (_ & Hp & _).
    unfold VerusAnalyzerSets.name_passes in Hp. rewrite Hf in Hp.
    destruct f as [name|]; [|discriminate Hf].
    apply str_eqb_eq in Hp. congruence.
Qed.

Lemma X25_witness :
  VerusAnalyzerSets.filter_functions_by_module_and_function example_index
    [lit "first"; lit "second"] None (Some (lit "second"))
  = [lit "second"]
  /\ (In (lit "second")
         (VerusAnalyzerSets.filter_functions_by_module_and_function
            example_index [lit "first"; lit "second"] None
            (Some (lit "second")))
      <-> In (lit "second") [lit "first"; lit "second"]
          /\ admitted example_index None (Some (lit "second")) (lit "second")).
Proof.
  split; [vm_compute; reflexivity|].
  apply (proj1 (proj2 (X25_filter_keeps_the_admitted_names example_index
                         [lit "first"; lit "second"] None
                         (Some (lit "second"))))).
  reflexivity.
Defined.

(** ** The function sets of [find_verus_functions_syn.py] *)

Lemma mark_failures_split_sets idx failures sets :
  split_sets idx sets ->
  split_sets idx (VerusAnalyzerSets.mark_failures idx failures sets).
Proof.
  unfold VerusAnalyzerSets.mark_failures. revert sets.
  induction failures as [|fl failures IH]; intros sets Hs; cbn [fold_left];
    [exact Hs|].
  apply IH.
  destruct (VerificationParser.file fl) as [[|c fp]|]; try exact Hs.
  destruct (VerificationParser.line fl) as [l|]; try exact Hs.
  destruct (l =? 0)%Z; [exact Hs|].
  apply mark_split_sets; [apply finders_find_catalog_names|exact Hs].
Qed.

Lemma no_element_nil {A : Type} (l : list A) : (forall x, ~ In x l) -> l = [].
Proof.
  destruct l as [|x l]; [reflexivity|]. intros H. exfalso.
  apply (H x). left. reflexivity.
Qed.

Lemma pick_facts idx module_filter function_filter (V F names : list str) :
  let pick := fun s : NameSet.name_set =>
    if VerusAnalyzerSets.given module_filter
       || VerusAnalyzerSets.given function_filter
    then VerusAnalyzerSets.filter_functions_by_module_and_function idx s
           module_filter function_filter
    else s in
  NoDup V -> NoDup F -> NoDup names ->
  (forall x, In x V -> ~ In x F) ->
  NoDup (pick V) /\ NoDup (pick F) /\ NoDup (pick names)
  /\ (forall x, In x (pick V) -> In x V)
  /\ (forall x, In x (pick F) -> In x F)
  /\ ((forall x, In x names <-> In x V \/ In x F) ->
      forall x, In x (pick names) <-> In x (pick V) \/ In x (pick F)).
Proof.
  intros pick HV HF Hn Hdis. unfold pick.
  destruct (VerusAnalyzerSets.given module_filter
            || VerusAnalyzerSets.given function_filter) eqn:Hg.
  - destruct (filter_spec idx V module_filter function_filter Hg) as [V1 V2].
    destruct (filter_spec idx F module_filter function_filter Hg) as [F1 F2].
    destruct (filter_spec idx names module_filter function_filter Hg)
      as [N1 N2].
    repeat split; auto.
    + intros x Hx. apply V2 in Hx. tauto.
    + intros x Hx. apply F2 in Hx. tauto.
    + rewrite N2, V2, F2, H. tauto.
    + rewrite N2, V2, F2, H. tauto.
  - repeat split; auto; apply H.
Qed.

(** X26: in [find_verus_functions_syn.py], with or without filters, no
    name is in both function lists of [analyze_output], every listed name is
    a name of the catalog, the lists are in strictly increasing order and the
    counts are their lengths.  When the status is [compilation_failed] both
    lists are empty; otherwise the verified and failed counts add up to the
    total. *)
Theorem X26_syn_function_lists_are_consistent :
  forall (idx : VerificationParser.index) (output_content : str)
         (file_text : option str) (exit_code : option Z)
         (module_filter function_filter : option str),
    let a := VerusAnalyzerSets.analyze_output idx output_content file_text
               exit_code module_filter function_filter in
    (VerusAnalyzer.report_status (VerusAnalyzerSets.report a)
     = VerusAnalyzer.compilation_failed ->
     VerusAnalyzerSets.verified_functions a = []
     /\ VerusAnalyzerSets.failed_functions a = [])
    /\ (VerusAnalyzer.report_status (VerusAnalyzerSets.report a)
        <> VerusAnalyzer.compilation_failed ->
        VerusAnalyzerSets.verified_count a + VerusAnalyzerSets.failed_count a
        = VerusAnalyzerSets.total_functions a)
    /\ (forall x, In x (VerusAnalyzerSets.verified_functions a) ->
                  ~ In x (VerusAnalyzerSets.failed_functions a))
    /\ (forall x, In x (VerusAnalyzerSets.verified_functions a)
                  \/ In x (VerusAnalyzerSets.failed_functions a) ->
                  catalog_name idx x)
    /\ increasing (VerusAnalyzerSets.verified_functions a)
    /\ increasing (VerusAnalyzerSets.failed_functions a)
    /\ VerusAnalyzerSets.verified_count a
       = List.length (VerusAnalyzerSets.verified_functions a)
    /\ VerusAnalyzerSets.failed_count a
       = List.length (VerusAnalyzerSets.failed_functions a).
Proof.
  intros idx output_content file_text exit_code module_filter function_filter.
  unfold VerusAnalyzerSets.analyze_output. cbv zeta.
  set (r := VerusAnalyzer.analyze_output output_content exit_code).
  pose proof (mark_failures_split_sets idx (VerusAnalyzer.verification_errors r)
                _ (mark_errors_split_sets _ idx
                     (VerificationOutput.parse_verification_output file_text)
                     _ (proj1 (finders_find_catalog_names idx))
                     (initial_split_sets idx))) as Hs.
  revert Hs.
  generalize (VerusAnalyzerSets.mark_failures idx
                (VerusAnalyzer.verification_errors r)
                (FunctionCategories.mark_errors
                   VerificationParser.find_function_at_line idx
                   (VerificationOutput.parse_verification_output file_text)
                   (FunctionCategories.all_function_names idx, []))).
  intros [V0 F0] (HV0 & HF0 & Hdis0 & Hcov0). cbn [fst snd] in *.
  destruct (all_function_names_spec idx) as [Hn Hin].
  assert (Hsets : exists V F,
             match VerusAnalyzer.report_status r with
             | VerusAnalyzer.compilation_failed => ([], [])
             | _ => (V0, F0)
             end = (V, F)
             /\ NoDup V /\ NoDup F
             /\ (forall x, In x V -> ~ In x F)
             /\ (forall x, In x V \/ In x F -> catalog_name idx x)
             /\ (VerusAnalyzer.report_status r
                 <> VerusAnalyzer.compilation_failed ->
                 forall x, In x (FunctionCategories.all_function_names idx)
                           <-> In x V \/ In x F)
             /\ (VerusAnalyzer.report_status r
                 = VerusAnalyzer.compilation_failed -> V = [] /\ F = [])).
  { assert (Hkeep : exists V F,
               (V0, F0) = (V, F)
               /\ NoDup V /\ NoDup F
               /\ (forall x, In x V -> ~ In x F)
               /\ (forall x, In x V \/ In x F -> catalog_name idx x)
               /\ (forall x, In x (FunctionCategories.all_function_names idx)
                             <-> In x V \/ In x F)).
    { exists V0, F0. split; [reflexivity|]. split; [exact HV0|].
      split; [exact HF0|]. split; [exact Hdis0|].
      split; [intros x Hx; apply Hcov0; exact Hx|].
      intros x. rewrite Hin. apply Hcov0. }
    destruct Hkeep as (V & F & E & K1 & K2 & K3 & K4 & K5).
    destruct (VerusAnalyzer.report_status r).
    - exists V, F. repeat split; auto; try discriminate; apply K5; auto.
    - exists V, F. repeat split; auto; try discriminate; apply K5; auto.
    - exists [], []. split; [reflexivity|]. split; [constructor|].
      split; [constructor|]. split; [intros x []|].
      split; [intros x [[]|[]]|].
      split; [intros Hq; exfalso; apply Hq; reflexivity|].
      intros _. split; reflexivity. }
  destruct Hsets as (V & F & -> & HV & HF & Hdis & Hcat & Hcov & Hnil).
  cbn [fst snd VerusAnalyzerSets.report VerusAnalyzerSets.verified_functions
       VerusAnalyzerSets.failed_functions VerusAnalyzerSets.verified_count
       VerusAnalyzerSets.failed_count VerusAnalyzerSets.total_functions].
  pose proof (pick_facts idx module_filter function_filter V F
                (FunctionCategories.all_function_names idx) HV HF Hn Hdis)
    as (P1 & P2 & P3 & P4 & P5 & P6).
  cbv beta zeta in P1, P2, P3, P4, P5, P6.
  rewrite !sorted_length.
  split.
  { intros Hst. destruct (Hnil Hst) as [-> ->].
    assert (E : (if VerusAnalyzerSets.given module_filter
                    || VerusAnalyzerSets.given function_filter
                 then VerusAnalyzerSets.filter_functions_by_module_and_function
                        idx [] module_filter function_filter
                 else []) = []).
    { apply no_element_nil. intros x Hx. apply (P4 x Hx). }
    rewrite E. split; reflexivity. }
  split.
  { intros Hst. apply split_count; [exact P3|exact P1|exact P2| |].
    - intros x Hx Hx'. apply (Hdis x (P4 x Hx) (P5 x Hx')).
    - apply P6, Hcov, Hst. }
  split.
  { intros x Hx Hx'.
    apply (proj1 (sorted_In _ x)) in Hx. apply (proj1 (sorted_In _ x)) in Hx'.
    apply (Hdis x (P4 x Hx) (P5 x Hx')). }
  split.
  { intros x [Hx|Hx]; apply (proj1 (sorted_In _ x)) in Hx; apply Hcat; auto. }
  split; [apply sorted_increasing, P1|].
  split; [apply sorted_increasing, P2|].
  split; reflexivity.
Qed.

Lemma X26_witness :
  let text := lit "error: assertion failed" ++ newline
              :: lit "  --> src/lib.rs:75:3" ++ newline
              :: lit "verification results:: 2 verified, 1 errors" in
  let a := VerusAnalyzerSets.analyze_output example_index text (Some text)
             (Some 1%Z) None None in
  VerusAnalyzer.report_status (VerusAnalyzerSets.report a)
  = VerusAnalyzer.verification_failed
  /\ VerusAnalyzerSets.failed_functions a = [lit "second"]
  /\ VerusAnalyzerSets.verified_functions a = [lit "first"; lit "third"]
  /\ VerusAnalyzerSets.verified_count a + VerusAnalyzerSets.failed_count a
     = VerusAnalyzerSets.total_functions a.
Proof.
  cbv zeta.
  pose proof (X26_syn_function_lists_are_consistent example_index
                (lit "error: assertion failed" ++ newline
                 :: lit "  --> src/lib.rs:75:3" ++ newline
                 :: lit "verification results:: 2 verified, 1 errors")
                (Some (lit "error: assertion failed" ++ newline
                       :: lit "  --> src/lib.rs:75:3" ++ newline
                       :: lit "verification results:: 2 verified, 1 errors"))
                (Some 1%Z) None None) as H.
  cbv zeta in H. destruct H as (_ & Hc & _).
  split; [vm_compute; reflexivity|]. split; [vm_compute; reflexivity|].
  split; [vm_compute; reflexivity|].
  apply Hc. vm_compute. discriminate.
Defined.

(** ** Reported lines *)

Lemma finditer_from_at {A : Type} (m : str -> option (nat * A))
    skip p0 s pos g :
  In (pos, g) (Re.finditer_from m skip p0 s) ->
  p0 <= pos /\ pos - p0 < List.length s
  /\ exists n, m (skipn (pos - p0) s) = Some (n, g).
Proof.
  revert skip p0. induction s as [|c s IH]; intros skip p0; simpl;
    [intros []|].
  assert (Hrec : forall k,
             In (pos, g) (Re.finditer_from m k (S p0) s) ->
             p0 <= pos /\ pos - p0 < S (List.length s)
             /\ exists n, m (skipn (pos - p0) (c :: s)) = Some (n, g)).
  { intros k Hin. destruct (IH _ _ Hin) as (H1 & H2 & n & Hn).
    split; [lia|]. split; [lia|]. exists n.
    replace (pos - p0) with (S (pos - S p0)) by lia. exact Hn. }
  destruct skip as [|k]; [|apply Hrec].
  destruct (m (c :: s)) as [[n g']|] eqn:E; [|apply Hrec].
  intros [Heq|Hin]; [|apply (Hrec _ Hin)].
  injection Heq as <- <-. split; [lia|]. split; [lia|].
  exists n. rewrite Nat.sub_diag. exact E.
Qed.

Lemma count_newlines_app (a b : str) :
  count_newlines (a ++ b) = count_newlines a + count_newlines b.
Proof. induction a as [|c a IH]; simpl; [reflexivity|]. rewrite IH. lia. Qed.

Lemma laid_out_In before s bs b bl :
  laid_out before s bs -> In (b, bl) bs ->
  exists gap after,
    s = gap ++ b ++ after
    /\ bl = (Z.of_nat (count_newlines (before ++ gap)) + 1)%Z.
Proof.
  revert before s. induction bs as [|[b0 l0] bs IH]; intros before s;
    [intros _ []|].
  cbn [laid_out]. intros (gap & rest & Hs & Hl & Hrest) [Heq|Hin].
  - injection Heq as <- <-. exists gap, rest. split; assumption.
  - destruct (IH _ _ Hrest Hin) as (g' & after & Hr & Hbl).
    exists (gap ++ b0 ++ g'), after. subst s rest.
    rewrite <- !app_assoc in *. split; [reflexivity|exact Hbl].
Qed.

Lemma block_entry_at block_content block_start_line name l :
  In (name, l)
     (RustFunctionFinder.extract_functions_from_block block_content
        block_start_line) ->
  exists start,
    start < List.length (RustFunctionFinder.remove_comments block_content)
    /\ definition_of name
         (skipn start (RustFunctionFinder.remove_comments block_content))
    /\ l = RustFunctionFinder.line_of block_start_line
             (RustFunctionFinder.remove_comments block_content) start.
Proof.
  unfold RustFunctionFinder.extract_functions_from_block, definition_of.
  intros Hin. apply in_app_or in Hin as [Hin|Hin].
  - apply general_functions_from in Hin as (start & g1 & Hin & Hl).
    simpl in Hin, Hl. apply finditer_from_at in Hin as (_ & Hlt & n & Hn).
    rewrite Nat.sub_0_r in *. exists start.
    split; [exact Hlt|]. split; [left; exists n, g1; exact Hn|exact Hl].
  - unfold RustFunctionFinder.const_functions in Hin.
    apply in_map_iff in Hin as ([start name'] & Heq & Hin).
    simpl in Heq. injection Heq as -> <-.
    apply finditer_from_at in Hin as (_ & Hlt & n & Hn).
    rewrite Nat.sub_0_r in *. exists start.
    split; [exact Hlt|]. split; [right; exists n; exact Hn|reflexivity].
Qed.

Lemma contains_piece_false (p s a b : str) :
  contains p (a ++ s ++ b) = false -> contains p s = false.
Proof.
  intros H. destruct (contains p s) eqn:E; [|reflexivity].
  rewrite (contains_piece p s a b E) in H. discriminate H.
Qed.

(** X27: in a file without [//] and [/*], every entry of [analyze_file]
    comes from a match of one of the two patterns inside one of the blocks
    that [extract_verus_blocks] returns for the file: the block is a piece
    of the file that starts with [verus!], its line is the line, counted
    from 1, on which the piece starts, the match starts inside the piece,
    and the line of the entry is one more than the line, counted from 1, on
    which the match starts. *)
Theorem X27_reported_line_is_one_past_the_match :
  forall (content : str) (fs : list (str * Z)) (name : str) (l : Z),
    contains (lit "//") content = false ->
    contains (lit "/*") content = false ->
    RustFunctionFinder.analyze_file content = Some fs ->
    In (name, l) fs ->
    exists blocks before b bl after start,
      RustFunctionFinder.extract_verus_blocks content = Some blocks
      /\ In (b, bl) blocks
      /\ content = before ++ b ++ after
      /\ startswith b (lit "verus!") = true
      /\ bl = line_at content (List.length before)
      /\ start < List.length b
      /\ definition_of name (skipn start b)
      /\ l = (line_at content (List.length before + start) + 1)%Z.
Proof.
  intros content fs name l Hc1 Hc2 Hfile Hin.
  unfold RustFunctionFinder.analyze_file in Hfile.
  destruct (RustFunctionFinder.extract_verus_blocks content) as [blocks|] eqn:Hb;
    [|discriminate].
  injection Hfile as <-.
  apply in_flat_map in Hin as ([b bl] & Hblock & Hin). cbn [fst snd] in Hin.
  pose proof Hb as Hloop.
  unfold RustFunctionFinder.extract_verus_blocks in Hloop.
  destruct (extract_verus_blocks_loop_laid_out _ _ _ _ _ Hloop)
    as [Hlaid Hshape]; [simpl; trivial|constructor|].
  destruct (laid_out_In _ _ _ _ _ Hlaid Hblock) as (before & after & Hs & Hbl).
  simpl in Hbl.
  assert (Hplain : RustFunctionFinder.remove_comments b = b).
  { rewrite Hs in Hc1, Hc2.
    unfold RustFunctionFinder.remove_comments, Re.sub.
    rewrite (sub_from_no_match _ (lit "//") b line_comment_starts
               (contains_piece_false _ _ _ _ Hc1)).
    apply (sub_from_no_match _ (lit "/*") b block_comment_starts
             (contains_piece_false _ _ _ _ Hc2)). }
  apply block_entry_at in Hin as (start & Hlt & Hdef & Hl).
  rewrite Hplain in Hlt, Hdef, Hl.
  assert (Hline : bl = line_at content (List.length before)).
  { rewrite Hbl. unfold line_at. rewrite Hs at 1.
    rewrite firstn_app, Nat.sub_diag, firstn_O, app_nil_r.
    rewrite (@firstn_all2 _ (List.length before) before) by lia.
    reflexivity. }
  exists blocks, before, b, bl, after, start.
  split; [reflexivity|]. split; [exact Hblock|]. split; [exact Hs|].
  split; [exact (proj1 (proj1 (Forall_forall _ _) Hshape _ Hblock))|].
  split; [exact Hline|]. split; [exact Hlt|]. split; [exact Hdef|].
  rewrite Hl, Hbl. unfold RustFunctionFinder.line_of, line_at.
  rewrite Hs at 1. rewrite firstn_app.
  rewrite (@firstn_all2 _ (List.length before + start) before) by lia.
  replace (List.length before + start - List.length before) with start by lia.
  rewrite (firstn_app start b after), !count_newlines_app.
  replace (start - List.length b) with 0 by lia.
  rewrite firstn_O. simpl. lia.
Qed.

Lemma X27_witness :
  exists blocks before b bl after start,
    RustFunctionFinder.extract_verus_blocks const_fn_block = Some blocks
    /\ In (b, bl) blocks
    /\ const_fn_block = before ++ b ++ after
    /\ startswith b (lit "verus!") = true
    /\ bl = line_at const_fn_block (List.length before)
    /\ start < List.length b
    /\ definition_of (lit "limit") (skipn start b)
    /\ 3%Z = (line_at const_fn_block (List.length before + start) + 1)%Z.
Proof.
  assert (H1 : contains (lit "//") const_fn_block = false)
    by (vm_compute; reflexivity).
  assert (H2 : contains (lit "/*") const_fn_block = false)
    by (vm_compute; reflexivity).
  assert (H3 : RustFunctionFinder.analyze_file const_fn_block
               = Some [(lit "limit", 3%Z); (lit "limit", 3%Z)])
    by (vm_compute; reflexivity).
  exact (X27_reported_line_is_one_past_the_match const_fn_block _
           (lit "limit") 3%Z H1 H2 H3 (or_introl eq_refl)).
Defined.

(** ** The results summary seen by the parser and by the analysis *)

Lemma take_while_inside f (x R : str) c r :
  drop_while f x = c :: r -> take_while f (x ++ R) = take_while f x.
Proof.
  induction x as [|a x IH]; simpl; [discriminate|].
  destruct (f a); [|reflexivity]. intros H. rewrite (IH H). reflexivity.
Qed.

Lemma many1_inside f (x R g : str) c r :
  Re.many1 f x = Some (g, c :: r) ->
  Re.many1 f (x ++ R) = Some (g, c :: r ++ R).
Proof.
  unfold Re.many1. destruct (take_while f x) as [|a t] eqn:E; [discriminate|].
  intros H. injection H as <- Hd.
  rewrite (take_while_inside f x R c r Hd), E, (drop_while_inside f x R c r Hd).
  reflexivity.
Qed.

Lemma many1_nonempty f (x g r : str) :
  Re.many1 f x = Some (g, r) -> exists a x', x = a :: x'.
Proof.
  unfold Re.many1. destruct x as [|a x']; [discriminate|].
  intros _. exists a, x'. reflexivity.
Qed.

Lemma drop_prefix_nonempty (p x r : str) :
  p <> [] -> drop_prefix p x = Some r -> exists a x', x = a :: x'.
Proof.
  destruct p as [|c p]; [congruence|]. destruct x as [|a x']; [discriminate|].
  intros _ _. exists a, x'. reflexivity.
Qed.

Lemma drop_prefix_extend (p x r R : str) :
  drop_prefix p x = Some r -> drop_prefix p (x ++ R) = Some (r ++ R).
Proof.
  intros H. apply drop_prefix_Some in H. subst x.
  rewrite <- app_assoc. apply drop_prefix_app.
Qed.

(** A match of the summary pattern is not changed by text after it. *)
Lemma verification_results_pattern_extend (t R : str) g :
  Re.verification_results_pattern t = Some g ->
  Re.verification_results_pattern (t ++ R) = Some g.
Proof.
  unfold Re.verification_results_pattern.
  destruct (drop_prefix (lit "verification results::") t) as [r|] eqn:E0;
    [|discriminate].
  rewrite (drop_prefix_extend _ _ _ R E0).
  destruct (Re.many1 is_digit (drop_while is_space r)) as [[g1 r1]|] eqn:E1;
    [|discriminate].
  destruct (Re.many1 is_space r1) as [[w1 r2]|] eqn:E2; [|discriminate].
  destruct (drop_prefix (lit "verified,") r2) as [r3|] eqn:E3; [|discriminate].
  destruct (Re.many1 is_digit (drop_while is_space r3)) as [[g2 r4]|] eqn:E4;
    [|discriminate].
  destruct (Re.many1 is_space r4) as [[w2 r5]|] eqn:E5; [|discriminate].
  destruct (drop_prefix (lit "error") r5) as [r6|] eqn:E6; [|discriminate].
  intros H.
  destruct (many1_nonempty _ _ _ _ E1) as (a1 & x1 & Hx1).
  rewrite (drop_while_inside is_space r R a1 x1 Hx1). rewrite Hx1 in E1.
  change (a1 :: x1 ++ R) with ((a1 :: x1) ++ R).
  destruct (many1_nonempty _ _ _ _ E2) as (a2 & x2 & ->).
  rewrite (many1_inside _ _ R _ _ _ E1).
  destruct (drop_prefix_nonempty (lit "verified,") _ _ ltac:(discriminate) E3)
    as (a3 & x3 & ->).
  change (a2 :: x2 ++ R) with ((a2 :: x2) ++ R).
  rewrite (many1_inside _ _ R _ _ _ E2).
  change (a3 :: x3 ++ R) with ((a3 :: x3) ++ R).
  rewrite (drop_prefix_extend _ _ _ R E3).
  destruct (many1_nonempty _ _ _ _ E4) as (a4 & x4 & Hx4).
  rewrite (drop_while_inside is_space r3 R a4 x4 Hx4). rewrite Hx4 in E4.
  change (a4 :: x4 ++ R) with ((a4 :: x4) ++ R).
  destruct (many1_nonempty _ _ _ _ E5) as (a5 & x5 & ->).
  rewrite (many1_inside _ _ R _ _ _ E4).
  destruct (drop_prefix_nonempty (lit "error") _ _ ltac:(discriminate) E6)
    as (a6 & x6 & ->).
  change (a5 :: x5 ++ R) with ((a5 :: x5) ++ R).
  rewrite (many1_inside _ _ R _ _ _ E5).
  change (a6 :: x6 ++ R) with ((a6 :: x6) ++ R).
  rewrite (drop_prefix_extend _ _ _ R E6). exact H.
Qed.

Lemma summary_line_in_text (output_content : str) :
  CompilationErrorParser.first_pass (lines output_content) = true ->
  CompilationErrorParser.has_verification_results output_content = true.
Proof.
  unfold CompilationErrorParser.first_pass,
    CompilationErrorParser.has_verification_results,
    CompilationErrorParser.matches.
  intros H. apply existsb_exists in H as (raw & Hin & Hraw).
  destruct (Re.search Re.verification_results_pattern (strip raw))
    as [g|] eqn:E; [|discriminate].
  apply search_inner in E as (a & t & Hs & Ht).
  destruct (split_on_piece newline output_content raw Hin) as (x & y & Hc).
  destruct (strip_piece raw) as (x' & y' & Hr).
  assert (Hdec : output_content = (x ++ x' ++ a) ++ t ++ (y' ++ y)).
  { rewrite Hc, Hr, Hs. rewrite <- !app_assoc. reflexivity. }
  pose proof (search_found Re.verification_results_pattern (x ++ x' ++ a)
                (t ++ y' ++ y)) as Hf.
  rewrite <- Hdec in Hf.
  destruct (Re.search Re.verification_results_pattern output_content);
    [reflexivity|].
  exfalso. apply Hf; [|reflexivity].
  rewrite (verification_results_pattern_extend t (y' ++ y) g Ht). discriminate.
Qed.

(** X28: when a trimmed line of the output holds the results summary, so
    that the parser leaves out the crate-failure lines, the summary is also
    found in the whole text, and [analyze_output] does not report
    [compilation_failed], whatever the exit code. *)
Theorem X28_summary_line_excludes_compilation_failed :
  forall (output_content : str) (exit_code : option Z),
    CompilationErrorParser.first_pass (lines output_content) = true ->
    CompilationErrorParser.has_verification_results output_content = true
    /\ VerusAnalyzer.report_status
         (VerusAnalyzer.analyze_output output_content exit_code)
       <> VerusAnalyzer.compilation_failed.
Proof.
  intros output_content exit_code H.
  pose proof (summary_line_in_text output_content H) as Hs.
  split; [exact Hs|].
  unfold VerusAnalyzer.analyze_output.
  destruct (CompilationErrorParser.parse_compilation_output output_content)
    as [errs warns].
  rewrite Hs. unfold VerusAnalyzer.decide_status. cbn.
  destruct (VerificationParser.parse_verification_failures output_content);
    cbn; discriminate.
Qed.

Lemma X28_witness :
  CompilationErrorParser.has_verification_results
    (lit "error: could not compile `foo`" ++ newline
     :: lit "  verification results:: 1 verified, 0 errors")
  = true
  /\ VerusAnalyzer.report_status
       (VerusAnalyzer.analyze_output
          (lit "error: could not compile `foo`" ++ newline
           :: lit "  verification results:: 1 verified, 0 errors") (Some 101%Z))
     <> VerusAnalyzer.compilation_failed.
Proof.
  apply X28_summary_line_excludes_compilation_failed.
  vm_compute. reflexivity.
Defined.

(** ** Comments that are removed, and comments that are not *)

Lemma sub_from_skip (m : str -> option nat) (x rest : str) :
  Re.sub_from m (List.length x) (x ++ rest) = Re.sub_from m 0 rest.
Proof. induction x as [|c x IH]; simpl; [reflexivity|exact IH]. Qed.

Lemma sub_from_match (m : str -> option nat) (c : ascii) (x rest : str) :
  m (c :: x ++ rest) = Some (S (List.length x)) ->
  Re.sub_from m 0 (c :: x ++ rest) = Re.sub_from m 0 rest.
Proof.
  intros H. cbn [Re.sub_from]. rewrite H. cbn [Nat.sub].
  rewrite Nat.sub_0_r. apply sub_from_skip.
Qed.

Lemma sub_from_slash_free (m : str -> option nat) (a rest : str) :
  (forall c t, m (c :: t) <> None -> c = "/"%char) ->
  slash_free a ->
  Re.sub_from m 0 (a ++ rest) = a ++ Re.sub_from m 0 rest.
Proof.
  intros Hm. unfold slash_free. induction a as [|c a IH]; intros Ha;
    [reflexivity|].
  cbn [forallb] in Ha. apply andb_true_iff in Ha as [Hc Ha].
  cbn [app Re.sub_from]. destruct (m (c :: a ++ rest)) eqn:E.
  - assert (c = "/"%char) by (apply (Hm c (a ++ rest)); congruence).
    subst c. discriminate Hc.
  - rewrite (IH Ha). reflexivity.
Qed.

Lemma comment_patterns_start_with_slash :
  (forall c t, RustFunctionFinder.line_comment_pattern (c :: t) <> None ->
               c = "/"%char)
  /\ (forall c t, RustFunctionFinder.block_comment_pattern (c :: t) <> None ->
                  c = "/"%char).
Proof.
  split; intros c t H.
  - apply line_comment_starts, startswith_split in H as (b & Hb).
    simpl in Hb. injection Hb as -> _. reflexivity.
  - apply block_comment_starts, startswith_split in H as (b & Hb).
    simpl in Hb. injection Hb as -> _. reflexivity.
Qed.

Lemma sub_from_all_slash_free (m : str -> option nat) (a : str) :
  (forall c t, m (c :: t) <> None -> c = "/"%char) ->
  slash_free a -> Re.sub_from m 0 a = a.
Proof.
  intros Hm Ha. rewrite <- (app_nil_r a) at 1.
  rewrite (sub_from_slash_free m a [] Hm Ha). simpl. apply app_nil_r.
Qed.

Lemma until_close_here (body rest : str) :
  slash_free body ->
  RustFunctionFinder.until_close (body ++ lit "*/" ++ rest)
  = Some (List.length body).
Proof.
  unfold slash_free. induction body as [|c body IH]; intros Hb.
  - reflexivity.
  - cbn [forallb] in Hb. apply andb_true_iff in Hb as [Hc Hb].
    cbn [app RustFunctionFinder.until_close].
    rewrite (IH Hb).
    assert (Hs : startswith (c :: body ++ lit "*/" ++ rest) (lit "*/") = false).
    { destruct (startswith (c :: body ++ lit "*/" ++ rest) (lit "*/")) eqn:E;
        [|reflexivity].
      apply startswith_split in E as (b & E). simpl in E.
      injection E as -> E. destruct body as [|d body].
      - simpl in E. injection E as E _. discriminate E.
      - simpl in E. injection E as -> _. simpl in Hb. discriminate Hb. }
    rewrite Hs. reflexivity.
Qed.

Lemma line_comment_here (comment rest : str) :
  one_line comment -> stops Re.dot rest ->
  RustFunctionFinder.line_comment_pattern (lit "//" ++ comment ++ rest)
  = Some (2 + List.length comment).
Proof.
  intros Hc Hr. unfold RustFunctionFinder.line_comment_pattern.
  rewrite drop_prefix_app, (take_while_app Re.dot comment rest Hc Hr).
  reflexivity.
Qed.

Lemma line_comment_single_slash (t : str) :
  stops (fun c => ch_eqb c "/"%char) t ->
  RustFunctionFinder.line_comment_pattern ("/"%char :: t) = None.
Proof.
  intros Ht. unfold RustFunctionFinder.line_comment_pattern.
  destruct (drop_prefix (lit "//") ("/"%char :: t)) eqn:E; [|reflexivity].
  apply drop_prefix_Some in E. simpl in E. injection E as ->.
  simpl in Ht. discriminate Ht.
Qed.

Lemma slash_free_stops (b : str) :
  slash_free b -> stops (fun c => ch_eqb c "/"%char) b.
Proof.
  unfold slash_free. destruct b as [|c b]; simpl; [trivial|].
  intros H. apply andb_true_iff in H as [H _].
  unfold Re.not_char in H. apply negb_true_iff in H. exact H.
Qed.

Lemma slash_free_app (a b : str) :
  slash_free a -> slash_free b -> slash_free (a ++ b).
Proof.
  unfold slash_free. intros Ha Hb. rewrite forallb_app, Ha, Hb. reflexivity.
Qed.

Lemma until_close_none (x : str) :
  slash_free x -> RustFunctionFinder.until_close x = None.
Proof.
  unfold slash_free. induction x as [|c x IH]; intros Hx; [reflexivity|].
  cbn [forallb] in Hx. apply andb_true_iff in Hx as [Hc Hx].
  cbn [RustFunctionFinder.until_close]. rewrite (IH Hx).
  destruct (startswith (c :: x) (lit "*/")) eqn:E; [|reflexivity].
  apply startswith_split in E as (b & E). simpl in E.
  injection E as _ E. subst x. simpl in Hx. discriminate Hx.
Qed.

(** The pass over line comments leaves a block comment without slash in
    place. *)
Lemma line_pass_keeps_block (a body b : str) :
  slash_free a -> slash_free body -> slash_free b ->
  Re.sub_from RustFunctionFinder.line_comment_pattern 0
    (a ++ lit "/*" ++ body ++ lit "*/" ++ b)
  = a ++ lit "/*" ++ body ++ lit "*/" ++ b.
Proof.
  intros Ha Hbody Hb.
  destruct comment_patterns_start_with_slash as [Hline _].
  rewrite (sub_from_slash_free _ a _ Hline Ha). f_equal.
  change (lit "/*" ++ body ++ lit "*/" ++ b)
    with ("/"%char :: ("*"%char :: body ++ ["*"%char]) ++ "/"%char :: b)
    || (replace (lit "/*" ++ body ++ lit "*/" ++ b)
         with ("/"%char :: ("*"%char :: body ++ ["*"%char]) ++ "/"%char :: b)
         by (simpl; rewrite <- app_assoc; reflexivity)).
  cbn [Re.sub_from].
  rewrite line_comment_single_slash by (simpl; reflexivity).
  rewrite (sub_from_slash_free _ ("*"%char :: body ++ ["*"%char]) _ Hline)
    by (apply (slash_free_app ["*"%char]); [reflexivity|];
        apply slash_free_app; [exact Hbody|reflexivity]).
  cbn [Re.sub_from].
  rewrite (line_comment_single_slash b (slash_free_stops b Hb)).
  rewrite (sub_from_all_slash_free _ b Hline Hb). reflexivity.
Qed.

Lemma block_comment_here (body rest : str) :
  slash_free body ->
  RustFunctionFinder.block_comment_pattern
    ("/"%char :: ("*"%char :: body ++ lit "*/") ++ rest)
  = Some (S (List.length ("*"%char :: body ++ lit "*/"))).
Proof.
  intros Hb. unfold RustFunctionFinder.block_comment_pattern.
  replace ("/"%char :: ("*"%char :: body ++ lit "*/") ++ rest)
    with (lit "/*" ++ body ++ lit "*/" ++ rest)
    by (simpl; rewrite <- app_assoc; reflexivity).
  rewrite drop_prefix_app, (until_close_here body rest Hb).
  f_equal. simpl. rewrite length_app. simpl. lia.
Qed.

(** X29: [remove_comments] removes a line comment up to the end of its
    line, and a block comment with its delimiters, when the text around them
    and the block comment itself hold no slash. *)
Theorem X29_simple_comments_are_removed :
  forall a body b comment : str,
    slash_free a -> slash_free body -> slash_free b -> one_line comment ->
    RustFunctionFinder.remove_comments
      (a ++ lit "//" ++ comment ++ newline :: b)
    = a ++ newline :: b
    /\ RustFunctionFinder.remove_comments
         (a ++ lit "/*" ++ body ++ lit "*/" ++ b)
       = a ++ b.
Proof.
  intros a body b comment Ha Hbody Hb Hc.
  destruct comment_patterns_start_with_slash as [Hline Hblock].
  assert (Hnb : slash_free (newline :: b)).
  { apply (slash_free_app [newline]); [reflexivity|exact Hb]. }
  unfold RustFunctionFinder.remove_comments, Re.sub. split.
  - rewrite (sub_from_slash_free _ a _ Hline Ha).
    change (lit "//" ++ comment ++ newline :: b)
      with ("/"%char :: ("/"%char :: comment) ++ newline :: b).
    rewrite sub_from_match
      by (apply (line_comment_here comment (newline :: b) Hc); reflexivity).
    rewrite (sub_from_all_slash_free _ (newline :: b) Hline Hnb).
    apply sub_from_all_slash_free; [exact Hblock|].
    apply slash_free_app; assumption.
  - rewrite (line_pass_keeps_block a body b Ha Hbody Hb).
    rewrite (sub_from_slash_free _ a _ Hblock Ha). f_equal.
    replace (lit "/*" ++ body ++ lit "*/" ++ b)
      with ("/"%char :: ("*"%char :: body ++ lit "*/") ++ b)
      by (simpl; rewrite <- app_assoc; reflexivity).
    rewrite sub_from_match by (apply block_comment_here; exact Hbody).
    apply sub_from_all_slash_free; assumption.
Qed.

Lemma X29_witness :
  RustFunctionFinder.remove_comments
    (lit "fn a() {} " ++ lit "//" ++ lit " fn b() {}" ++ newline :: lit "fn c() {}")
  = lit "fn a() {} " ++ newline :: lit "fn c() {}"
  /\ RustFunctionFinder.remove_comments
       (lit "fn a() {} " ++ lit "/*" ++ lit " fn b() {} " ++ lit "*/"
        ++ lit "fn c() {}")
     = lit "fn a() {} " ++ lit "fn c() {}".
Proof.
  apply (X29_simple_comments_are_removed (lit "fn a() {} ") (lit " fn b() {} ")
           (lit "fn c() {}") (lit " fn b() {}")); reflexivity.
Defined.

Lemma sub_from_no_match_here (m : str -> option nat) (c : ascii) (s : str) :
  m (c :: s) = None ->
  Re.sub_from m 0 (c :: s) = c :: Re.sub_from m 0 s.
Proof. intros H. cbn [Re.sub_from]. rewrite H. reflexivity. Qed.

(** X30: a block comment that holds a line comment on its last line is
    not removed, when the text before the two slashes holds no other slash
    than the one of the opening delimiter and the lines after that line
    hold no slash.  The line comment is cut first, from the two slashes up
    to the end of the line, closing delimiter included; the opening
    delimiter, the text after it up to the two slashes, and the later lines
    stay in the result. *)
Theorem X30_block_comment_with_line_comment_stays :
  forall a x y b later : str,
    slash_free a -> slash_free x -> one_line y -> one_line b ->
    slash_free later -> stops Re.dot later ->
    RustFunctionFinder.remove_comments
      (a ++ lit "/*" ++ x ++ lit "//" ++ y ++ lit "*/" ++ b ++ later)
    = a ++ lit "/*" ++ x ++ later.
Proof.
  intros a x y b later Ha Hx Hy Hb Hlater Hstop.
  destruct comment_patterns_start_with_slash as [Hline Hblock].
  assert (Hsx : slash_free ("*"%char :: x)).
  { apply (slash_free_app ["*"%char]); [reflexivity|exact Hx]. }
  assert (Hsxl : slash_free ("*"%char :: x ++ later)).
  { apply (slash_free_app ("*"%char :: x)); assumption. }
  assert (Hline_pass :
            Re.sub_from RustFunctionFinder.line_comment_pattern 0
              (a ++ lit "/*" ++ x ++ lit "//" ++ y ++ lit "*/" ++ b ++ later)
            = a ++ lit "/*" ++ x ++ later).
  { rewrite (sub_from_slash_free _ a _ Hline Ha). f_equal.
    change (lit "/*" ++ x ++ lit "//" ++ y ++ lit "*/" ++ b ++ later)
      with ("/"%char
            :: ("*"%char :: x) ++ lit "//" ++ y ++ lit "*/" ++ b ++ later).
    rewrite sub_from_no_match_here
      by (apply line_comment_single_slash; simpl; reflexivity).
    change (lit "/*" ++ x ++ later) with ("/"%char :: ("*"%char :: x) ++ later).
    f_equal.
    rewrite (sub_from_slash_free _ ("*"%char :: x) _ Hline Hsx). f_equal.
    replace (lit "//" ++ y ++ lit "*/" ++ b ++ later)
      with ("/"%char :: ("/"%char :: y ++ lit "*/" ++ b) ++ later)
      by (simpl; rewrite <- !app_assoc; reflexivity).
    rewrite sub_from_match.
    - apply (sub_from_all_slash_free _ later Hline Hlater).
    - pose proof (line_comment_here (y ++ lit "*/" ++ b) later) as H.
      cbn [app lit] in H |- *. cbn [List.length]. apply H; [|exact Hstop].
      unfold one_line in *. rewrite forallb_app, Hy. simpl. exact Hb. }
  unfold RustFunctionFinder.remove_comments, Re.sub.
  rewrite Hline_pass.
  rewrite (sub_from_slash_free _ a _ Hblock Ha). f_equal.
  change (lit "/*" ++ x ++ later) with ("/"%char :: "*"%char :: x ++ later).
  assert (Hnone : RustFunctionFinder.block_comment_pattern
                    ("/"%char :: "*"%char :: x ++ later) = None).
  { unfold RustFunctionFinder.block_comment_pattern.
    change ("/"%char :: "*"%char :: x ++ later) with (lit "/*" ++ x ++ later).
    rewrite drop_prefix_app.
    rewrite (until_close_none (x ++ later) (slash_free_app _ _ Hx Hlater)).
    reflexivity. }
  rewrite (sub_from_no_match_here _ _ _ Hnone).
  rewrite (sub_from_all_slash_free _ ("*"%char :: x ++ later) Hblock Hsxl).
  reflexivity.
Qed.

Lemma X30_witness :
  RustFunctionFinder.remove_comments
    (lit "fn a() {} " ++ lit "/*" ++ lit " fn old() {} " ++ lit "//"
     ++ lit " note " ++ lit "*/" ++ lit " fn c() {}"
     ++ newline :: lit "fn d() {}")
  = lit "fn a() {} " ++ lit "/*" ++ lit " fn old() {} "
    ++ newline :: lit "fn d() {}".
Proof.
  apply (X30_block_comment_with_line_comment_stays (lit "fn a() {} ")
           (lit " fn old() {} ") (lit " note ") (lit " fn c() {}")
           (newline :: lit "fn d() {}"));
    reflexivity.
Defined.

(** ** Order of the records of a file *)

Lemma block_entries_lines b l f :
  In f (block_entries (b, l)) ->
  (l + 1 <= snd f <= l + 1 + Z.of_nat (count_newlines b))%Z.
Proof.
  unfold block_entries, RustFunctionFinder.extract_functions_from_block.
  cbn [fst snd]. intros Hin. apply in_app_or in Hin as [Hin|Hin].
  - apply general_functions_from in Hin as (start & g1 & _ & ->).
    apply line_of_range.
  - unfold RustFunctionFinder.const_functions in Hin.
    apply in_map_iff in Hin as ([start name] & <- & _).
    cbn [fst snd]. apply line_of_range.
Qed.

Lemma laid_out_ordered before s bs :
  laid_out before s bs ->
  ForallOrdPairs at_or_before (map block_entries bs).
Proof.
  revert before s. induction bs as [|[b l] bs IH]; intros before s;
    [intros _; constructor|].
  cbn [laid_out map]. intros (gap & rest & Hs & Hl & Hrest).
  constructor; [|apply (IH _ _ Hrest)].
  apply Forall_forall. intros g2 Hg2.
  apply in_map_iff in Hg2 as ([b2 l2] & <- & Hin2).
  destruct (laid_out_In _ _ _ _ _ Hrest Hin2) as (gap2 & after & _ & Hl2).
  intros f1 f2 Hf1 Hf2.
  apply block_entries_lines in Hf1, Hf2.
  rewrite <- !app_assoc in Hl2. rewrite !count_newlines_app in Hl2.
  rewrite count_newlines_app in Hl. lia.
Qed.

(** C8, as the code has it.  The records of a file are listed block by
    block, in the order of the blocks in the file, and every record of a
    block has a line at or before that of every record of a later block.
    Within one block the records are the run of the general pattern
    followed by the run of the constant pattern, and within each of the two
    runs every line is greater than or equal to the one before it. *)
Theorem C8_blocks_in_line_order_two_runs_each :
  forall content : str,
    exists blocks,
      RustFunctionFinder.extract_verus_blocks content = Some blocks
      /\ RustFunctionFinder.analyze_file content
         = Some (List.concat (map block_entries blocks))
      /\ ForallOrdPairs at_or_before (map block_entries blocks)
      /\ Forall two_runs blocks.
Proof.
  intros content.
  destruct (extract_verus_blocks_loop_total (S (List.length content)) content 0 [])
    as (blocks & Hb); [lia|].
  exists blocks. split; [exact Hb|].
  split.
  { unfold RustFunctionFinder.analyze_file.
    unfold RustFunctionFinder.extract_verus_blocks. rewrite Hb.
    rewrite flat_map_concat_map. reflexivity. }
  split.
  { destruct (extract_verus_blocks_loop_laid_out _ _ _ _ _ Hb) as [Hlaid _];
      [simpl; trivial|constructor|].
    apply (laid_out_ordered _ _ _ Hlaid). }
  apply Forall_forall. intros [b l] _. unfold two_runs. cbn [fst snd].
  split; [reflexivity|]. split.
  - apply general_functions_by_line. apply finditer_from_increasing.
  - apply const_functions_by_line. apply finditer_from_increasing.
Qed.

(** ** Lines kept by the records *)

Lemma close_lines_flush es cur :
  map CompilationErrorParser.full_message (CompilationErrorParser.flush es cur)
  = close_lines (map CompilationErrorParser.full_message es)
                (option_map CompilationErrorParser.full_message cur).
Proof. destruct cur; simpl; [rewrite map_app|]; reflexivity. Qed.

Lemma continue_error_lines e l :
  CompilationErrorParser.full_message (CompilationErrorParser.continue_error e l)
  = CompilationErrorParser.full_message e ++ [l].
Proof.
  unfold CompilationErrorParser.continue_error.
  repeat break_match; reflexivity.
Qed.

(** One step of the parser, seen on the lines held by the records. *)
Lemma step_stored_lines flag st raw :
  all_records has_lines st ->
  stored_lines (CompilationErrorParser.step flag st raw)
  = keep_line flag (stored_lines st) raw.
Proof.
  intros (_ & _ & Hce & Hcw).
  destruct st as [es ws ce cw]. simpl in Hce, Hcw.
  assert (He : match ce with
               | Some e =>
                   (0 <? List.length (CompilationErrorParser.full_message e))
                   = true
               | None => True
               end).
  { destruct ce as [e|]; [|exact I]. simpl in Hce. unfold has_lines in Hce.
    destruct (CompilationErrorParser.full_message e); [congruence|reflexivity]. }
  assert (Hw : match cw with
               | Some w =>
                   (0 <? List.length (CompilationErrorParser.full_message w))
                   = true
               | None => True
               end).
  { destruct cw as [w|]; [|exact I]. simpl in Hcw. unfold has_lines in Hcw.
    destruct (CompilationErrorParser.full_message w); [congruence|reflexivity]. }
  clear Hce Hcw.
  unfold CompilationErrorParser.step, CompilationErrorParser.continuation,
    keep_line, kind_of, stored_lines, CompilationErrorParser.matches,
    CompilationErrorParser.flush, close_lines, is_open.
  cbn [CompilationErrorParser.errors CompilationErrorParser.warnings
       CompilationErrorParser.current_error
       CompilationErrorParser.current_warning
       closed_errors closed_warnings open_error open_warning].
  destruct ce as [e|], cw as [w|]; try rewrite He; try rewrite Hw;
    cbn [option_map];
    repeat break_match; subst;
    cbn [CompilationErrorParser.errors CompilationErrorParser.warnings
         CompilationErrorParser.current_error
         CompilationErrorParser.current_warning
         closed_errors closed_warnings open_error open_warning
         option_map andb CompilationErrorParser.full_message
         CompilationErrorParser.append_line CompilationErrorParser.add_message
         CompilationErrorParser.set_location CompilationErrorParser.new_record
         map];
    rewrite ?map_app, ?continue_error_lines; try reflexivity;
    try discriminate; try congruence.
Qed.

Lemma step_has_lines flag st raw :
  all_records has_lines st ->
  all_records has_lines (CompilationErrorParser.step flag st raw).
Proof. intros H. apply (run_has_lines flag st [raw] H). Qed.

Lemma run_stored_lines flag st ls :
  all_records has_lines st ->
  stored_lines (CompilationErrorParser.run flag st ls)
  = fold_left (keep_line flag) ls (stored_lines st).
Proof.
  unfold CompilationErrorParser.run. revert st.
  induction ls as [|raw ls IH]; intros st Hst; cbn [fold_left]; [reflexivity|].
  rewrite (IH _ (step_has_lines flag st raw Hst)).
  rewrite (step_stored_lines flag st raw Hst). reflexivity.
Qed.

Lemma parse_kept_lines (output_content : str) :
  (map CompilationErrorParser.full_message
       (fst (CompilationErrorParser.parse_compilation_output output_content)),
   map CompilationErrorParser.full_message
       (snd (CompilationErrorParser.parse_compilation_output output_content)))
  = kept_lines (CompilationErrorParser.first_pass (lines output_content))
               (lines output_content).
Proof.
  unfold CompilationErrorParser.parse_compilation_output,
    CompilationErrorParser.parse_lines, CompilationErrorParser.finish,
    kept_lines.
  cbn [fst snd]. rewrite !close_lines_flush.
  pose proof (run_stored_lines
                (CompilationErrorParser.first_pass (lines output_content))
                CompilationErrorParser.init (lines output_content)
                init_has_lines) as H.
  change (stored_lines CompilationErrorParser.init)
    with (mk_stored [] [] None None) in H.
  rewrite <- H. reflexivity.
Qed.

(** *** The window of a verification failure *)

Lemma firstn_skipn_snoc {A : Type} (l : list A) i j x r :
  i <= j -> skipn j l = x :: r ->
  firstn (j + 1 - i) (skipn i l) = firstn (j - i) (skipn i l) ++ [x].
Proof.
  intros Hij Hs.
  rewrite (firstn_slice (skipn i l) (j - i) (j + 1 - i)) by lia.
  f_equal. rewrite skipn_skipn.
  replace (j - i + i) with j by lia. rewrite Hs.
  replace (j + 1 - i - (j - i)) with 1 by lia. reflexivity.
Qed.

Lemma skipn_S_tail {A : Type} (l : list A) j x r :
  skipn j l = x :: r -> skipn (S j) l = r.
Proof.
  revert l. induction j as [|j IH]; intros [|y l]; simpl; try discriminate.
  - intros H. injection H as _ ->. reflexivity.
  - intros H. apply (IH l H).
Qed.

Lemma capture_line_location ls i j current_line c :
  i <= j -> nth_error ls j = Some current_line ->
  (forall a, VerificationParser.location_found_at c = Some a ->
             i <= a /\ a < j
             /\ exists la, nth_error ls a = Some la
                  /\ Re.search VerificationParser.error_pattern la <> None) ->
  forall a,
    VerificationParser.location_found_at
      (VerificationParser.capture_line j current_line c) = Some a ->
    i <= a /\ a < j + 1
    /\ exists la, nth_error ls a = Some la
         /\ Re.search VerificationParser.error_pattern la <> None.
Proof.
  intros Hij Hnth Hc a. unfold VerificationParser.capture_line.
  destruct (Re.search VerificationParser.error_pattern current_line)
    as [[g1 g2]|] eqn:Es;
    destruct (VerificationParser.location_found_at c) as [a0|] eqn:Ea;
    cbn [VerificationParser.location_found_at]; intros H;
    try discriminate H.
  - injection H as <-. destruct (Hc a0 eq_refl) as (H1 & H2 & H3).
    split; [exact H1|]. split; [lia|exact H3].
  - injection H as <-. split; [exact Hij|]. split; [lia|].
    exists current_line. split; [exact Hnth|congruence].
  - injection H as <-. destruct (Hc a0 eq_refl) as (H1 & H2 & H3).
    split; [exact H1|]. split; [lia|exact H3].
Qed.

Lemma capture_loop_window ls i n :
  forall j c,
    i <= j -> j <= List.length ls ->
    VerificationParser.full_error_lines c = firstn (j - i) (skipn i ls) ->
    (forall a, VerificationParser.location_found_at c = Some a ->
               i <= a /\ a < j
               /\ exists la, nth_error ls a = Some la
                    /\ Re.search VerificationParser.error_pattern la <> None) ->
    exists k,
      k <= n /\ j + k <= List.length ls
      /\ (0 < n -> j < List.length ls -> 1 <= k)
      /\ VerificationParser.full_error_lines
           (VerificationParser.capture_loop n j (skipn j ls) c)
         = firstn (j + k - i) (skipn i ls)
      /\ (k = n \/ j + k = List.length ls
          \/ (0 < k /\ window_closed ls i (j + k - i))).
Proof.
  induction n as [|n IH]; intros j c Hij Hj Hfl Hloc.
  - exists 0. cbn [VerificationParser.capture_loop]. rewrite Nat.add_0_r.
    split; [lia|]. split; [lia|]. split; [lia|]. split; [exact Hfl|].
    left. reflexivity.
  - destruct (skipn j ls) as [|cur following] eqn:Hsk.
    + exists 0. cbn [VerificationParser.capture_loop]. rewrite Nat.add_0_r.
      assert (Hlen : List.length (skipn j ls) = 0) by (rewrite Hsk; reflexivity).
      rewrite length_skipn in Hlen.
      split; [lia|]. split; [lia|]. split; [lia|]. split; [exact Hfl|].
      right. left. lia.
    + pose proof (skipn_cons_lt _ _ _ _ Hsk) as Hlt.
      pose proof (skipn_cons_nth _ _ _ _ Hsk) as Hnth.
      cbn [VerificationParser.capture_loop].
      assert (Hfl1 : VerificationParser.full_error_lines
                       (VerificationParser.capture_line j cur c)
                     = firstn (j + 1 - i) (skipn i ls)).
      { rewrite capture_line_lines, Hfl.
        symmetry. apply (firstn_skipn_snoc ls i j cur following Hij Hsk). }
      pose proof (capture_line_location ls i j cur c Hij Hnth Hloc) as Hloc1.
      destruct (VerificationParser.capture_break j cur following
                  (VerificationParser.capture_line j cur c)) eqn:Hbr.
      * exists 1. split; [lia|]. split; [lia|]. split; [lia|].
        split; [exact Hfl1|]. right. right. split; [lia|].
        unfold VerificationParser.capture_break in Hbr.
        destruct (VerificationParser.location_found_at
                    (VerificationParser.capture_line j cur c))
          as [a|] eqn:Ea; [|discriminate Hbr].
        destruct (Hloc1 a eq_refl) as (Ha1 & Ha2 & la & Hla & Hsearch).
        apply andb_true_iff in Hbr as [Hbr Hnext].
        apply andb_true_iff in Hbr as [Hbefore Hblank].
        apply Nat.ltb_lt in Hbefore. apply str_eqb_eq in Hblank.
        destruct following as [|next following']; [discriminate Hnext|].
        pose proof (skipn_cons_nth _ _ _ _ (skipn_S_tail _ _ _ _ Hsk)) as Hn1.
        exists a, la, cur, next.
        replace (i + (j + 1 - i) - 1) with j by lia.
        replace (i + (j + 1 - i)) with (S j) by lia.
        repeat split; try assumption; lia.
      * destruct (IH (S j) (VerificationParser.capture_line j cur c))
          as (k & Hk1 & Hk2 & Hk3 & Hk4 & Hk5); try lia.
        { replace (S j - i) with (j + 1 - i) by lia. exact Hfl1. }
        { intros a Ha. destruct (Hloc1 a Ha) as (H1 & H2 & H3).
          split; [exact H1|]. split; [lia|exact H3]. }
        rewrite (skipn_S_tail _ _ _ _ Hsk) in Hk4.
        exists (S k). split; [lia|]. split; [lia|]. split; [lia|].
        replace (j + S k - i) with (S j + k - i) by lia.
        split; [exact Hk4|].
        destruct Hk5 as [->|[Hk5|[Hk5 Hw]]];
          [left; reflexivity|right; left; lia|right; right].
        split; [lia|exact Hw].
Qed.

Lemma failure_at_window ls i f :
  VerificationParser.failure_at i (skipn i ls) = Some f ->
  exists raw n,
    nth_error ls i = Some raw
    /\ failure_detected raw = true
    /\ VerificationParser.message f = Re.strip_ansi (strip (strip raw))
    /\ 1 <= n <= 15 /\ i + n <= List.length ls
    /\ VerificationParser.full_error_text f
       = strip (join [newline] (map clean_line (firstn n (skipn i ls))))
    /\ (n = 15 \/ i + n = List.length ls \/ window_closed ls i n).
Proof.
  intros Hat.
  destruct (skipn i ls) as [|raw rest] eqn:Hsk; [discriminate Hat|].
  pose proof (skipn_cons_lt _ _ _ _ Hsk) as Hlt.
  pose proof (skipn_cons_nth _ _ _ _ Hsk) as Hnth.
  pose proof (failure_at_detected i raw rest) as Hd. rewrite Hat in Hd.
  destruct Hd as (Hdet & Hmsg & _).
  destruct (capture_loop_window ls i 15 i
              (VerificationParser.mk_capture [] None None None None))
    as (k & Hk1 & Hk2 & Hk3 & Hk4 & Hk5); try lia.
  { rewrite Nat.sub_diag. reflexivity. }
  { intros a Ha. discriminate Ha. }
  rewrite Hsk in Hk4. replace (i + k - i) with k in * by lia.
  exists raw, k. split; [exact Hnth|]. split; [exact Hdet|].
  split; [exact Hmsg|]. split; [lia|]. split; [exact Hk2|].
  split.
  - unfold VerificationParser.failure_at in Hat.
    destruct (find _ VerificationParser.verification_error_types);
      [|discriminate Hat].
    destruct (contains (lit "error") (lower (strip raw))); [|discriminate Hat].
    remember (VerificationParser.capture_loop 15 i (raw :: rest) _) as c eqn:Hc.
    pose proof (f_equal (fun o => match o with Some x => x | None => f end) Hat)
      as Hfe.
    cbv beta iota in Hfe. subst f.
    cbn [VerificationParser.full_error_text]. rewrite Hk4. reflexivity.
  - destruct Hk5 as [->|[Hk5|[_ Hw]]]; auto.
Qed.

Lemma failures_from_window ls rest :
  forall i f,
    rest = skipn i ls ->
    In f (VerificationParser.failures_from i rest) ->
    exists i', VerificationParser.failure_at i' (skipn i' ls) = Some f.
Proof.
  induction rest as [|raw rest IH]; intros i f Hrest; [intros []|].
  change (VerificationParser.failures_from i (raw :: rest))
    with (match VerificationParser.failure_at i (raw :: rest) with
          | Some f => f :: VerificationParser.failures_from (S i) rest
          | None => VerificationParser.failures_from (S i) rest
          end).
  assert (Hnext : rest = skipn (S i) ls)
    by (symmetry; apply (skipn_S_tail ls i raw rest); auto).
  destruct (VerificationParser.failure_at i (raw :: rest)) as [f0|] eqn:E;
    [|apply (IH _ _ Hnext)].
  intros [<-|Hin]; [|apply (IH _ _ Hnext Hin)].
  exists i. rewrite <- Hrest. exact E.
Qed.

(** C9, as the code has it.  The raw lines of the error and warning
    records are exactly the lines kept for them: the line that opens a
    record, then the lines added to it while it is open, in input order,
    each with the surrounding whitespace trimmed; in particular they are
    trimmed lines of the input in input order.  The text of a verification
    failure is the window of input lines that starts at the failure's own
    line, each line trimmed on the right and freed of colour sequences,
    joined by newlines and trimmed as a whole; the window has fifteen
    lines, or ends with the input, or ends on a blank line before a new
    section once a location line has been read. *)
Theorem C9_records_keep_the_matched_lines_trimmed :
  forall output_content : str,
    (map CompilationErrorParser.full_message
         (fst (CompilationErrorParser.parse_compilation_output output_content)),
     map CompilationErrorParser.full_message
         (snd (CompilationErrorParser.parse_compilation_output output_content)))
    = kept_lines (CompilationErrorParser.first_pass (lines output_content))
                 (lines output_content)
    /\ (forall r,
        In r (fst (CompilationErrorParser.parse_compilation_output output_content)
              ++ snd (CompilationErrorParser.parse_compilation_output
                        output_content)) ->
        Subseq (CompilationErrorParser.full_message r)
               (map strip (lines output_content)))
    /\ (forall f,
        In f (VerificationParser.parse_verification_failures output_content) ->
        exists i raw n,
          nth_error (lines output_content) i = Some raw
          /\ failure_detected raw = true
          /\ VerificationParser.message f = Re.strip_ansi (strip (strip raw))
          /\ 1 <= n <= 15 /\ i + n <= List.length (lines output_content)
          /\ VerificationParser.full_error_text f
             = strip (join [newline]
                        (map clean_line
                             (firstn n (skipn i (lines output_content)))))
          /\ (n = 15 \/ i + n = List.length (lines output_content)
              \/ window_closed (lines output_content) i n)).
Proof.
  intros output_content. split; [apply parse_kept_lines|]. split.
  - intros r. apply parse_lines_subseq.
  - intros f Hin.
    destruct (failures_from_window (lines output_content)
                (lines output_content) 0 f eq_refl Hin) as (i & Hat).
    destruct (failure_at_window _ _ _ Hat) as (raw & n & H).
    exists i, raw, n. exact H.
Qed.

(** An error with its location and a continuation line, closed by a blank
    line, then a verification failure with its location. *)
Lemma C9_witness :
  map CompilationErrorParser.full_message
      (fst (CompilationErrorParser.parse_compilation_output diagnostic_text))
  = [[lit "error: unknown start"; lit "--> src/lib.rs:4:9"; lit "|"]]
  /\ exists f i raw n,
       In f (VerificationParser.parse_verification_failures diagnostic_text)
       /\ nth_error (lines diagnostic_text) i = Some raw
       /\ failure_detected raw = true
       /\ 1 <= n <= 15
       /\ VerificationParser.full_error_text f
          = strip (join [newline]
                     (map clean_line
                          (firstn n (skipn i (lines diagnostic_text))))).
Proof.
  destruct (C9_records_keep_the_matched_lines_trimmed diagnostic_text)
    as (HA & _ & HB).
  split.
  - apply (f_equal fst) in HA. cbn [fst] in HA. rewrite HA.
    vm_compute. reflexivity.
  - destruct (VerificationParser.parse_verification_failures diagnostic_text)
      as [|f fs] eqn:E; [vm_compute in E; discriminate E|].
    destruct (HB f (or_introl eq_refl))
      as (i & raw & n & H1 & H2 & _ & H4 & _ & H6 & _).
    exists f, i, raw, n. repeat split; try assumption; try lia.
    left. reflexivity.
Defined.
